(** * PostCSSTransformer: a shallow embedding and its verified properties

    The development follows
    [packages/transformers/postcss/src/PostCSSTransformer.js].

    Conventions.  A JavaScript string is a [string]; every [ascii] stands
    for one UTF-16 code unit in the range U+0000..U+00FF.  External
    collaborators (the postcss engine, postcss-value-parser, the host's
    resolver and file system, Node's [path] module, the css-modules core
    tokenizer, the md5 helper) are Section variables: every theorem holds
    for whatever they compute. *)

From Stdlib Require Import String Ascii List Bool Arith NArith Lia.
From Stdlib Require Import FunctionalExtensionality.
Import ListNotations.
Open Scope list_scope.
Open Scope string_scope.

Set Implicit Arguments.
Set Warnings "-register-all".

(* ===================================================================== *)
(** ** JavaScript strings *)
(* ===================================================================== *)

Module JsString.

(** [s.startsWith(p)]. *)
Fixpoint startsWith (s p : string) : bool :=
  match p, s with
  | EmptyString, _ => true
  | String _ _, EmptyString => false
  | String a p', String b s' => Ascii.eqb a b && startsWith s' p'
  end.

(** [s.substr(n)]: the suffix of [s] from index [n]. *)
Fixpoint drop (n : nat) (s : string) : string :=
  match n, s with
  | O, _ => s
  | S _, EmptyString => EmptyString
  | S n', String _ s' => drop n' s'
  end.

(** [s.substr(0, n)]: the first [n] code units of [s] (all of [s] when
    it is shorter). *)
Fixpoint take (n : nat) (s : string) : string :=
  match n, s with
  | O, _ => EmptyString
  | S _, EmptyString => EmptyString
  | S n', String c s' => String c (take n' s')
  end.

(** [s.includes(p)]. *)
Fixpoint includes (s p : string) : bool :=
  startsWith s p ||
  match s with
  | EmptyString => false
  | String _ s' => includes s' p
  end.

(** [xs.join(sep)]. *)
Fixpoint join (sep : string) (xs : list string) : string :=
  match xs with
  | [] => EmptyString
  | [x] => x
  | x :: rest => x ++ sep ++ join sep rest
  end.

(** Every code unit of [s] satisfies [p]. *)
Fixpoint all (p : ascii -> bool) (s : string) : bool :=
  match s with
  | EmptyString => true
  | String c s' => p c && all p s'
  end.

(** Number of code units of [s] that satisfy [p]. *)
Fixpoint count (p : ascii -> bool) (s : string) : nat :=
  match s with
  | EmptyString => 0
  | String c s' => (if p c then 1 else 0) + count p s'
  end.

Definition code (c : ascii) : nat := nat_of_ascii c.

End JsString.

(* ===================================================================== *)
(** ** Regular expressions (the fragment the transformer uses)

    A backtracking matcher in continuation-passing style, after the
    ECMAScript pattern semantics: alternatives are tried left to right,
    [*] is greedy and refuses an iteration that consumes nothing, and
    [exec] returns the leftmost match. *)
(* ===================================================================== *)

Module Regex.

Inductive regex : Type :=
| Eps                              (* the empty pattern *)
| Chr (p : ascii -> bool)          (* one code unit of a class *)
| Seq (r1 r2 : regex)              (* r1r2 *)
| Alt (r1 r2 : regex)              (* r1|r2 *)
| Star (r : regex)                 (* r*  (greedy) *)
| Grp (i : nat) (r : regex)        (* capture group number i *)
| Bol                              (* ^ *)
| Eol.                             (* $ *)

(** Matcher state: the index reached, the input from there on, and the
    captures made so far (latest first). *)
Record mstate : Type := MState {
  idx  : nat;
  rest : string;
  caps : list (nat * string)
}.

Definition cont := mstate -> option mstate.

Definition step (x : mstate) (s' : string) : mstate :=
  {| idx := S (idx x); rest := s'; caps := caps x |}.

Definition capture (i : nat) (x y : mstate) : mstate :=
  {| idx := idx y; rest := rest y;
     caps := (i, JsString.take (idx y - idx x) (rest x)) :: caps y |}.

Definition orElse {A} (a b : option A) : option A :=
  match a with Some _ => a | None => b end.

(** The iterations of a greedy star: one more round of [m] that
    consumes something and then the star again, or else the
    continuation.  [fuel] bounds the rounds; a round consumes at least
    one code unit, so one more than the length of the input is
    enough. *)
Fixpoint starLoop (m : mstate -> cont -> option mstate) (k : cont)
         (fuel : nat) (x : mstate) {struct fuel} : option mstate :=
  match fuel with
  | O => None
  | S fuel' =>
      orElse
        (m x (fun y => if Nat.eqb (idx y) (idx x) then None
                       else starLoop m k fuel' y))
        (k x)
  end.

Fixpoint rmatch (r : regex) (x : mstate) (k : cont) {struct r} : option mstate :=
  match r with
  | Eps => k x
  | Chr p =>
      match rest x with
      | String c s' => if p c then k (step x s') else None
      | EmptyString => None
      end
  | Seq r1 r2 => rmatch r1 x (fun y => rmatch r2 y k)
  | Alt r1 r2 => orElse (rmatch r1 x k) (rmatch r2 x k)
  | Star r1 => starLoop (rmatch r1) k (S (String.length (rest x))) x
  | Grp i r1 => rmatch r1 x (fun y => k (capture i x y))
  | Bol => if Nat.eqb (idx x) 0 then k x else None
  | Eol => match rest x with EmptyString => k x | String _ _ => None end
  end.

(** Derived forms. *)
Definition Plus (r : regex) : regex := Seq r (Star r).      (* r+ *)
Definition Opt (r : regex) : regex := Alt r Eps.            (* r? *)

Fixpoint Lit (s : string) : regex :=                        (* literal text *)
  match s with
  | EmptyString => Eps
  | String c s' => Seq (Chr (Ascii.eqb c)) (Lit s')
  end.

(** Character classes. *)

(** Line terminators below U+0100: LF and CR. *)
Definition isLineTerminator (c : ascii) : bool :=
  let n := JsString.code c in Nat.eqb n 10 || Nat.eqb n 13.

(** [.] (no [s] flag): anything but a line terminator. *)
Definition dot (c : ascii) : bool := negb (isLineTerminator c).

(** [\s] below U+0100: TAB, LF, VT, FF, CR, SPACE and NBSP. *)
Definition space (c : ascii) : bool :=
  let n := JsString.code c in
  (Nat.leb 9 n && Nat.leb n 13) || Nat.eqb n 32 || Nat.eqb n 160.

(** The double quote, U+0022. *)
Definition dq : ascii := "034"%char.

(** The class of the two quote characters, U+0022 and U+0027. *)
Definition quote (c : ascii) : bool :=
  Ascii.eqb c dq || Ascii.eqb c "'".

(** Leftmost match of [r] in the input whose suffix from index [i] is
    [s]: the match attempt at [i], then at [i+1], and so on. *)
Fixpoint search (r : regex) (i : nat) (s : string) : option mstate :=
  orElse (rmatch r {| idx := i; rest := s; caps := [] |} Some)
         (match s with
          | EmptyString => None
          | String _ s' => search r (S i) s'
          end).

Fixpoint lookupCap (i : nat) (cs : list (nat * string)) : option string :=
  match cs with
  | [] => None
  | (j, v) :: cs' => if Nat.eqb i j then Some v else lookupCap i cs'
  end.

(** [r.test(s)] for a pattern without the [g] and [y] flags. *)
Definition test (r : regex) (s : string) : bool :=
  match search r 0 s with Some _ => true | None => false end.

(** [(r.exec(s) || [])[i]]: capture [i] of the leftmost match;
    [None] stands for [undefined]. *)
Definition execGroup (r : regex) (i : nat) (s : string) : option string :=
  match search r 0 s with
  | Some y => lookupCap i (caps y)
  | None => None
  end.

(** [s.replace(r, '')] for a pattern with the [g] flag: every match,
    found left to right, is deleted; after an empty match the search
    resumes one code unit further. *)
Fixpoint deleteAllFrom (fuel : nat) (r : regex) (i : nat) (s : string) : string :=
  match fuel with
  | O => s
  | S fuel' =>
      let skip :=
        match s with
        | EmptyString => EmptyString
        | String c s' => String c (deleteAllFrom fuel' r (S i) s')
        end in
      match rmatch r {| idx := i; rest := s; caps := [] |} Some with
      | Some y =>
          if Nat.eqb (idx y) i then skip
          else deleteAllFrom fuel' r (idx y) (rest y)
      | None => skip
      end
  end.

Definition deleteAll (r : regex) (s : string) : string :=
  deleteAllFrom (S (String.length s)) r 0 s.

(** What a pattern can match, read off the pattern alone:
    [Matches r x y] holds when [r] can take the matcher from state [x]
    to state [y].  A round of a star consumes at least one code unit.
    The matcher above explores these possibilities in the order of
    the language (left alternative first, longest run first). *)
Inductive Matches : regex -> mstate -> mstate -> Prop :=
| MEps x : Matches Eps x x
| MChr p x c s' :
    rest x = String c s' -> p c = true -> Matches (Chr p) x (step x s')
| MSeq r1 r2 x y z :
    Matches r1 x y -> Matches r2 y z -> Matches (Seq r1 r2) x z
| MAltL r1 r2 x y : Matches r1 x y -> Matches (Alt r1 r2) x y
| MAltR r1 r2 x y : Matches r2 x y -> Matches (Alt r1 r2) x y
| MStarStop r x : Matches (Star r) x x
| MStarRound r x y z :
    Matches r x y -> idx y <> idx x -> Matches (Star r) y z ->
    Matches (Star r) x z
| MGrp i r x y : Matches r x y -> Matches (Grp i r) x (capture i x y)
| MBol x : idx x = 0 -> Matches Bol x x
| MEol x : rest x = EmptyString -> Matches Eol x x.

End Regex.

Import Regex.

(** [const COMPOSES_RE = /composes:.+from\s*(Q).*(Q)\s*;?/], where [Q]
    is the alternation of the double and the single quote. *)
Definition COMPOSES_RE : regex :=
  Seq (Lit "composes:")
 (Seq (Plus (Chr dot))
 (Seq (Lit "from")
 (Seq (Star (Chr space))
 (Seq (Grp 1 (Alt (Chr (Ascii.eqb dq)) (Chr (Ascii.eqb "'"))))
 (Seq (Star (Chr dot))
 (Seq (Grp 2 (Alt (Chr (Ascii.eqb dq)) (Chr (Ascii.eqb "'"))))
 (Seq (Star (Chr space))
      (Opt (Chr (Ascii.eqb ";"))))))))))%char.

(** The non-capturing alternation of the two quote characters. *)
Definition QUOTE_ALT : regex := Alt (Chr (Ascii.eqb dq)) (Chr (Ascii.eqb "'"%char)).

(** [from\s*(?:Q)( .* )(?:Q)\s*;?], with [Q] the alternation of the two
    quote characters; the only capture group is the greedy run between
    the quotes. *)
Definition FROM_CLAUSE : regex :=
  Seq (Lit "from")
 (Seq (Star (Chr space))
 (Seq QUOTE_ALT
 (Seq (Grp 1 (Star (Chr dot)))
 (Seq QUOTE_ALT
 (Seq (Star (Chr space))
      (Opt (Chr (Ascii.eqb ";"%char)))))))).

(** [const FROM_IMPORT_RE = /.+from\s*(?:Q)( .* )(?:Q)\s*;?/]: a greedy
    run of one or more characters, then the clause above. *)
Definition FROM_IMPORT_RE : regex := Seq (Plus (Chr dot)) FROM_CLAUSE.

(** The pattern of [fetch]: a quote character at the very start, or a
    quote character at the very end (flag [g]). *)
Definition QUOTES_RE : regex :=
  Alt (Seq Bol (Chr quote)) (Seq (Chr quote) Eol).

(* ===================================================================== *)
(** ** The loader's string operations, as the specification words them

    Second definitions, written after the specification (steps 1 and 3
    of the loader's fetch), to compare with what the code computes. *)
(* ===================================================================== *)

Module Described.

Definition dropLeadingQuote (s : string) : string :=
  match s with
  | String c s' => if quote c then s' else s
  | EmptyString => EmptyString
  end.

Fixpoint dropTrailingQuote (s : string) : string :=
  match s with
  | EmptyString => EmptyString
  | String c EmptyString => if quote c then EmptyString else s
  | String c s' => String c (dropTrailingQuote s')
  end.

(** Strip any surrounding quote characters. *)
Definition stripQuotes (s : string) : string :=
  dropTrailingQuote (dropLeadingQuote s).

(** If the path begins with the root marker, strip that marker. *)
Definition stripRootMarker (root path : string) : string :=
  if JsString.startsWith path root
  then JsString.drop (String.length root) path
  else path.

End Described.

(* ===================================================================== *)
(** ** JSON.stringify on the values the transformer serialises *)
(* ===================================================================== *)

Module JSON.

Definition nl : string := String "010"%char EmptyString.
Definition dqs : string := String dq EmptyString.

Definition hexDigit (n : nat) : ascii :=
  match n with
  | 0 => "0" | 1 => "1" | 2 => "2" | 3 => "3" | 4 => "4" | 5 => "5"
  | 6 => "6" | 7 => "7" | 8 => "8" | 9 => "9" | 10 => "a" | 11 => "b"
  | 12 => "c" | 13 => "d" | 14 => "e" | _ => "f"
  end%char.

(** QuoteJSONString, one code unit: the two-character escapes, a
    \u00XX escape for the other control characters, the character itself
    otherwise. *)
Definition quoteChar (c : ascii) : string :=
  let n := JsString.code c in
  if Nat.eqb n 8 then "\b"
  else if Nat.eqb n 9 then "\t"
  else if Nat.eqb n 10 then "\n"
  else if Nat.eqb n 12 then "\f"
  else if Nat.eqb n 13 then "\r"
  else if Nat.eqb n 34 then String "\" dqs
  else if Nat.eqb n 92 then "\\"
  else if Nat.ltb n 32 then
    "\u00" ++ String (hexDigit (n / 16)) (String (hexDigit (n mod 16)) EmptyString)
  else String c EmptyString.

Fixpoint quoteChars (s : string) : string :=
  match s with
  | EmptyString => EmptyString
  | String c s' => quoteChar c ++ quoteChars s'
  end.

(** [JSON.stringify(s)] for a string [s]. *)
Definition stringifyString (s : string) : string :=
  dqs ++ quoteChars s ++ dqs.

(** [JSON.stringify(o, null, 2)] for an object [o] whose own enumerable
    properties, in enumeration order, are the pairs of the list and
    whose values are strings. *)
Definition stringifyObject2 (o : list (string * string)) : string :=
  match o with
  | [] => "{}"
  | _ :: _ =>
      "{" ++ nl ++ "  " ++
      JsString.join ("," ++ nl ++ "  ")
        (map (fun kv => stringifyString (fst kv) ++ ": " ++ stringifyString (snd kv)) o) ++
      nl ++ "}"
  end.

End JSON.

(* ===================================================================== *)
(** ** The postcss tree and the value parser's nodes *)
(* ===================================================================== *)

Module Postcss.

Record Position : Type := { line : nat; column : nat }.

(** A declaration node.  [source_start] is [decl.source.start], the
    position at which the declaration (that is, its property) begins;
    the transformer reads it without a check: declarations are taken
    with their source position, as the parser produces them.
    [raws_between] is [decl.raws.between], the text the parser found
    between the property and the value, colon included.  The
    transformer reads [prop], [value] and [source_start] only. *)
Record Declaration : Type := {
  prop : string;
  raws_between : string;
  value : string;
  source_start : Position
}.

(** Where the value of a declaration begins, when the property and the
    text between property and value hold no line break: on the line of
    the declaration, after the property and that text. *)
Definition valueStart (d : Declaration) : Position :=
  {| line := line (source_start d);
     column := column (source_start d) + String.length (prop d)
               + String.length (raws_between d) |}.

Inductive Node : Type :=
| Decl (d : Declaration)
| Rule (selector : string) (nodes : list Node)
| AtRule (name params : string) (nodes : list Node)
| Comment (text : string).

(** The root container ([ast.program]). *)
Definition Root : Type := list Node.

(** The declarations [walkDecls] visits, in document order. *)
Fixpoint declsOfNode (n : Node) : list Declaration :=
  match n with
  | Decl d => [d]
  | Rule _ ns => flat_map declsOfNode ns
  | AtRule _ _ ns => flat_map declsOfNode ns
  | Comment _ => []
  end.

Definition declsOf (root : Root) : list Declaration :=
  flat_map declsOfNode root.

(** A message of the plugin run ([result.messages]). *)
Record Message : Type := {
  type : string;
  plugin : string;
  file : string
}.

End Postcss.

Module ValueParser.

(** A node of postcss-value-parser: [type] is one of word, string,
    space, div, function, comment, unicode-range. *)
Inductive vnode : Type :=
| VNode (type : string) (value : string) (nodes : list vnode).

Definition type (n : vnode) : string := let (t, _, _) := n in t.
Definition value (n : vnode) : string := let (_, v, _) := n in v.
Definition nodes (n : vnode) : list vnode := let (_, _, ns) := n in ns.

(** The nodes [walk] hands to a callback that never returns [false]:
    each node, then the children of a function node. *)
Fixpoint visitNode (n : vnode) : list vnode :=
  match n with
  | VNode t v ns =>
      n :: (if String.eqb t "function" then flat_map visitNode ns else [])
  end.

Definition visit (ns : list vnode) : list vnode := flat_map visitNode ns.

Definition isString (n : vnode) : bool := String.eqb (type n) "string".

(** Number of string-typed nodes met by [walk]. *)
Definition countStrings (ns : list vnode) : nat :=
  List.length (filter isString (visit ns)).

End ValueParser.

(* ===================================================================== *)
(** ** Assets, dependencies and the effect monad *)
(* ===================================================================== *)

Module Parcel.

Definition FilePath : Type := string.

Record SourceLocation : Type := {
  filePath : FilePath;
  start : Postcss.Position;
  end_ : Postcss.Position
}.

(** A dependency as [getDependencies] returns it.  [isURL] is [false]
    when the option was not given. *)
Record Dependency : Type := {
  moduleSpecifier : string;
  isURL : bool;
  loc : option SourceLocation
}.

Record AST : Type := {
  type : string;
  version : string;
  program : Postcss.Root
}.

(** The export-token map: the object's properties in enumeration
    order. *)
Definition ExportTokens : Type := list (string * string).

Inductive Error : Type :=
| NullthrowsError                 (* thrown by nullthrows *)
| Thrown (what : string).         (* thrown by a collaborator *)

End Parcel.

Import Parcel.

Module Asset.

(** Modelled from the spec: the mutable asset of the surrounding
    pipeline (its class is not part of this file).  It holds the file
    path, the code, the optional AST with its dirty flag, the
    [cssModules] slot of the metadata map, and the lists of registered
    dependencies and of included files. *)
Record t : Type := {
  filePath : FilePath;
  code : string;
  ast : option AST;
  astDirty : bool;
  cssModules : option ExportTokens;      (* asset.meta.cssModules *)
  dependencies : list Dependency;
  includedFiles : list FilePath
}.

Definition with_ast (a : t) (x : option AST) (dirty : bool) : t :=
  {| filePath := filePath a; code := code a; ast := x; astDirty := dirty;
     cssModules := cssModules a; dependencies := dependencies a;
     includedFiles := includedFiles a |}.

(** The asset once the AST object it holds has [root] as its
    [program]: the object is the same, its type and version and the
    dirty flag of the asset stay as they are. *)
Definition with_program (root : Postcss.Root) (a : t) : t :=
  with_ast a
    match ast a with
    | Some t => Some {| type := type t; version := version t; program := root |}
    | None => None
    end
    (astDirty a).

Definition with_cssModules (a : t) (x : option ExportTokens) : t :=
  {| filePath := filePath a; code := code a; ast := ast a;
     astDirty := astDirty a; cssModules := x;
     dependencies := dependencies a; includedFiles := includedFiles a |}.

Definition with_dependencies (a : t) (x : list Dependency) : t :=
  {| filePath := filePath a; code := code a; ast := ast a;
     astDirty := astDirty a; cssModules := cssModules a;
     dependencies := x; includedFiles := includedFiles a |}.

Definition with_includedFiles (a : t) (x : list FilePath) : t :=
  {| filePath := filePath a; code := code a; ast := ast a;
     astDirty := astDirty a; cssModules := cssModules a;
     dependencies := dependencies a; includedFiles := x |}.

End Asset.

(** Calls made on the collaborators, in order (latest last). *)
Inductive Call : Type :=
| CallRequire (name : string)
| CallAddDependency (d : Dependency)
| CallProcess (program : Postcss.Root)
| CallSetAST (a : AST)
| CallAddIncludedFile (f : FilePath).

Definition isRequire (c : Call) : bool :=
  match c with CallRequire _ => true | _ => false end.
Definition isAddDependency (c : Call) : bool :=
  match c with CallAddDependency _ => true | _ => false end.
Definition isProcess (c : Call) : bool :=
  match c with CallProcess _ => true | _ => false end.
Definition isSetAST (c : Call) : bool :=
  match c with CallSetAST _ => true | _ => false end.
Definition isAddIncludedFile (c : Call) : bool :=
  match c with CallAddIncludedFile _ => true | _ => false end.

Record World : Type := {
  asset : Asset.t;
  calls : list Call
}.

(** State and exceptions: a computation runs on a world and ends with a
    value or a thrown error, in the world it has reached. *)
Definition M (A : Type) : Type := World -> World * (Error + A).

Definition ret {A} (a : A) : M A := fun w => (w, inr a).

Definition throw {A} (e : Error) : M A := fun w => (w, inl e).

Definition bind {A B} (m : M A) (f : A -> M B) : M B :=
  fun w =>
    match m w with
    | (w', inr a) => f a w'
    | (w', inl e) => (w', inl e)
    end.

Declare Scope js_scope.
Delimit Scope js_scope with js.
Notation "x <- c ;; k" := (bind c (fun x => k))
  (at level 61, c at next level, right associativity) : js_scope.
Notation "c ;; k" := (bind c (fun _ => k))
  (at level 61, right associativity) : js_scope.
Open Scope js_scope.

Definition gets {A} (f : Asset.t -> A) : M A := fun w => (w, inr (f (asset w))).

(** A mutation of the asset that does not go through one of its
    methods. *)
Definition modify (f : Asset.t -> Asset.t) : M unit :=
  fun w => ({| asset := f (asset w); calls := calls w |}, inr tt).

(** A call on a collaborator, with its effect on the asset. *)
Definition invoke (c : Call) (f : Asset.t -> Asset.t) : M unit :=
  fun w => ({| asset := f (asset w); calls := (calls w ++ [c])%list |}, inr tt).

(** The outcome of an awaited collaborator. *)
Definition liftResult {A} (r : Error + A) : M A :=
  match r with inl e => throw e | inr a => ret a end.

Fixpoint forEach {A} (xs : list A) (f : A -> M unit) : M unit :=
  match xs with
  | [] => ret tt
  | x :: xs' => f x ;; forEach xs' f
  end.

(** Modelled from the spec: [asset.addDependency] appends to the list of
    registered dependencies. *)
Definition addDependency (moduleSpecifier : string) (loc : SourceLocation) : M unit :=
  let d := {| moduleSpecifier := moduleSpecifier; isURL := false; loc := Some loc |} in
  invoke (CallAddDependency d)
    (fun a => Asset.with_dependencies a (Asset.dependencies a ++ [d])%list).

(** Modelled from the spec: [asset.addIncludedFile] appends to the list
    of included files. *)
Definition addIncludedFile (f : FilePath) : M unit :=
  invoke (CallAddIncludedFile f)
    (fun a => Asset.with_includedFiles a (Asset.includedFiles a ++ [f])%list).

(** Modelled from the spec: [asset.setAST] replaces the AST and marks it
    dirty. *)
Definition setAST (t : AST) : M unit :=
  invoke (CallSetAST t) (fun a => Asset.with_ast a (Some t) true).

(** [asset.meta.cssModules = json]. *)
Definition setCssModules (json : ExportTokens) : M unit :=
  modify (fun a => Asset.with_cssModules a (Some json)).

(** [ast.program = root] on the AST object the asset holds. *)
Definition assignProgram (root : Postcss.Root) : M unit :=
  modify (Asset.with_program root).

(** [nullthrows(x)]. *)
Definition nullthrows {A} (x : option A) : M A :=
  match x with Some a => ret a | None => throw NullthrowsError end.

(* ===================================================================== *)
(** ** semver.satisfies(version, '^7.0.0') *)
(* ===================================================================== *)

Module Semver.

Definition digit (c : ascii) : bool :=
  let n := JsString.code c in Nat.leb 48 n && Nat.leb n 57.
Definition nonZeroDigit (c : ascii) : bool :=
  let n := JsString.code c in Nat.leb 49 n && Nat.leb n 57.
Definition letterOrHyphen (c : ascii) : bool :=
  let n := JsString.code c in
  (Nat.leb 65 n && Nat.leb n 90) || (Nat.leb 97 n && Nat.leb n 122) || Nat.eqb n 45.
Definition identChar (c : ascii) : bool := digit c || letterOrHyphen c.

(** The library's grammar of a full version: an optional v, three
    numeric identifiers, an optional prerelease and optional build
    metadata, anchored at both ends. *)
Definition NUMERICIDENTIFIER : regex :=
  Alt (Lit "0") (Seq (Chr nonZeroDigit) (Star (Chr digit))).
(** The texts NUMERICIDENTIFIER matches: 0, or a digit other than 0
    followed by digits. *)
Definition isNumericIdentifier (s : string) : bool :=
  match s with
  | EmptyString => false
  | String c t =>
      (Ascii.eqb c "0" && match t with EmptyString => true | _ => false end)
      || (nonZeroDigit c && JsString.all digit t)
  end.

Definition NONNUMERICIDENTIFIER : regex :=
  Seq (Star (Chr digit)) (Seq (Chr letterOrHyphen) (Star (Chr identChar))).
Definition PRERELEASEIDENTIFIER : regex :=
  Alt NUMERICIDENTIFIER NONNUMERICIDENTIFIER.
Definition BUILDIDENTIFIER : regex := Plus (Chr identChar).
Definition PRERELEASE : regex :=
  Seq (Lit "-")
      (Grp 4 (Seq PRERELEASEIDENTIFIER (Star (Seq (Lit ".") PRERELEASEIDENTIFIER)))).
Definition BUILD : regex :=
  Seq (Lit "+")
      (Grp 5 (Seq BUILDIDENTIFIER (Star (Seq (Lit ".") BUILDIDENTIFIER)))).
Definition FULL : regex :=
  Seq Bol (Seq (Opt (Lit "v"))
  (Seq (Grp 1 NUMERICIDENTIFIER) (Seq (Lit ".")
  (Seq (Grp 2 NUMERICIDENTIFIER) (Seq (Lit ".")
  (Seq (Grp 3 NUMERICIDENTIFIER)
  (Seq (Opt PRERELEASE) (Seq (Opt BUILD) Eol)))))))).

(** [s.trim()]. *)
Fixpoint trimStart (s : string) : string :=
  match s with
  | String c s' => if space c then trimStart s' else s
  | EmptyString => EmptyString
  end.

Fixpoint trimEnd (s : string) : string :=
  match s with
  | String c s' =>
      match trimEnd s' with
      | EmptyString => if space c then EmptyString else String c EmptyString
      | t => String c t
      end
  | EmptyString => EmptyString
  end.

Definition trim (s : string) : string := trimEnd (trimStart s).

Fixpoint decimal (acc : N) (s : string) : N :=
  match s with
  | EmptyString => acc
  | String c s' => decimal (10 * acc + (N_of_ascii c - 48))%N s'
  end.

Definition MAX_SAFE_INTEGER : N := 9007199254740991%N.

Record version : Type := {
  major : N; minor : N; patch : N;
  prerelease : option string
}.

(** [new SemVer(v)], or [None] where it rejects the text. *)
Definition parse (v : string) : option version :=
  if Nat.ltb 256 (String.length v) then None
  else
    match search FULL 0 (trim v) with
    | Some y =>
        match lookupCap 1 (caps y), lookupCap 2 (caps y), lookupCap 3 (caps y) with
        | Some a, Some b, Some c =>
            let ma := decimal 0 a in
            let mi := decimal 0 b in
            let pa := decimal 0 c in
            if (N.ltb MAX_SAFE_INTEGER ma || N.ltb MAX_SAFE_INTEGER mi
                || N.ltb MAX_SAFE_INTEGER pa)%bool
            then None
            else Some {| major := ma; minor := mi; patch := pa;
                         prerelease := lookupCap 4 (caps y) |}
        | _, _, _ => None
        end
    | None => None
    end.

(** [semver.satisfies(v, '^M.0.0')] for [M > 0]: the range is
    [>=M.0.0 <(M+1).0.0], and a version with a prerelease tag is outside
    a range none of whose comparators has one.  A text that is not a
    version satisfies nothing. *)
Definition satisfiesCaretMajor (v : string) (M : N) : bool :=
  match parse v with
  | Some ver =>
      match prerelease ver with
      | Some _ => false
      | None => N.eqb (major ver) M
      end
  | None => false
  end.

End Semver.

(* ===================================================================== *)
(** ** Values exchanged with the collaborators *)
(* ===================================================================== *)

(** The result of [core.load]. *)
Record LoadResult : Type := {
  injectableSource : string;
  exportTokens : ExportTokens
}.

(** A run of [fetch] ends with tokens or a thrown error; [None] is a run
    cut off because the nesting of fetches went deeper than the bound
    given. *)
Definition Fetched : Type := option (Error + ExportTokens).

(** The class [createLoader] returns, by its two members. *)
Record Loader : Type := {
  fetch : nat -> string -> FilePath -> Fetched;
  finalSource : string
}.

(** The callback [(filename, json) => (asset.meta.cssModules = json)]. *)
Definition getJSON (filename : string) (json : ExportTokens) : M unit :=
  setCssModules json.

(** The object [generate] returns. *)
Module Generated.
Record t : Type := { content : string }.
End Generated.

(** An element of the array [transform] returns. *)
Inductive TransformerResult : Type :=
| TheAsset
| NewAsset (type : string) (filePath : FilePath) (content : string).

(** [config.hydrated]: the plugins, and the options object of
    [config.hydrated.modules] when it is truthy (the value [true] carries
    no key). *)
Record Hydrated (Plugin CallerModules : Type) : Type := {
  plugins : list Plugin;
  modules : option CallerModules
}.

Record Config (Plugin CallerModules : Type) : Type := {
  hydrated : Hydrated Plugin CallerModules
}.

(** The object literal handed to [postcssModules]: three keys, then the
    caller's options spread over them. *)
Record ModulesOptions (CallerModules : Type) : Type := {
  opt_getJSON : string -> ExportTokens -> M unit;
  opt_Loader : Loader;
  opt_generateScopedName : string -> string -> string -> string;
  opt_spread : CallerModules
}.

(** What the engine did with [postcss(plugins).process(program,
    hydrated)].  The engine works on the tree it is given, in place:
    [programAfter] is the state in which the run leaves that tree,
    whether it ends or throws.  [collected] are the calls the run made
    to the [getJSON] above; [outcome] is the messages and the root of
    the result, or the error thrown. *)
Record ProcessRun : Type := {
  programAfter : Postcss.Root;
  collected : list (string * ExportTokens);
  outcome : Error + (list Postcss.Message * Postcss.Root)
}.

(* ===================================================================== *)
(** ** The expressions of the companion script and what they evaluate to

    The companion script is an assignment of one expression built from
    object literals, [require] calls and [Object.assign].  [render] gives
    its text, [eval] its value once every [require] is given the export
    map of the module it names.  Objects are property lists in
    enumeration order. *)
(* ===================================================================== *)

Module JsExpr.

Inductive expr : Type :=
| ObjectLiteral (o : ExportTokens)
| Require (moduleSpecifier : string)
| ObjectAssign (target : expr) (sources : list expr).

Fixpoint render (e : expr) : string :=
  match e with
  | ObjectLiteral o => JSON.stringifyObject2 o
  | Require m => "require(" ++ JSON.stringifyString m ++ ")"
  | ObjectAssign t srcs =>
      "Object.assign(" ++ JsString.join ", " (render t :: map render srcs) ++ ")"
  end.

Definition hasKey (key : string) (o : ExportTokens) : bool :=
  existsb (fun kv => String.eqb (fst kv) key) o.

(** [o[key] = v]: an existing property keeps its place. *)
Definition set (o : ExportTokens) (key v : string) : ExportTokens :=
  if hasKey key o
  then map (fun kv => if String.eqb (fst kv) key then (key, v) else kv) o
  else (o ++ [(key, v)])%list.

(** [o[key]]. *)
Definition get (key : string) (o : ExportTokens) : option string :=
  fold_left (fun acc kv => if String.eqb (fst kv) key then Some (snd kv) else acc)
            o None.

(** [Object.assign(target, ...sources)]: the properties of each source
    in turn are set on the target. *)
Definition assign (target : ExportTokens) (sources : list ExportTokens) : ExportTokens :=
  fold_left (fun acc src => fold_left (fun acc kv => set acc (fst kv) (snd kv)) src acc)
            sources target.

Fixpoint eval (modules : string -> ExportTokens) (e : expr) : ExportTokens :=
  match e with
  | ObjectLiteral o => o
  | Require m => modules m
  | ObjectAssign t srcs => assign (eval modules t) (map (eval modules) srcs)
  end.

(** The value a key has after the sources were merged in order: the
    last source that has the key decides. *)
Fixpoint merged (key : string) (sources : list ExportTokens) : option string :=
  match sources with
  | [] => None
  | src :: rest =>
      match merged key rest with
      | Some v => Some v
      | None => get key src
      end
  end.

End JsExpr.

(* ===================================================================== *)
(** ** Concrete collaborators for the examples *)
(* ===================================================================== *)

Module Examples.

(** A value tokenizer for blanks, the dividers [,] [/] [:], quoted
    strings with backslash escapes, and words. *)
Definition blank (c : ascii) : bool := Nat.leb (JsString.code c) 32.

Definition divider (c : ascii) : bool :=
  (Ascii.eqb c "," || Ascii.eqb c "/" || Ascii.eqb c ":")%bool.

Fixpoint untilQuote (q : ascii) (s : string) : string * string :=
  match s with
  | EmptyString => (EmptyString, EmptyString)
  | String c s' =>
      if Ascii.eqb c q then (EmptyString, s')
      else if Ascii.eqb c "092" then
        match s' with
        | String e s'' =>
            let (b, r) := untilQuote q s'' in (String c (String e b), r)
        | EmptyString => (String c EmptyString, EmptyString)
        end
      else let (b, r) := untilQuote q s' in (String c b, r)
  end.

Fixpoint span (p : ascii -> bool) (s : string) : string * string :=
  match s with
  | EmptyString => (EmptyString, EmptyString)
  | String c s' =>
      if p c then let (b, r) := span p s' in (String c b, r)
      else (EmptyString, s)
  end.

Definition wordChar (c : ascii) : bool :=
  negb (blank c || quote c || divider c).

Fixpoint tokens (fuel : nat) (s : string) : list ValueParser.vnode :=
  match fuel, s with
  | S fuel', String c s' =>
      if blank c then
        let (b, r) := span blank s in
        ValueParser.VNode "space" b [] :: tokens fuel' r
      else if quote c then
        let (b, r) := untilQuote c s' in
        ValueParser.VNode "string" b [] :: tokens fuel' r
      else if divider c then
        ValueParser.VNode "div" (String c EmptyString) [] :: tokens fuel' s'
      else
        let (b, r) := span wordChar s in
        ValueParser.VNode "word" b [] :: tokens fuel' r
  | _, _ => []
  end.

Definition valueParser (s : string) : list ValueParser.vnode :=
  tokens (String.length s) s.

(** A hash stand-in: the text itself. *)
Definition md5FromString (s : string) : string := s.

(** Paths without normalisation. *)
Fixpoint dirnameAux (s : string) : option string :=
  match s with
  | EmptyString => None
  | String c s' =>
      match dirnameAux s' with
      | Some d => Some (String c d)
      | None => if Ascii.eqb c "/" then Some EmptyString else None
      end
  end.

Definition path_dirname (s : string) : string :=
  match dirnameAux s with
  | Some EmptyString => "/"
  | Some d => d
  | None => "."
  end.

Definition path_resolve (a b : string) : string :=
  if JsString.startsWith b "/" then b else a ++ "/" ++ b.

Definition path_root : string := "/".

(** A resolver for specifiers that start with "./", relative to the
    directory of the importing file. *)
Definition resolve (from : FilePath) (to : string) : Error + FilePath :=
  if JsString.startsWith to "./"
  then inr (path_dirname from ++ "/" ++ JsString.drop 2 to)
  else inl (Thrown ("cannot resolve " ++ to)).

(** A file system with two files: b.css composes from c.css. *)
Definition readFile (f : FilePath) : Error + string :=
  if String.eqb f "/proj/src/b.css" then inr ">'./c.css'"
  else if String.eqb f "/proj/src/c.css" then inr EmptyString
  else inl (Thrown ("no such file " ++ f)).

(** A tokenizer for sources of two kinds: a source that starts with [>]
    composes from the specifier that follows, any other source is a
    leaf.  The file exports its own path, then what it composes. *)
Definition core_load (source path : string)
           (fetcher : string -> FilePath -> Fetched) : option (Error + LoadResult) :=
  match source with
  | String ">" spec =>
      match fetcher spec ("/" ++ path) with
      | Some (inr toks) =>
          Some (inr {| injectableSource := EmptyString;
                       exportTokens := (path, "composed") :: toks |})
      | Some (inl e) => Some (inl e)
      | None => None
      end
  | _ => Some (inr {| injectableSource := EmptyString; exportTokens := [(path, "leaf")] |})
  end.

(** Plugins by name; caller options without keys. *)
Definition requirePostcssModules (f : FilePath) (autoinstall : bool)
  : Error + (ModulesOptions unit -> string) :=
  inr (fun _ => "postcss-modules").

(** An engine that hands [json] to the collector when the modules
    plugin is in the list, reports one included file and returns the
    tree as it is. *)
Definition processWith (json : ExportTokens)
           (plugins : list string) (root : Postcss.Root) (hyd : Hydrated string unit)
  : ProcessRun :=
  {| programAfter := root;
     collected :=
       if existsb (String.eqb "postcss-modules") plugins
       then [("/proj/src/a.css", json)] else [];
     outcome :=
       inr ([ {| Postcss.type := "dependency"; Postcss.plugin := "postcss-import";
                 Postcss.file := "/proj/src/vars.css" |};
              {| Postcss.type := "warning"; Postcss.plugin := "postcss-import";
                 Postcss.file := EmptyString |} ], root) |}.

(** A package manager that cannot provide postcss-modules. *)
Definition requireFailing (f : FilePath) (autoinstall : bool)
  : Error + (ModulesOptions unit -> string) :=
  inl (Thrown "Cannot find module postcss-modules").

(** An engine whose plugins rename the selectors of the rules at the
    top of the tree and store a token map, and then throw. *)
Definition processStoringThenFailing
           (plugins : list string) (root : Postcss.Root) (hyd : Hydrated string unit)
  : ProcessRun :=
  {| programAfter :=
       map (fun n => match n with
                     | Postcss.Rule _ ns => Postcss.Rule "._a_1" ns
                     | _ => n
                     end) root;
     collected := [("/proj/src/a.css", [("a", "_a_1")])];
     outcome := inl (Thrown "CssSyntaxError") |}.

(** A parser and a stringifier that keep the text in one comment
    node. *)
Definition postcssParse (code : string) (from : FilePath) : Error + Postcss.Root :=
  inr [Postcss.Comment code].

Definition postcssStringify (root : Postcss.Root) : list string :=
  map (fun n => match n with
                | Postcss.Comment text => text
                | _ => EmptyString
                end) root.

Definition withModules : Config string unit :=
  {| hydrated := {| plugins := ["autoprefixer"]; modules := Some tt |} |}.

Definition withoutModules : Config string unit :=
  {| hydrated := {| plugins := ["autoprefixer"]; modules := None |} |}.

(** [composes: foo from './b.css'] at line 2, column 3. *)
Definition composesFoo : Postcss.Declaration :=
  {| Postcss.prop := "composes";
     Postcss.raws_between := ": ";
     Postcss.value := "foo from './b.css'";
     Postcss.source_start := {| Postcss.line := 2; Postcss.column := 3 |} |}.

Definition treeFoo : Postcss.Root := [Postcss.Rule ".a" [Postcss.Decl composesFoo]].

Definition assetOf (code : string) (dirty : bool) (root : Postcss.Root)
           (cssModules : option ExportTokens) : Asset.t :=
  {| Asset.filePath := "/proj/src/a.css";
     Asset.code := code;
     Asset.ast := Some {| type := "postcss"; version := "7.0.0"; program := root |};
     Asset.astDirty := dirty;
     Asset.cssModules := cssModules;
     Asset.dependencies := [];
     Asset.includedFiles := [] |}.

Definition worldOf (a : Asset.t) : World := {| asset := a; calls := [] |}.

(** The file of [treeFoo], with the declaration on one line and with a
    line break after the colon. *)
Definition declOnOneLine : string :=
  ".a {" ++ JSON.nl ++ "  composes: foo from './b.css';" ++ JSON.nl ++ "}".

Definition declOnTwoLines : string :=
  ".a {" ++ JSON.nl ++ "  composes:" ++ JSON.nl ++ "    foo from './b.css';"
  ++ JSON.nl ++ "}".

(** A file without composes. *)
Definition plainCode : string := ".a { color: red }".

Definition plainTree : Postcss.Root :=
  [Postcss.Rule ".a"
     [Postcss.Decl
        {| Postcss.prop := "color"; Postcss.raws_between := ": ";
           Postcss.value := "red";
           Postcss.source_start := {| Postcss.line := 1; Postcss.column := 6 |} |}]].

(** Path functions that keep, and that drop, a leading root marker. *)
Definition rootedResolve (a b : string) : string := "/proj/" ++ b.
Definition unrootedResolve (a b : string) : string := "proj/" ++ b.

End Examples.

(* ===================================================================== *)
(** ** The transformer *)
(* ===================================================================== *)

Section Transformer.

(** [md5FromString] of @parcel/utils. *)
Variable md5FromString : string -> string.

(** [valueParser] of postcss-value-parser: the top-level nodes. *)
Variable valueParser : string -> list ValueParser.vnode.

(** Node's [path]: [path.resolve(a, b)], [path.dirname] and the value of
    [path.resolve('/')]. *)
Variable path_resolve : string -> string -> string.
Variable path_dirname : string -> string.
Variable path_root : string.

(** [resolve] of the transform call and [asset.fs.readFile(_, 'utf-8')]. *)
Variable resolve : FilePath -> string -> Error + FilePath.
Variable readFile : FilePath -> Error + string.

(** [this.core.load(source, path, trace, fetcher)] of
    css-modules-loader-core. *)
Variable core_load :
  string -> string -> (string -> FilePath -> Fetched) -> option (Error + LoadResult).

(** The type of plugins and of the caller's modules options. *)
Variable Plugin : Type.
Variable CallerModules : Type.

(** [options.packageManager.require('postcss-modules', filePath,
    {autoinstall})]. *)
Variable requirePostcssModules :
  FilePath -> bool -> Error + (ModulesOptions CallerModules -> Plugin).

(** [postcss(plugins).process(program, hydrated)]. *)
Variable postcssProcess :
  list Plugin -> Postcss.Root -> Hydrated Plugin CallerModules -> ProcessRun.

(** *** canReuseAST and parse *)

Definition canReuseAST (ast : AST) : bool :=
  String.eqb (type ast) "postcss" && Semver.satisfiesCaretMajor (version ast) 7.

Section Parse.

(** [postcss.parse(code, {from})]. *)
Variable postcssParse : string -> FilePath -> Error + Postcss.Root.

Definition parse (a : Asset.t) (config : option (Config Plugin CallerModules))
  : Error + option AST :=
  match config with
  | None => inr None
  | Some _ =>
      match postcssParse (Asset.code a) (Asset.filePath a) with
      | inl e => inl e
      | inr root =>
          inr (Some {| type := "postcss"; version := "7.0.0"; program := root |})
      end
  end.

End Parse.

(** *** generate *)

Section Generate.

(** [postcss.stringify(node, builder)]: the strings it hands to
    [builder], in order. *)
Variable postcssStringify : Postcss.Root -> list string.

(** [generate]: [code] starts empty, the builder appends each string
    to it, and the object returned has it as [content]. *)
Definition generate (ast : AST) : Generated.t :=
  let code := EmptyString in
  let code := fold_left (fun code c => code ++ c)
                        (postcssStringify (program ast)) code in
  {| Generated.content := code |}.

End Generate.

(** *** generateScopedName and the loader *)

Definition generateScopedName (name filename css : string) : string :=
  "_" ++ name ++ "_" ++ JsString.take 5 (md5FromString (filename ++ css)).

Fixpoint ParcelFileSystemLoader_fetch (depth : nat)
         (composesPath : string) (relativeTo : FilePath) : Fetched :=
  match depth with
  | O => None
  | S depth' =>
      let importPath := deleteAll QUOTES_RE composesPath in
      match resolve relativeTo importPath with
      | inl e => Some (inl e)
      | inr resolved =>
          let rootRelativePath := path_resolve (path_dirname relativeTo) resolved in
          let root := path_root in
          let rootRelativePath :=
            if JsString.startsWith rootRelativePath root
            then JsString.drop (String.length root) rootRelativePath
            else rootRelativePath in
          match readFile resolved with
          | inl e => Some (inl e)
          | inr source =>
              match core_load source rootRelativePath
                              (ParcelFileSystemLoader_fetch depth') with
              | Some (inr r) => Some (inr (exportTokens r))
              | Some (inl e) => Some (inl e)
              | None => None
              end
          end
      end
  end.

Definition createLoader : Loader :=
  {| fetch := ParcelFileSystemLoader_fetch; finalSource := EmptyString |}.

(** *** transform *)

(** The callback of [parsed.walk]. *)
Definition onValueNode (decl : Postcss.Declaration) (importPath : string)
           (node : ValueParser.vnode) : M unit :=
  if String.eqb (ValueParser.type node) "string" then
    addDependency importPath
      {| filePath := importPath;
         start := Postcss.source_start decl;
         end_ := {| Postcss.line := Postcss.line (Postcss.source_start decl);
                    Postcss.column := Postcss.column (Postcss.source_start decl)
                                      + String.length importPath |} |}
  else ret tt.

(** The callback of [ast.program.walkDecls]. *)
Definition onDecl (decl : Postcss.Declaration) : M unit :=
  match execGroup FROM_IMPORT_RE 1 (Postcss.value decl) with
  | Some importPath =>
      if String.eqb (Postcss.prop decl) "composes" then
        let parsed := valueParser (Postcss.value decl) in
        forEach (ValueParser.visit parsed) (onValueNode decl importPath)
      else ret tt
  | None => ret tt
  end.

(** [code == null || COMPOSES_RE.test(code)]. *)
Definition scanNeeded (code : option string) : bool :=
  match code with
  | None => true
  | Some c => test COMPOSES_RE c
  end.

(** The content of the companion asset. *)
Definition companionCode (cssModules : ExportTokens) (deps : list Dependency) : string :=
  let code := JSON.stringifyObject2 cssModules in
  match deps with
  | _ :: _ =>
      JSON.nl ++ "          module.exports = Object.assign({}, " ++
      JsString.join ", "
        (map (fun dep => "require(" ++ JSON.stringifyString (moduleSpecifier dep) ++ ")")
             deps) ++
      ", " ++ code ++ ");" ++ JSON.nl ++ "        "
  | [] => "module.exports = " ++ code ++ ";"
  end.

Definition transform (config : option (Config Plugin CallerModules)) (autoinstall : bool)
  : M (list TransformerResult) :=
  match config with
  | None => ret [TheAsset]
  | Some cfg =>
      let hyd := hydrated cfg in
      filePath <- gets Asset.filePath ;;
      plugins <-
        match modules hyd with
        | Some callerModules =>
            invoke (CallRequire "postcss-modules") (fun a => a) ;;
            postcssModules <- liftResult (requirePostcssModules filePath autoinstall) ;;
            ret (plugins hyd ++
                 [postcssModules
                    {| opt_getJSON := getJSON;
                       opt_Loader := createLoader;
                       opt_generateScopedName := generateScopedName;
                       opt_spread := callerModules |}])%list
        | None => ret (plugins hyd)
        end ;;
      ast <- (a <- gets Asset.ast ;; nullthrows a) ;;
      dirty <- gets Asset.astDirty ;;
      code <- (if dirty then ret None else c <- gets Asset.code ;; ret (Some c)) ;;
      (if scanNeeded code
       then forEach (Postcss.declsOf (program ast)) onDecl
       else ret tt) ;;
      let run := postcssProcess plugins (program ast) hyd in
      invoke (CallProcess (program ast)) (Asset.with_program (programAfter run)) ;;
      forEach (collected run) (fun fj => getJSON (fst fj) (snd fj)) ;;
      mr <- liftResult (outcome run) ;;
      let messages := fst mr in
      let root := snd mr in
      assignProgram root ;;
      setAST {| type := "postcss"; version := "7.0.0"; program := root |} ;;
      forEach messages
        (fun msg =>
           if String.eqb (Postcss.type msg) "dependency"
           then addIncludedFile (Postcss.file msg)
           else ret tt) ;;
      cssModules <- gets Asset.cssModules ;;
      match cssModules with
      | Some tokens =>
          dependencies <- gets Asset.dependencies ;;
          let deps := filter (fun dep => negb (isURL dep)) dependencies in
          ret [TheAsset;
               NewAsset "js" (filePath ++ ".js") (companionCode tokens deps)]
      | None => ret [TheAsset]
      end
  end.

(** *** The effects of the loops, as functions on worlds

    These are the terms in which the properties below are stated; each
    is proved equal to what the corresponding loop of [transform]
    does. *)

(** The dependency [onValueNode] registers. *)
Definition composesDependency (decl : Postcss.Declaration) (importPath : string)
  : Dependency :=
  {| moduleSpecifier := importPath;
     isURL := false;
     loc := Some
       {| filePath := importPath;
          start := Postcss.source_start decl;
          end_ := {| Postcss.line := Postcss.line (Postcss.source_start decl);
                     Postcss.column := Postcss.column (Postcss.source_start decl)
                                       + String.length importPath |} |} |}.

(** The dependencies one run of [onDecl] registers. *)
Definition depsOfDecl (decl : Postcss.Declaration) : list Dependency :=
  match execGroup FROM_IMPORT_RE 1 (Postcss.value decl) with
  | Some importPath =>
      if String.eqb (Postcss.prop decl) "composes" then
        map (fun _ => composesDependency decl importPath)
            (filter ValueParser.isString
                    (ValueParser.visit (valueParser (Postcss.value decl))))
      else []
  | None => []
  end.

(** The world after [addDependency] was called with each of [ds]. *)
Definition registerAll (ds : list Dependency) (w : World) : World :=
  {| asset := Asset.with_dependencies (asset w)
                (Asset.dependencies (asset w) ++ ds)%list;
     calls := (calls w ++ map CallAddDependency ds)%list |}.

(** The world after [getJSON] was called with each of [cs]. *)
Definition storeAll (cs : list (string * ExportTokens)) (w : World) : World :=
  fold_left
    (fun w fj =>
       {| asset := Asset.with_cssModules (asset w) (Some (snd fj));
          calls := calls w |}) cs w.

(** The token map in the metadata slot after [getJSON] was called with
    each of [cs]. *)
Definition storedTokens (cs : list (string * ExportTokens))
           (before : option ExportTokens) : option ExportTokens :=
  fold_left (fun _ fj => Some (snd fj)) cs before.

(** The files of the messages tagged dependency. *)
Definition filesOf (messages : list Postcss.Message) : list FilePath :=
  map Postcss.file
      (filter (fun msg => String.eqb (Postcss.type msg) "dependency") messages).

(** The world after [addIncludedFile] was called with each of [fs]. *)
Definition includeAll (fs : list FilePath) (w : World) : World :=
  {| asset := Asset.with_includedFiles (asset w)
                (Asset.includedFiles (asset w) ++ fs)%list;
     calls := (calls w ++ map CallAddIncludedFile fs)%list |}.

(** The plugin list of lines 55-72, or the error of the failed
    [require]. *)
Definition pluginList (hyd : Hydrated Plugin CallerModules) (filePath : FilePath) (autoinstall : bool)
  : Error + list Plugin :=
  match modules hyd with
  | Some callerModules =>
      match requirePostcssModules filePath autoinstall with
      | inl e => inl e
      | inr postcssModules =>
          inr (plugins hyd ++
               [postcssModules
                  {| opt_getJSON := getJSON;
                     opt_Loader := createLoader;
                     opt_generateScopedName := generateScopedName;
                     opt_spread := callerModules |}])%list
      end
  | None => inr (plugins hyd)
  end.

(** The world in which the plugin list is ready: [require] was called
    when modules are enabled. *)
Definition required (hyd : Hydrated Plugin CallerModules) (w : World) : World :=
  match modules hyd with
  | Some _ =>
      {| asset := asset w; calls := (calls w ++ [CallRequire "postcss-modules"])%list |}
  | None => w
  end.

(** [code] of line 75. *)
Definition codeInSync (a : Asset.t) : option string :=
  if Asset.astDirty a then None else Some (Asset.code a).

(** The dependencies the extractor registers for a tree. *)
Definition extracted (a : Asset.t) (t : AST) : list Dependency :=
  if scanNeeded (codeInSync a)
  then flat_map depsOfDecl (Postcss.declsOf (program t))
  else [].

(** The world in which the plugins have run on the tree [t], in
    place. *)
Definition processed (run : ProcessRun) (t : AST) (w : World) : World :=
  storeAll (collected run)
    {| asset := Asset.with_program (programAfter run) (asset w);
       calls := (calls w ++ [CallProcess (program t)])%list |}.

(** The world in which the new root is committed and the messages are
    handled. *)
Definition committed (messages : list Postcss.Message) (root : Postcss.Root)
           (w : World) : World :=
  let t := {| type := "postcss"; version := "7.0.0"; program := root |} in
  includeAll (filesOf messages)
    {| asset := Asset.with_ast (asset w) (Some t) true;
       calls := (calls w ++ [CallSetAST t])%list |}.

(** The array [transform] returns in a world. *)
Definition results (w : World) : list TransformerResult :=
  match Asset.cssModules (asset w) with
  | Some tokens =>
      [TheAsset;
       NewAsset "js" (Asset.filePath (asset w) ++ ".js")
         (companionCode tokens
            (filter (fun dep => negb (isURL dep)) (Asset.dependencies (asset w))))]
  | None => [TheAsset]
  end.

(** The dependencies a call of [transform] registers. *)
Definition registered (config : option (Config Plugin CallerModules))
           (autoinstall : bool) (a : Asset.t) : list Dependency :=
  match config with
  | None => []
  | Some cfg =>
      match pluginList (hydrated cfg) (Asset.filePath a) autoinstall, Asset.ast a with
      | inr _, Some t => extracted a t
      | _, _ => []
      end
  end.

(* ------------------------------------------------------------------- *)
(** *** The loops of transform *)
(* ------------------------------------------------------------------- *)

Lemma registerAll_nil (w : World) : registerAll [] w = w.
Proof.
  destruct w as [a c]; destruct a.
  unfold registerAll, Asset.with_dependencies; simpl.
  now rewrite !app_nil_r.
Qed.

Lemma registerAll_app (ds1 ds2 : list Dependency) (w : World) :
  registerAll (ds1 ++ ds2) w = registerAll ds2 (registerAll ds1 w).
Proof.
  unfold registerAll, Asset.with_dependencies; simpl.
  now rewrite map_app, !app_assoc.
Qed.

Lemma includeAll_nil (w : World) : includeAll [] w = w.
Proof.
  destruct w as [a c]; destruct a.
  unfold includeAll, Asset.with_includedFiles; simpl.
  now rewrite !app_nil_r.
Qed.

Lemma includeAll_app (fs1 fs2 : list FilePath) (w : World) :
  includeAll (fs1 ++ fs2) w = includeAll fs2 (includeAll fs1 w).
Proof.
  unfold includeAll, Asset.with_includedFiles; simpl.
  now rewrite map_app, !app_assoc.
Qed.

Lemma forEach_onValueNode decl importPath (ns : list ValueParser.vnode) (w : World) :
  forEach ns (onValueNode decl importPath) w =
  (registerAll (map (fun _ => composesDependency decl importPath)
                    (filter ValueParser.isString ns)) w, inr tt).
Proof.
  revert w; induction ns as [|n ns IH]; intro w; simpl.
  - now rewrite registerAll_nil.
  - unfold bind, onValueNode, ValueParser.isString.
    destruct (String.eqb (ValueParser.type n) "string"); simpl.
    + rewrite IH. f_equal.
      change (composesDependency decl importPath :: ?l)
        with ([composesDependency decl importPath] ++ l)%list.
      now rewrite registerAll_app.
    + apply IH.
Qed.

Lemma onDecl_run (d : Postcss.Declaration) (w : World) :
  onDecl d w = (registerAll (depsOfDecl d) w, inr tt).
Proof.
  unfold onDecl, depsOfDecl.
  destruct (execGroup FROM_IMPORT_RE 1 (Postcss.value d)) as [p|].
  - destruct (String.eqb (Postcss.prop d) "composes").
    + apply forEach_onValueNode.
    + unfold ret; now rewrite registerAll_nil.
  - unfold ret; now rewrite registerAll_nil.
Qed.

Lemma forEach_onDecl (ds : list Postcss.Declaration) (w : World) :
  forEach ds onDecl w = (registerAll (flat_map depsOfDecl ds) w, inr tt).
Proof.
  revert w; induction ds as [|d ds IH]; intro w; simpl.
  - now rewrite registerAll_nil.
  - unfold bind. now rewrite onDecl_run, IH, registerAll_app.
Qed.

Lemma forEach_getJSON (cs : list (string * ExportTokens)) (w : World) :
  forEach cs (fun fj => getJSON (fst fj) (snd fj)) w = (storeAll cs w, inr tt).
Proof.
  revert w; induction cs as [|c cs IH]; intro w; simpl.
  - reflexivity.
  - unfold bind, getJSON, setCssModules, modify. now rewrite IH.
Qed.

Lemma forEach_messages (ms : list Postcss.Message) (w : World) :
  forEach ms
    (fun msg =>
       if String.eqb (Postcss.type msg) "dependency"
       then addIncludedFile (Postcss.file msg)
       else ret tt) w
  = (includeAll (filesOf ms) w, inr tt).
Proof.
  revert w; induction ms as [|m ms IH]; intro w; unfold filesOf; simpl.
  - now rewrite includeAll_nil.
  - unfold bind. destruct (String.eqb (Postcss.type m) "dependency"); simpl.
    + rewrite IH. f_equal. unfold filesOf.
      change (Postcss.file m :: ?l) with ([Postcss.file m] ++ l)%list.
      now rewrite includeAll_app.
    + apply IH.
Qed.

(** Running a bind whose first computation is known. *)
Lemma bind_assoc {A B C} (m : M A) (f : A -> M B) (k : B -> M C) (w : World) :
  bind (bind m f) k w = bind m (fun a => bind (f a) k) w.
Proof. unfold bind. destruct (m w) as [w' [e|a]]; reflexivity. Qed.

Lemma bind_value {A B} (m : M A) (k : A -> M B) (w w' : World) (a : A) :
  m w = (w', inr a) -> bind m k w = k a w'.
Proof. unfold bind. now intros ->. Qed.

Lemma bind_gets {A B} (f : Asset.t -> A) (k : A -> M B) (w : World) :
  bind (gets f) k w = k (f (asset w)) w.
Proof. reflexivity. Qed.

Lemma bind_ret {A B} (a : A) (k : A -> M B) (w : World) :
  bind (ret a) k w = k a w.
Proof. reflexivity. Qed.

Lemma bind_invoke {B} (c : Call) (f : Asset.t -> Asset.t) (k : unit -> M B) (w : World) :
  bind (invoke c f) k w =
  k tt {| asset := f (asset w); calls := (calls w ++ [c])%list |}.
Proof. reflexivity. Qed.

Lemma bind_modify {B} (f : Asset.t -> Asset.t) (k : unit -> M B) (w : World) :
  bind (modify f) k w = k tt {| asset := f (asset w); calls := calls w |}.
Proof. reflexivity. Qed.

Lemma storeAll_asset (cs : list (string * ExportTokens)) (w : World) :
  calls (storeAll cs w) = calls w /\
  Asset.filePath (asset (storeAll cs w)) = Asset.filePath (asset w) /\
  Asset.ast (asset (storeAll cs w)) = Asset.ast (asset w) /\
  Asset.dependencies (asset (storeAll cs w)) = Asset.dependencies (asset w) /\
  Asset.includedFiles (asset (storeAll cs w)) = Asset.includedFiles (asset w).
Proof.
  revert w; induction cs as [|c cs IH]; intro w; simpl; [tauto|].
  destruct (IH {| asset := Asset.with_cssModules (asset w) (Some (snd c));
                  calls := calls w |}) as (H1 & H2 & H3 & H4 & H5).
  unfold storeAll in *. now rewrite H1, H2, H3, H4, H5.
Qed.

(** The part of [transform] that follows the plugin list. *)
Lemma transform_tail (hyd : Hydrated Plugin CallerModules) (pl : list Plugin)
      (fp : FilePath) (w1 : World) :
  (ast <- (a <- gets Asset.ast ;; nullthrows a) ;;
   dirty <- gets Asset.astDirty ;;
   code <- (if dirty then ret None else c <- gets Asset.code ;; ret (Some c)) ;;
   (if scanNeeded code
    then forEach (Postcss.declsOf (program ast)) onDecl
    else ret tt) ;;
   let run := postcssProcess pl (program ast) hyd in
   invoke (CallProcess (program ast)) (Asset.with_program (programAfter run)) ;;
   forEach (collected run) (fun fj => getJSON (fst fj) (snd fj)) ;;
   mr <- liftResult (outcome run) ;;
   let messages := fst mr in
   let root := snd mr in
   assignProgram root ;;
   setAST {| type := "postcss"; version := "7.0.0"; program := root |} ;;
   forEach messages
     (fun msg =>
        if String.eqb (Postcss.type msg) "dependency"
        then addIncludedFile (Postcss.file msg)
        else ret tt) ;;
   cssModules <- gets Asset.cssModules ;;
   match cssModules with
   | Some tokens =>
       dependencies <- gets Asset.dependencies ;;
       let deps := filter (fun dep => negb (isURL dep)) dependencies in
       ret [TheAsset; NewAsset "js" (fp ++ ".js") (companionCode tokens deps)]
   | None => ret [TheAsset]
   end) w1
  =
  match Asset.ast (asset w1) with
  | None => (w1, inl NullthrowsError)
  | Some t =>
      let w2 := registerAll (extracted (asset w1) t) w1 in
      let run := postcssProcess pl (program t) hyd in
      let w3 := processed run t w2 in
      match outcome run with
      | inl e => (w3, inl e)
      | inr (messages, root) =>
          let w4 := committed messages root w3 in
          (w4, inr (match Asset.cssModules (asset w4) with
                    | Some tokens =>
                        [TheAsset;
                         NewAsset "js" (fp ++ ".js")
                           (companionCode tokens
                              (filter (fun dep => negb (isURL dep))
                                      (Asset.dependencies (asset w4))))]
                    | None => [TheAsset]
                    end))
      end
  end.
Proof.
  rewrite bind_assoc, bind_gets.
  destruct (Asset.ast (asset w1)) as [t|] eqn:Hast; [|reflexivity].
  simpl nullthrows. rewrite bind_ret, bind_gets.
  cbv zeta.
  assert (Hscan : forall code,
    (if scanNeeded code then forEach (Postcss.declsOf (program t)) onDecl
     else ret tt) w1
    = (registerAll (if scanNeeded code
                    then flat_map depsOfDecl (Postcss.declsOf (program t))
                    else []) w1, inr tt)).
  { intro code. destruct (scanNeeded code).
    - apply forEach_onDecl.
    - unfold ret. now rewrite registerAll_nil. }
  unfold extracted, codeInSync.
  destruct (Asset.astDirty (asset w1));
    [ rewrite bind_ret | rewrite bind_assoc, bind_gets, bind_ret ];
    erewrite bind_value by apply Hscan.
  all: set (w2 := registerAll _ w1).
  all: rewrite bind_invoke.
  all: erewrite bind_value by apply forEach_getJSON.
  all: unfold processed.
  all: set (w3 := storeAll _ _).
  all: destruct (outcome (postcssProcess pl (program t) hyd)) as [e|[messages root]];
    [reflexivity|].
  all: unfold liftResult; rewrite bind_ret; cbv beta iota; simpl fst; simpl snd.
  all: unfold assignProgram, setAST; rewrite bind_modify, bind_invoke.
  all: erewrite bind_value by apply forEach_messages.
  all: rewrite bind_gets; cbv zeta.
  all: match goal with
       | |- context [includeAll ?f ?x] =>
           change (includeAll f x) with (committed messages root w3)
       end.
  all: destruct (Asset.cssModules (asset (committed messages root w3))); reflexivity.
Qed.

(** What [transform] does, phase by phase. *)
Lemma transform_run cfg autoinstall (w : World) :
  transform (Some cfg) autoinstall w =
  let hyd := hydrated cfg in
  let w1 := required hyd w in
  match pluginList hyd (Asset.filePath (asset w)) autoinstall with
  | inl e => (w1, inl e)
  | inr pl =>
      match Asset.ast (asset w) with
      | None => (w1, inl NullthrowsError)
      | Some t =>
          let w2 := registerAll (extracted (asset w) t) w1 in
          let run := postcssProcess pl (program t) hyd in
          let w3 := processed run t w2 in
          match outcome run with
          | inl e => (w3, inl e)
          | inr (messages, root) =>
              let w4 := committed messages root w3 in
              (w4, inr (results w4))
          end
      end
  end.
Proof.
  assert (Hfp : forall w1 t run ds messages root,
    Asset.filePath
      (asset (committed messages root (processed run t (registerAll ds w1))))
    = Asset.filePath (asset w1)).
  { intros w1 t run ds messages root. unfold committed, processed. simpl.
    now rewrite (proj1 (proj2 (storeAll_asset _ _))). }
  unfold transform. cbv zeta. rewrite bind_gets.
  unfold pluginList, required.
  destruct (modules (hydrated cfg)) as [cm|].
  - rewrite !bind_assoc, bind_invoke, bind_assoc.
    destruct (requirePostcssModules (Asset.filePath (asset w)) autoinstall)
      as [e|pm]; [reflexivity|].
    simpl liftResult. rewrite !bind_ret.
    rewrite transform_tail.
    change (asset {| asset := asset w;
                     calls := (calls w ++ [CallRequire "postcss-modules"])%list |})
      with (asset w).
    destruct (Asset.ast (asset w)) as [t|]; [|reflexivity].
    cbv zeta.
    destruct (outcome _) as [e|[messages root]]; [reflexivity|].
    unfold results. now rewrite Hfp.
  - rewrite bind_ret. rewrite transform_tail.
    destruct (Asset.ast (asset w)) as [t|]; [|reflexivity].
    cbv zeta.
    destruct (outcome _) as [e|[messages root]]; [reflexivity|].
    unfold results. now rewrite Hfp.
Qed.

(* ------------------------------------------------------------------- *)
(** *** Strings *)
(* ------------------------------------------------------------------- *)

Lemma append_assoc (a b c : string) : (a ++ b) ++ c = a ++ (b ++ c).
Proof. induction a as [|x a IH]; simpl; [reflexivity | now rewrite IH]. Qed.

Lemma length_append (a b : string) :
  String.length (a ++ b) = String.length a + String.length b.
Proof. induction a as [|x a IH]; simpl; [reflexivity | now rewrite IH]. Qed.

Lemma take_append (a b : string) : JsString.take (String.length a) (a ++ b) = a.
Proof. induction a as [|x a IH]; simpl; [now destruct b | now rewrite IH]. Qed.

Lemma drop_append (a b : string) : JsString.drop (String.length a) (a ++ b) = b.
Proof. induction a as [|x a IH]; simpl; [reflexivity | exact IH]. Qed.

Lemma startsWith_append (a b : string) : JsString.startsWith (a ++ b) a = true.
Proof.
  induction a as [|x a IH]; simpl; [now destruct b|].
  now rewrite Ascii.eqb_refl, IH.
Qed.

Lemma includes_append (u p t : string) : JsString.includes (u ++ p ++ t) p = true.
Proof.
  induction u as [|x u IH].
  - simpl append. pose proof (startsWith_append p t) as H.
    destruct (p ++ t) as [|c s'].
    + change (JsString.includes EmptyString p)
        with (JsString.startsWith EmptyString p || false).
      now rewrite H.
    + change (JsString.includes (String c s') p)
        with (JsString.startsWith (String c s') p || JsString.includes s' p).
      now rewrite H.
  - simpl. rewrite IH. apply orb_true_r.
Qed.

Lemma count_append (p : ascii -> bool) (a b : string) :
  JsString.count p (a ++ b) = JsString.count p a + JsString.count p b.
Proof. induction a as [|x a IH]; simpl; [reflexivity | rewrite IH; lia]. Qed.

Lemma count_all_false (p q : ascii -> bool) (s : string) :
  JsString.all (fun c => q c && negb (p c)) s = true -> JsString.count p s = 0.
Proof.
  induction s as [|x s IH]; simpl; [reflexivity|].
  intro H. apply andb_true_iff in H as [H1 H2].
  apply andb_true_iff in H1 as [_ H1]. apply negb_true_iff in H1.
  rewrite H1. now apply IH.
Qed.

(* ------------------------------------------------------------------- *)
(** *** The matcher *)
(* ------------------------------------------------------------------- *)

Lemma orElse_some {A} (a b : option A) (z : A) :
  orElse a b = Some z -> a = Some z \/ (a = None /\ b = Some z).
Proof. destruct a; simpl; intros; [left | right]; auto. Qed.

(** A successful match hands the continuation a state further along
    the same input. *)
Lemma rmatch_suffix (r : regex) :
  forall x k z, rmatch r x k = Some z ->
  exists y u, k y = Some z /\ rest x = u ++ rest y.
Proof.
  induction r as [|p|r1 IH1 r2 IH2|r1 IH1 r2 IH2|r1 IH1|i r1 IH1| |];
    intros x k z H.
  - exists x, EmptyString; auto.
  - simpl in H. destruct (rest x) as [|c s'] eqn:E; [discriminate|].
    destruct (p c); [|discriminate].
    exists (step x s'), (String c EmptyString); auto.
  - simpl in H. apply IH1 in H as (y1 & u1 & H & E1).
    apply IH2 in H as (y2 & u2 & H & E2).
    exists y2, (u1 ++ u2). rewrite append_assoc, <- E2. auto.
  - simpl in H.
    apply orElse_some in H as [H | [_ H]]; [apply IH1 in H | apply IH2 in H]; exact H.
  - change (starLoop (rmatch r1) k (S (String.length (rest x))) x = Some z) in H.
    revert H. generalize (S (String.length (rest x))) as fuel.
    intro fuel; revert x; induction fuel as [|fuel IHf]; intros x H; [discriminate|].
    simpl in H. apply orElse_some in H as [H | [_ H]].
    + apply IH1 in H as (y1 & u1 & H & E1).
      destruct (Nat.eqb (idx y1) (idx x)); [discriminate|].
      apply IHf in H as (y2 & u2 & H & E2).
      exists y2, (u1 ++ u2). rewrite append_assoc, <- E2. auto.
    + exists x, EmptyString; auto.
  - simpl in H. apply IH1 in H as (y1 & u1 & H & E1).
    exists (capture i x y1), u1. auto.
  - simpl in H. destruct (Nat.eqb (idx x) 0); [|discriminate].
    exists x, EmptyString; auto.
  - simpl in H. destruct (rest x) eqn:E; [|discriminate].
    exists x, EmptyString; rewrite E; auto.
Qed.

(** A literal matches exactly its text. *)
Lemma rmatch_Lit (s : string) :
  forall x k z, rmatch (Lit s) x k = Some z ->
  exists t, rest x = s ++ t /\
            k {| idx := idx x + String.length s; rest := t; caps := caps x |} = Some z.
Proof.
  induction s as [|c s IH]; intros x k z H; simpl in H.
  - exists (rest x). split; [reflexivity|].
    rewrite Nat.add_0_r. now destruct x.
  - destruct (rest x) as [|c' s'] eqn:E; [discriminate|].
    destruct (Ascii.eqb c c') eqn:Ec; [|discriminate].
    apply Ascii.eqb_eq in Ec as <-.
    apply IH in H as (t & Et & H). simpl in Et, H.
    exists t. split; [now rewrite Et|].
    simpl. now rewrite <- Nat.add_succ_comm.
Qed.

(** The alternation of the two quote characters matches one quote. *)
Lemma rmatch_quote (x : mstate) (k : cont) (z : mstate) :
  rmatch (Alt (Chr (Ascii.eqb dq)) (Chr (Ascii.eqb "'"))) x k = Some z ->
  exists c t, rest x = String c t /\ quote c = true /\ k (step x t) = Some z.
Proof.
  cbv beta iota delta [rmatch orElse].
  destruct (rest x) as [|c t]; [discriminate|].
  assert (Hq : Ascii.eqb dq c || Ascii.eqb "'" c = quote c).
  { unfold quote. now rewrite (Ascii.eqb_sym c dq), (Ascii.eqb_sym c "'"). }
  destruct (Ascii.eqb dq c), (Ascii.eqb "'" c); simpl in Hq; intro H;
    try discriminate; exists c, t; repeat split; auto;
    destruct (k (step x t)); congruence.
Qed.

(** One round of the greedy iteration of a character class. *)
Lemma starLoop_chr_cons (p : ascii -> bool) (k : cont) (fuel i : nat)
      (c : ascii) (s : string) (cs : list (nat * string)) :
  starLoop (rmatch (Chr p)) k (S fuel) {| idx := i; rest := String c s; caps := cs |} =
  if p c
  then orElse (starLoop (rmatch (Chr p)) k fuel {| idx := S i; rest := s; caps := cs |})
              (k {| idx := i; rest := String c s; caps := cs |})
  else k {| idx := i; rest := String c s; caps := cs |}.
Proof.
  change (starLoop (rmatch (Chr p)) k (S fuel)
            {| idx := i; rest := String c s; caps := cs |})
    with (orElse
            (if p c
             then (if Nat.eqb (S i) i then None
                   else starLoop (rmatch (Chr p)) k fuel
                          {| idx := S i; rest := s; caps := cs |})
             else None)
            (k {| idx := i; rest := String c s; caps := cs |})).
  replace (Nat.eqb (S i) i) with false by (symmetry; apply Nat.eqb_neq; lia).
  now destruct (p c).
Qed.

Lemma starLoop_chr_nil (p : ascii -> bool) (k : cont) (fuel i : nat)
      (cs : list (nat * string)) :
  starLoop (rmatch (Chr p)) k (S fuel) {| idx := i; rest := EmptyString; caps := cs |} =
  k {| idx := i; rest := EmptyString; caps := cs |}.
Proof. reflexivity. Qed.

(** Greedy iteration of a character class: when the continuation fails
    wherever the run could stop, the star fails. *)
Lemma star_chr_none (p : ascii -> bool) (k : cont) (cs : list (nat * string)) :
  forall fuel s i,
  (forall v w, s = v ++ w -> JsString.all p v = true ->
               k {| idx := i + String.length v; rest := w; caps := cs |} = None) ->
  starLoop (rmatch (Chr p)) k fuel {| idx := i; rest := s; caps := cs |} = None.
Proof.
  induction fuel as [|fuel IH]; intros s i H; [reflexivity|].
  pose proof (H EmptyString s eq_refl eq_refl) as H0.
  simpl in H0. rewrite Nat.add_0_r in H0.
  destruct s as [|c s]; [now rewrite starLoop_chr_nil|].
  rewrite starLoop_chr_cons, H0.
  destruct (p c) eqn:Hc; [|reflexivity].
  rewrite IH; [reflexivity|].
  intros v w E Hv. specialize (H (String c v) w). simpl in H.
  rewrite <- Nat.add_succ_comm in H. apply H; [now rewrite E | now rewrite Hc].
Qed.

(** Greedy iteration of a character class: the star stops at the
    longest run after which the continuation succeeds. *)
Lemma star_chr_longest (p : ascii -> bool) (k : cont) (cs : list (nat * string))
      (s : string) (z : mstate) :
  forall u fuel i,
  JsString.all p u = true ->
  String.length (u ++ s) < fuel ->
  k {| idx := i + String.length u; rest := s; caps := cs |} = Some z ->
  (forall v w, v <> EmptyString -> s = v ++ w -> JsString.all p v = true ->
     k {| idx := i + String.length u + String.length v; rest := w; caps := cs |} = None) ->
  starLoop (rmatch (Chr p)) k fuel {| idx := i; rest := u ++ s; caps := cs |} = Some z.
Proof.
  induction u as [|c u IH]; intros fuel i Hu Hf Hk Hnone.
  - destruct fuel as [|fuel]; [simpl in Hf; lia|].
    simpl in Hk, Hnone. rewrite Nat.add_0_r in *.
    simpl append.
    destruct s as [|c s]; [now rewrite starLoop_chr_nil|].
    rewrite starLoop_chr_cons, Hk.
    destruct (p c) eqn:Hc; [|reflexivity].
    rewrite star_chr_none; [reflexivity|].
    intros v w E Hv. specialize (Hnone (String c v) w). simpl in Hnone.
    rewrite <- Nat.add_succ_comm in Hnone.
    apply Hnone; [discriminate | now rewrite E | now rewrite Hc].
  - destruct fuel as [|fuel]; [simpl in Hf; lia|].
    simpl in Hu. apply andb_true_iff in Hu as [Hc Hu].
    simpl append. rewrite starLoop_chr_cons, Hc.
    rewrite (IH fuel (S i) Hu); [reflexivity | simpl in Hf; lia | |].
    + simpl in Hk. now rewrite <- Nat.add_succ_comm in Hk.
    + intros v w Hv E Hpv. specialize (Hnone v w Hv E Hpv).
      simpl in Hnone. now rewrite <- Nat.add_succ_comm in Hnone.
Qed.

Lemma rmatch_quote_here (c : ascii) (t : string) (i : nat)
      (cs : list (nat * string)) (k : cont) :
  quote c = true ->
  rmatch QUOTE_ALT {| idx := i; rest := String c t; caps := cs |} k =
  k {| idx := S i; rest := t; caps := cs |}.
Proof.
  unfold quote, QUOTE_ALT. cbv beta iota delta [rmatch orElse rest step idx caps].
  rewrite (Ascii.eqb_sym c dq), (Ascii.eqb_sym c "'").
  destruct (Ascii.eqb dq c) eqn:E1, (Ascii.eqb "'" c) eqn:E2; simpl;
    intro H; try discriminate.
  - apply Ascii.eqb_eq in E1, E2. subst c. discriminate.
  - now destruct (k _).
  - reflexivity.
Qed.

Lemma space_not_f (c : ascii) : space c = true -> Ascii.eqb "f" c = false.
Proof.
  destruct c as [[] [] [] [] [] [] [] []]; vm_compute; congruence.
Qed.

Lemma quote_not_f (c : ascii) : quote c = true -> Ascii.eqb "f" c = false.
Proof.
  destruct c as [[] [] [] [] [] [] [] []]; vm_compute; congruence.
Qed.

Lemma quote_not_space (c : ascii) : quote c = true -> space c = false.
Proof.
  destruct c as [[] [] [] [] [] [] [] []]; vm_compute; congruence.
Qed.

(* ------------------------------------------------------------------- *)
(** *** FROM_IMPORT_RE *)
(* ------------------------------------------------------------------- *)

(** Where the clause matches, the input starts with from and has two
    quote characters after it. *)
Lemma from_clause_needs (y z : mstate) :
  rmatch FROM_CLAUSE y Some = Some z ->
  exists t, rest y = "from" ++ t /\ 2 <= JsString.count quote t.
Proof.
  unfold FROM_CLAUSE. intro H.
  change (rmatch (Lit "from") y
            (fun y1 => rmatch (Star (Chr space)) y1
            (fun y2 => rmatch QUOTE_ALT y2
            (fun y3 => rmatch (Grp 1 (Star (Chr dot))) y3
            (fun y4 => rmatch QUOTE_ALT y4
            (fun y5 => rmatch (Seq (Star (Chr space)) (Opt (Chr (Ascii.eqb ";")))) y5 Some)))))
          = Some z) in H.
  apply rmatch_Lit in H as (t & Et & H).
  apply rmatch_suffix in H as (y2 & u2 & H & E2). simpl in E2.
  apply rmatch_quote in H as (c3 & t3 & E3 & Hq3 & H).
  apply rmatch_suffix in H as (y4 & u4 & H & E4). simpl in E4.
  apply rmatch_quote in H as (c5 & t5 & E5 & Hq5 & _).
  exists t. split; [exact Et|].
  rewrite E2, E3, E4, E5.
  rewrite count_append. simpl. rewrite Hq3. rewrite count_append. simpl.
  rewrite Hq5. lia.
Qed.

(** The clause on an input of its own shape: the capture is the text
    between the quotes. *)
Lemma from_clause_match (ws p : string) (q1 q2 : ascii) (i : nat) :
  JsString.all space ws = true ->
  quote q1 = true -> quote q2 = true ->
  JsString.all (fun c => dot c && negb (quote c)) p = true ->
  exists z,
    rmatch FROM_CLAUSE
      {| idx := i; rest := "from" ++ ws ++ String q1 (p ++ String q2 EmptyString);
         caps := [] |} Some = Some z
    /\ lookupCap 1 (caps z) = Some p.
Proof.
  intros Hws Hq1 Hq2 Hp.
  set (x3 := {| idx := S (4 + i + String.length ws);
                rest := p ++ String q2 EmptyString; caps := [] |}).
  set (z := {| idx := S (idx x3 + String.length p); rest := EmptyString;
               caps := [(1, p)] |}).
  exists z. split; [|reflexivity].
  assert (Hp' : JsString.all dot p = true).
  { clear -Hp. induction p as [|c p IH]; simpl in *; [reflexivity|].
    apply andb_true_iff in Hp as [Hc Hp]. apply andb_true_iff in Hc as [Hc _].
    now rewrite Hc, IH. }
  (* the literal *)
  unfold FROM_CLAUSE.
  change (rmatch (Star (Chr space))
            {| idx := 4 + i; rest := ws ++ String q1 (p ++ String q2 EmptyString);
               caps := [] |}
            (fun y2 => rmatch QUOTE_ALT y2
            (fun y3 => rmatch (Grp 1 (Star (Chr dot))) y3
            (fun y4 => rmatch QUOTE_ALT y4
            (fun y5 => rmatch (Seq (Star (Chr space)) (Opt (Chr (Ascii.eqb ";")))) y5 Some))))
          = Some z).
  (* the blanks: the run stops at the opening quote *)
  change (rmatch (Star (Chr space)) ?x ?k)
    with (starLoop (rmatch (Chr space)) k (S (String.length (rest x))) x).
  cbv beta. simpl rest.
  apply star_chr_longest; [exact Hws | lia | |].
  2:{ intros v w Hv E Hall. exfalso.
      destruct v as [|c v]; [congruence|].
      simpl in E. injection E as <- _. simpl in Hall.
      apply andb_true_iff in Hall as [Hs _].
      apply quote_not_space in Hq1. congruence. }
  rewrite rmatch_quote_here by exact Hq1.
  (* the capture: the run goes to the end, then gives back the quote *)
  change (rmatch (Grp 1 (Star (Chr dot))) ?x ?k)
    with (starLoop (rmatch (Chr dot)) (fun y => k (capture 1 x y))
                   (S (String.length (rest x))) x).
  cbv beta. simpl rest.
  apply star_chr_longest; [exact Hp' | lia | |].
  - unfold capture. cbv beta. simpl idx. simpl rest. simpl caps.
    rewrite rmatch_quote_here by exact Hq2.
    match goal with
    | |- context [JsString.take ?n _] => replace n with (String.length p) by lia
    end.
    rewrite take_append. subst z x3. simpl idx.
    reflexivity.
  - intros v w Hv E Hall.
    destruct v as [|c v]; [congruence|].
    simpl in E. injection E as <- E.
    destruct v; [|discriminate]. simpl in E. subst w.
    reflexivity.
Qed.

(** No later place of such an input starts a match of the clause. *)
Lemma from_clause_only_once (ws p : string) (q1 q2 : ascii) (v t : string) :
  JsString.all space ws = true ->
  quote q1 = true ->
  JsString.all (fun c => dot c && negb (quote c)) p = true ->
  v <> EmptyString ->
  "from" ++ ws ++ String q1 (p ++ String q2 EmptyString) = v ++ "from" ++ t ->
  JsString.count quote t < 2.
Proof.
  intros Hws Hq1 Hp Hv E.
  assert (Hsuffix : forall a b w : string,
            a = b ++ w -> JsString.count quote w <= JsString.count quote a).
  { intros a b w ->. rewrite count_append. lia. }
  assert (Hone : JsString.count quote (p ++ String q2 EmptyString) <= 1).
  { rewrite count_append, (count_all_false _ _ _ Hp). simpl.
    destruct (quote q2); lia. }
  assert (Hblanks : forall v' : string,
            ws ++ String q1 (p ++ String q2 EmptyString) = v' ++ "from" ++ t ->
            JsString.count quote t < 2).
  { clear E Hv v. induction ws as [|c ws IH]; intros v' E.
    - destruct v' as [|c' v'].
      + simpl in E. injection E as E _. apply quote_not_f in Hq1.
        rewrite E in Hq1. vm_compute in Hq1. discriminate.
      + simpl in E. injection E as _ E.
        apply Hsuffix in E. simpl in E. lia.
    - simpl in Hws. apply andb_true_iff in Hws as [Hc Hws].
      destruct v' as [|c' v'].
      + simpl in E. injection E as E _. apply space_not_f in Hc.
        rewrite E in Hc. vm_compute in Hc. discriminate.
      + simpl in E. injection E as _ E. now apply (IH Hws v'). }
  destruct v as [|c1 v]; [congruence|].
  simpl in E. injection E as _ E.
  destruct v as [|c2 v]; [discriminate|].
  simpl in E. injection E as _ E.
  destruct v as [|c3 v]; [discriminate|].
  simpl in E. injection E as _ E.
  destruct v as [|c4 v]; [discriminate|].
  simpl in E. injection E as _ E.
  now apply (Hblanks v).
Qed.

Lemma search_here (r : regex) (i : nat) (s : string) (z : mstate) :
  rmatch r {| idx := i; rest := s; caps := [] |} Some = Some z ->
  search r i s = Some z.
Proof. intro H. destruct s; simpl; now rewrite H. Qed.

Lemma search_found (r : regex) (s : string) :
  forall i z, search r i s = Some z ->
  exists a b, s = a ++ b /\
    rmatch r {| idx := i + String.length a; rest := b; caps := [] |} Some = Some z.
Proof.
  induction s as [|c s IH]; intros i z H; simpl in H.
  - apply orElse_some in H as [H | [_ H]]; [|discriminate].
    exists EmptyString, EmptyString. simpl. now rewrite Nat.add_0_r.
  - apply orElse_some in H as [H | [_ H]].
    + exists EmptyString, (String c s). simpl. now rewrite Nat.add_0_r.
    + apply IH in H as (a & b & -> & H).
      exists (String c a), b. simpl. now rewrite <- Nat.add_succ_comm.
Qed.

(** FROM_IMPORT_RE matches only values in which from occurs. *)
Lemma from_import_needs_from (value : string) :
  JsString.includes value "from" = false ->
  execGroup FROM_IMPORT_RE 1 value = None.
Proof.
  intro H. unfold execGroup.
  destruct (search FROM_IMPORT_RE 0 value) as [z|] eqn:E; [|reflexivity].
  exfalso. apply search_found in E as (a & b & -> & E).
  unfold FROM_IMPORT_RE in E.
  change (rmatch (Plus (Chr dot)) {| idx := 0 + String.length a; rest := b; caps := [] |}
            (fun y => rmatch FROM_CLAUSE y Some) = Some z) in E.
  apply rmatch_suffix in E as (y & u & E & Eu). simpl in Eu.
  unfold FROM_CLAUSE in E.
  change (rmatch (Lit "from") y
            (fun y1 => rmatch
               (Seq (Star (Chr space))
               (Seq QUOTE_ALT
               (Seq (Grp 1 (Star (Chr dot)))
               (Seq QUOTE_ALT
               (Seq (Star (Chr space)) (Opt (Chr (Ascii.eqb ";"))))))))
               y1 Some) = Some z) in E.
  apply rmatch_Lit in E as (t & Et & _).
  rewrite Eu, Et, <- append_assoc in H.
  now rewrite includes_append in H.
Qed.

(** On a value of the shape [pre from 'path'] (a non-empty prefix
    without line break, blanks after from, a path without quote or
    line break between two quote characters) the capture is the
    path. *)
Lemma from_import_shape (pre ws p : string) (q1 q2 : ascii) :
  pre <> EmptyString ->
  JsString.all dot pre = true ->
  JsString.all space ws = true ->
  quote q1 = true -> quote q2 = true ->
  JsString.all (fun c => dot c && negb (quote c)) p = true ->
  execGroup FROM_IMPORT_RE 1
    (pre ++ "from" ++ ws ++ String q1 (p ++ String q2 EmptyString)) = Some p.
Proof.
  intros Hpre Hdot Hws Hq1 Hq2 Hp.
  destruct pre as [|c pre]; [congruence|].
  simpl in Hdot. apply andb_true_iff in Hdot as [Hc Hdot].
  destruct (from_clause_match ws p q1 q2 (1 + String.length pre) Hws Hq1 Hq2 Hp)
    as (z & Hz & Hcap).
  unfold execGroup.
  enough (Hm : rmatch FROM_IMPORT_RE
                 {| idx := 0;
                    rest := String c (pre ++ "from" ++ ws ++
                                      String q1 (p ++ String q2 EmptyString));
                    caps := [] |} Some = Some z)
    by (match goal with
        | |- context [String c pre ++ ?x] =>
            change (String c pre ++ x) with (String c (pre ++ x))
        end; now rewrite (search_here _ _ _ Hm)).
  unfold FROM_IMPORT_RE.
  change (rmatch (Chr dot)
            {| idx := 0;
               rest := String c (pre ++ "from" ++ ws ++ String q1 (p ++ String q2 EmptyString));
               caps := [] |}
            (fun y0 => rmatch (Star (Chr dot)) y0
            (fun y => rmatch FROM_CLAUSE y Some)) = Some z).
  cbv beta iota delta [rmatch rest step idx caps]. rewrite Hc.
  fold rmatch.
  change (starLoop (rmatch (Chr dot)) (fun y => rmatch FROM_CLAUSE y Some)
            (S (String.length
                  (pre ++ "from" ++ ws ++ String q1 (p ++ String q2 EmptyString))))
            {| idx := 1;
               rest := pre ++ "from" ++ ws ++ String q1 (p ++ String q2 EmptyString);
               caps := [] |} = Some z).
  apply star_chr_longest; [exact Hdot | lia | exact Hz |].
  intros v w Hv E _.
  destruct (rmatch FROM_CLAUSE
              {| idx := 1 + String.length pre + String.length v; rest := w;
                 caps := [] |} Some) as [z'|] eqn:Hz'; [|reflexivity].
  exfalso. apply from_clause_needs in Hz' as (t & Et & Hcount). simpl in Et.
  subst w.
  pose proof (@from_clause_only_once ws p q1 q2 v t Hws Hq1 Hp Hv E). lia.
Qed.

(* ------------------------------------------------------------------- *)
(** *** The worlds transform ends in *)
(* ------------------------------------------------------------------- *)

Lemma storeAll_cssModules (cs : list (string * ExportTokens)) (w : World) :
  Asset.cssModules (asset (storeAll cs w)) = storedTokens cs (Asset.cssModules (asset w)).
Proof.
  revert w; induction cs as [|c cs IH]; intro w; [reflexivity|].
  unfold storeAll, storedTokens in *. simpl. now rewrite IH.
Qed.

Lemma required_asset (hyd : Hydrated Plugin CallerModules) (w : World) :
  asset (required hyd w) = asset w.
Proof. unfold required. now destruct (modules hyd). Qed.

(** A run that stops before the plugins: nothing but the [require]
    call happened. *)
Lemma transform_stops_early cfg autoinstall (w : World) :
  (exists e, pluginList (hydrated cfg) (Asset.filePath (asset w)) autoinstall = inl e)
  \/ Asset.ast (asset w) = None ->
  exists e,
    transform (Some cfg) autoinstall w = (required (hydrated cfg) w, inl e).
Proof.
  intro H. rewrite transform_run. cbv zeta.
  destruct (pluginList (hydrated cfg) (Asset.filePath (asset w)) autoinstall) as [e|pl].
  - now exists e.
  - destruct H as [[e H]|H]; [discriminate|]. rewrite H.
    now exists NullthrowsError.
Qed.

Lemma processed_fields (run : ProcessRun) (t : AST) (w : World) :
  Asset.filePath (asset (processed run t w)) = Asset.filePath (asset w)
  /\ Asset.ast (asset (processed run t w)) =
     Asset.ast (Asset.with_program (programAfter run) (asset w))
  /\ Asset.includedFiles (asset (processed run t w)) = Asset.includedFiles (asset w)
  /\ Asset.dependencies (asset (processed run t w)) = Asset.dependencies (asset w)
  /\ Asset.cssModules (asset (processed run t w)) =
     storedTokens (collected run) (Asset.cssModules (asset w))
  /\ calls (processed run t w) = (calls w ++ [CallProcess (program t)])%list.
Proof.
  unfold processed.
  destruct (storeAll_asset (collected run)
              {| asset := Asset.with_program (programAfter run) (asset w);
                 calls := (calls w ++ [CallProcess (program t)])%list |})
    as (H1 & H2 & H3 & H4 & H5).
  rewrite storeAll_cssModules, H1, H2, H3, H4, H5. repeat split.
Qed.

Lemma committed_fields (messages : list Postcss.Message) (root : Postcss.Root)
      (w : World) :
  Asset.filePath (asset (committed messages root w)) = Asset.filePath (asset w)
  /\ Asset.ast (asset (committed messages root w)) =
     Some {| type := "postcss"; version := "7.0.0"; program := root |}
  /\ Asset.includedFiles (asset (committed messages root w)) =
     (Asset.includedFiles (asset w) ++ filesOf messages)%list
  /\ Asset.dependencies (asset (committed messages root w)) =
     Asset.dependencies (asset w)
  /\ Asset.cssModules (asset (committed messages root w)) = Asset.cssModules (asset w)
  /\ calls (committed messages root w) =
     (calls w
      ++ [CallSetAST {| type := "postcss"; version := "7.0.0"; program := root |}]
      ++ map CallAddIncludedFile (filesOf messages))%list.
Proof.
  unfold committed. simpl. repeat split. now rewrite <- app_assoc.
Qed.

(** A run whose plugins throw. *)
Lemma transform_plugins_throw cfg autoinstall (w : World) pl t e :
  pluginList (hydrated cfg) (Asset.filePath (asset w)) autoinstall = inr pl ->
  Asset.ast (asset w) = Some t ->
  outcome (postcssProcess pl (program t) (hydrated cfg)) = inl e ->
  let w' := fst (transform (Some cfg) autoinstall w) in
  snd (transform (Some cfg) autoinstall w) = inl e
  /\ Asset.ast (asset w') =
     Some {| type := type t; version := version t;
             program := programAfter (postcssProcess pl (program t) (hydrated cfg)) |}
  /\ Asset.includedFiles (asset w') = Asset.includedFiles (asset w)
  /\ Asset.dependencies (asset w') =
     (Asset.dependencies (asset w) ++ extracted (asset w) t)%list
  /\ calls w' =
     (calls (required (hydrated cfg) w)
      ++ map CallAddDependency (extracted (asset w) t)
      ++ [CallProcess (program t)])%list.
Proof.
  intros Hpl Hast Hout w'. subst w'. rewrite transform_run. cbv zeta.
  rewrite Hpl, Hast, Hout. simpl fst; simpl snd.
  destruct (processed_fields (postcssProcess pl (program t) (hydrated cfg)) t
              (registerAll (extracted (asset w) t) (required (hydrated cfg) w)))
    as (_ & H2 & H3 & H4 & _ & H6).
  rewrite H2, H3, H4, H6. simpl. rewrite required_asset, Hast.
  repeat split; try reflexivity. now rewrite <- app_assoc.
Qed.

Lemma storeAll_astDirty (cs : list (string * ExportTokens)) (w : World) :
  Asset.astDirty (asset (storeAll cs w)) = Asset.astDirty (asset w).
Proof.
  revert w; induction cs as [|c cs IH]; intro w; [reflexivity|].
  unfold storeAll in *. simpl. now rewrite IH.
Qed.

(** What else a run whose plugins throw leaves on the asset. *)
Lemma transform_plugins_throw_state cfg autoinstall (w : World) pl t e :
  pluginList (hydrated cfg) (Asset.filePath (asset w)) autoinstall = inr pl ->
  Asset.ast (asset w) = Some t ->
  outcome (postcssProcess pl (program t) (hydrated cfg)) = inl e ->
  let w' := fst (transform (Some cfg) autoinstall w) in
  Asset.astDirty (asset w') = Asset.astDirty (asset w)
  /\ Asset.cssModules (asset w') =
     storedTokens (collected (postcssProcess pl (program t) (hydrated cfg)))
                  (Asset.cssModules (asset w)).
Proof.
  intros Hpl Hast Hout w'. subst w'. rewrite transform_run. cbv zeta.
  rewrite Hpl, Hast, Hout. simpl fst. split.
  - unfold processed. rewrite storeAll_astDirty. simpl. now rewrite required_asset.
  - rewrite (proj1 (proj2 (proj2 (proj2 (proj2 (processed_fields _ _ _)))))).
    simpl. now rewrite required_asset.
Qed.

(** A run that completes. *)
Lemma transform_completes cfg autoinstall (w : World) pl t messages root :
  pluginList (hydrated cfg) (Asset.filePath (asset w)) autoinstall = inr pl ->
  Asset.ast (asset w) = Some t ->
  outcome (postcssProcess pl (program t) (hydrated cfg)) = inr (messages, root) ->
  let w' := fst (transform (Some cfg) autoinstall w) in
  let committedAST := {| type := "postcss"; version := "7.0.0"; program := root |} in
  snd (transform (Some cfg) autoinstall w) = inr (results w')
  /\ Asset.filePath (asset w') = Asset.filePath (asset w)
  /\ Asset.ast (asset w') = Some committedAST
  /\ Asset.includedFiles (asset w') =
     (Asset.includedFiles (asset w) ++ filesOf messages)%list
  /\ Asset.dependencies (asset w') =
     (Asset.dependencies (asset w) ++ extracted (asset w) t)%list
  /\ Asset.cssModules (asset w') =
     storedTokens (collected (postcssProcess pl (program t) (hydrated cfg)))
                  (Asset.cssModules (asset w))
  /\ calls w' =
     (calls (required (hydrated cfg) w)
      ++ map CallAddDependency (extracted (asset w) t)
      ++ [CallProcess (program t)]
      ++ [CallSetAST committedAST]
      ++ map CallAddIncludedFile (filesOf messages))%list.
Proof.
  intros Hpl Hast Hout w' committedAST. subst w' committedAST.
  rewrite transform_run. cbv zeta.
  rewrite Hpl, Hast, Hout. simpl fst; simpl snd.
  set (w2 := registerAll (extracted (asset w) t) (required (hydrated cfg) w)).
  set (run := postcssProcess pl (program t) (hydrated cfg)).
  destruct (committed_fields messages root (processed run t w2))
    as (C1 & C2 & C3 & C4 & C5 & C6).
  destruct (processed_fields run t w2) as (P1 & P2 & P3 & P4 & P5 & P6).
  rewrite C1, C2, C3, C4, C5, C6, P1, P3, P4, P5, P6.
  subst w2. simpl. rewrite required_asset.
  repeat split; try reflexivity. now rewrite <- !app_assoc.
Qed.

(** What a call of [transform] adds to the registered dependencies. *)
Lemma transform_dependencies config autoinstall (w : World) :
  Asset.dependencies (asset (fst (transform config autoinstall w))) =
  (Asset.dependencies (asset w) ++ registered config autoinstall (asset w))%list.
Proof.
  unfold registered. destruct config as [cfg|].
  - destruct (pluginList (hydrated cfg) (Asset.filePath (asset w)) autoinstall)
      as [e|pl] eqn:Hpl.
    + destruct (transform_stops_early cfg autoinstall w) as [e' ->]; [left; eauto|].
      simpl. now rewrite required_asset, app_nil_r.
    + destruct (Asset.ast (asset w)) as [t|] eqn:Hast.
      * destruct (outcome (postcssProcess pl (program t) (hydrated cfg)))
          as [e|[messages root]] eqn:Hout.
        -- apply (transform_plugins_throw cfg autoinstall w Hpl Hast Hout).
        -- apply (transform_completes cfg autoinstall w Hpl Hast Hout).
      * destruct (transform_stops_early cfg autoinstall w) as [e' ->]; [now right|].
        simpl. now rewrite required_asset, app_nil_r.
  - simpl. now rewrite app_nil_r.
Qed.

(* ------------------------------------------------------------------- *)
(** *** The composes extractor *)
(* ------------------------------------------------------------------- *)

Lemma depsOfDecl_matched (decl : Postcss.Declaration) (importPath : string) :
  Postcss.prop decl = "composes" ->
  execGroup FROM_IMPORT_RE 1 (Postcss.value decl) = Some importPath ->
  depsOfDecl decl =
  repeat (composesDependency decl importPath)
         (ValueParser.countStrings (valueParser (Postcss.value decl))).
Proof.
  intros Hprop Hexec. unfold depsOfDecl, ValueParser.countStrings.
  rewrite Hexec, Hprop. simpl String.eqb.
  induction (filter ValueParser.isString
               (ValueParser.visit (valueParser (Postcss.value decl))))
    as [|n ns IH]; simpl; [reflexivity | now rewrite IH].
Qed.

Lemma depsOfDecl_unmatched (decl : Postcss.Declaration) :
  execGroup FROM_IMPORT_RE 1 (Postcss.value decl) = None ->
  depsOfDecl decl = [].
Proof. intro H. unfold depsOfDecl. now rewrite H. Qed.

(** Every dependency the extractor registers comes from a declaration
    of the tree whose value FROM_IMPORT_RE matches. *)
Lemma registered_origin config autoinstall (a : Asset.t) (d : Dependency) :
  In d (registered config autoinstall a) ->
  exists t decl importPath,
    Asset.ast a = Some t
    /\ In decl (Postcss.declsOf (program t))
    /\ Postcss.prop decl = "composes"
    /\ execGroup FROM_IMPORT_RE 1 (Postcss.value decl) = Some importPath
    /\ d = composesDependency decl importPath.
Proof.
  unfold registered. destruct config as [cfg|]; [|intros []].
  destruct (pluginList _ _ _) as [e|pl]; [intros []|].
  destruct (Asset.ast a) as [t|]; [|intros []].
  unfold extracted. destruct (scanNeeded _); [|intros []].
  intro H. apply in_flat_map in H as (decl & Hdecl & H).
  unfold depsOfDecl in H.
  destruct (execGroup FROM_IMPORT_RE 1 (Postcss.value decl)) as [p|] eqn:Hexec;
    [|destruct H].
  destruct (String.eqb (Postcss.prop decl) "composes") eqn:Hprop; [|destruct H].
  apply String.eqb_eq in Hprop. apply in_map_iff in H as (n & <- & _).
  exists t, decl, p. auto.
Qed.

(** C1 (amended).  Whenever the declaration walk runs (the AST is dirty,
    or the code matches COMPOSES_RE), transform registers the
    dependencies of the declarations in document order, those of a
    declaration being what the callback of walkDecls registers on it;
    and for every declaration whose property is composes: if FROM_IMPORT_RE matches
    the value, one dependency is registered per string token of the
    value, each with the captured import path as moduleSpecifier (so
    exactly one when there is exactly one string token); if it does not
    match, in particular when the value has no from, none is
    registered.  On a value of the shape [pre from 'path'] the captured
    import path is the text between the quotes. *)
Theorem composes_dependencies_when_scanned cfg autoinstall (w : World) pl t :
  pluginList (hydrated cfg) (Asset.filePath (asset w)) autoinstall = inr pl ->
  Asset.ast (asset w) = Some t ->
  scanNeeded (codeInSync (asset w)) = true ->
  Asset.dependencies (asset (fst (transform (Some cfg) autoinstall w))) =
    (Asset.dependencies (asset w)
     ++ flat_map depsOfDecl (Postcss.declsOf (program t)))%list
  /\ (forall decl (w0 : World),
        onDecl decl w0 = (registerAll (depsOfDecl decl) w0, inr tt))
  /\ (forall decl,
        Postcss.prop decl = "composes" ->
        (forall importPath,
            execGroup FROM_IMPORT_RE 1 (Postcss.value decl) = Some importPath ->
            List.length (depsOfDecl decl) =
              ValueParser.countStrings (valueParser (Postcss.value decl))
            /\ (forall d, In d (depsOfDecl decl) -> moduleSpecifier d = importPath)
            /\ (ValueParser.countStrings (valueParser (Postcss.value decl)) = 1 ->
                exists d, depsOfDecl decl = [d] /\ moduleSpecifier d = importPath))
        /\ (execGroup FROM_IMPORT_RE 1 (Postcss.value decl) = None ->
            depsOfDecl decl = [])
        /\ (JsString.includes (Postcss.value decl) "from" = false ->
            depsOfDecl decl = []))
  /\ (forall pre ws p q1 q2,
        pre <> EmptyString ->
        JsString.all dot pre = true ->
        JsString.all space ws = true ->
        quote q1 = true -> quote q2 = true ->
        JsString.all (fun c => dot c && negb (quote c)) p = true ->
        execGroup FROM_IMPORT_RE 1
          (pre ++ "from" ++ ws ++ String q1 (p ++ String q2 EmptyString)) = Some p).
Proof.
  intros Hpl Hast Hscan. split; [|split; [|split]].
  - rewrite transform_dependencies. unfold registered, extracted.
    now rewrite Hpl, Hast, Hscan.
  - apply onDecl_run.
  - intros decl Hprop. split; [|split].
    + intros importPath Hexec.
      rewrite (depsOfDecl_matched decl Hprop Hexec).
      split; [apply repeat_length|]. split.
      * intros d Hd. apply repeat_spec in Hd. now subst d.
      * intros ->. now exists (composesDependency decl importPath).
    + apply depsOfDecl_unmatched.
    + intro H. apply depsOfDecl_unmatched. now apply from_import_needs_from.
  - apply from_import_shape.
Qed.

(** C4 (amended).  Every dependency transform registers for a
    composes-from declaration carries a location that starts at the
    start position recorded on the declaration ([decl.source.start],
    line and column: where the declaration begins with its property,
    not where its value begins) and ends on the same line, at the start
    column plus the length of the import path.  In a declaration written
    on one line the value begins further right, by the eight characters
    of composes and the text between property and value, so the
    location never starts at the start of the value. *)
Theorem composes_dependency_location config autoinstall (w : World) :
  Asset.dependencies (asset (fst (transform config autoinstall w))) =
    (Asset.dependencies (asset w) ++ registered config autoinstall (asset w))%list
  /\ forall d, In d (registered config autoinstall (asset w)) ->
       exists t decl importPath l,
         Asset.ast (asset w) = Some t
         /\ In decl (Postcss.declsOf (program t))
         /\ Postcss.prop decl = "composes"
         /\ execGroup FROM_IMPORT_RE 1 (Postcss.value decl) = Some importPath
         /\ moduleSpecifier d = importPath
         /\ loc d = Some l
         /\ start l = Postcss.source_start decl
         /\ Postcss.line (end_ l) = Postcss.line (Postcss.source_start decl)
         /\ Postcss.column (end_ l) =
            Postcss.column (Postcss.source_start decl) + String.length importPath
         /\ Postcss.line (Postcss.valueStart decl) = Postcss.line (start l)
         /\ Postcss.column (Postcss.valueStart decl) =
            Postcss.column (start l) + 8 + String.length (Postcss.raws_between decl)
         /\ start l <> Postcss.valueStart decl.
Proof.
  split; [apply transform_dependencies|].
  intros d Hd.
  apply registered_origin in Hd
    as (t & decl & importPath & Hast & Hin & Hprop & Hexec & ->).
  exists t, decl, importPath. eexists.
  repeat (split; [first [eassumption | reflexivity]|]).
  unfold Postcss.valueStart. cbn [start composesDependency Postcss.line Postcss.column].
  rewrite Hprop. cbn [String.length].
  repeat split.
  destruct (Postcss.source_start decl) as [ln col]. cbn [Postcss.line Postcss.column].
  intro H. injection H as H. lia.
Qed.

(* ------------------------------------------------------------------- *)
(** *** The calls transform makes *)
(* ------------------------------------------------------------------- *)

Lemma filter_required (p : Call -> bool) (hyd : Hydrated Plugin CallerModules)
      (w : World) :
  p (CallRequire "postcss-modules") = false ->
  filter p (calls (required hyd w)) = filter p (calls w).
Proof.
  intro H. unfold required. destruct (modules hyd) as [cm|]; [|reflexivity].
  simpl. rewrite filter_app. simpl. rewrite H. apply app_nil_r.
Qed.

Lemma filter_map_all {A} (p : Call -> bool) (f : A -> Call) (xs : list A) :
  (forall x, p (f x) = true) -> filter p (map f xs) = map f xs.
Proof.
  intro H. induction xs as [|x xs IH]; simpl; [reflexivity|].
  now rewrite H, IH.
Qed.

Lemma filter_map_none {A} (p : Call -> bool) (f : A -> Call) (xs : list A) :
  (forall x, p (f x) = false) -> filter p (map f xs) = [].
Proof.
  intro H. induction xs as [|x xs IH]; simpl; [reflexivity|].
  now rewrite H, IH.
Qed.

(** The three ways a call of [transform] with a config can go. *)
Lemma transform_cases cfg autoinstall (w : World) :
  (exists e,
      transform (Some cfg) autoinstall w = (required (hydrated cfg) w, inl e)
      /\ registered (Some cfg) autoinstall (asset w) = [])
  \/ (exists pl t e,
        pluginList (hydrated cfg) (Asset.filePath (asset w)) autoinstall = inr pl
        /\ Asset.ast (asset w) = Some t
        /\ outcome (postcssProcess pl (program t) (hydrated cfg)) = inl e)
  \/ (exists pl t messages root,
        pluginList (hydrated cfg) (Asset.filePath (asset w)) autoinstall = inr pl
        /\ Asset.ast (asset w) = Some t
        /\ outcome (postcssProcess pl (program t) (hydrated cfg)) = inr (messages, root)).
Proof.
  destruct (pluginList (hydrated cfg) (Asset.filePath (asset w)) autoinstall)
    as [e|pl] eqn:Hpl.
  - left. destruct (transform_stops_early cfg autoinstall w) as [e' H]; [left; eauto|].
    exists e'. split; [exact H|]. unfold registered. now rewrite Hpl.
  - destruct (Asset.ast (asset w)) as [t|] eqn:Hast.
    + destruct (outcome (postcssProcess pl (program t) (hydrated cfg)))
        as [e|[messages root]] eqn:Hout.
      * right; left. exists pl, t, e. auto.
      * right; right. exists pl, t, messages, root. auto.
    + left. destruct (transform_stops_early cfg autoinstall w) as [e' H]; [now right|].
      exists e'. split; [exact H|]. unfold registered. now rewrite Hpl, Hast.
Qed.

(** The calls of [addDependency] are those of the extractor. *)
Lemma transform_addDependency_calls config autoinstall (w : World) :
  filter isAddDependency (calls (fst (transform config autoinstall w))) =
  (filter isAddDependency (calls w)
   ++ map CallAddDependency (registered config autoinstall (asset w)))%list.
Proof.
  destruct config as [cfg|]; [|simpl; now rewrite app_nil_r].
  destruct (transform_cases cfg autoinstall w)
    as [(e & H & Hreg) | [(pl & t & e & Hpl & Hast & Hout)
                         | (pl & t & messages & root & Hpl & Hast & Hout)]].
  - rewrite H, Hreg. simpl. rewrite app_nil_r. now apply filter_required.
  - destruct (transform_plugins_throw cfg autoinstall w Hpl Hast Hout)
      as (_ & _ & _ & _ & Hcalls).
    rewrite Hcalls. unfold registered. rewrite Hpl, Hast.
    rewrite !filter_app, filter_required by reflexivity.
    rewrite filter_map_all by reflexivity. simpl. now rewrite app_nil_r.
  - destruct (transform_completes cfg autoinstall w Hpl Hast Hout)
      as (_ & _ & _ & _ & _ & _ & Hcalls).
    rewrite Hcalls. unfold registered. rewrite Hpl, Hast.
    rewrite !filter_app, filter_required by reflexivity.
    rewrite filter_map_all by reflexivity.
    rewrite (filter_map_none isAddDependency CallAddIncludedFile) by reflexivity.
    simpl. now rewrite app_nil_r.
Qed.

(** C8.  With an AST that is not dirty and a code that COMPOSES_RE does
    not match, transform registers no dependency at all; with a dirty
    AST the code is taken as absent and, once transform has its plugin
    list and the AST, every declaration of the tree is scanned. *)
Theorem fast_path_skips_scan config autoinstall (w : World) :
  (Asset.astDirty (asset w) = false ->
   test COMPOSES_RE (Asset.code (asset w)) = false ->
   let w' := fst (transform config autoinstall w) in
   Asset.dependencies (asset w') = Asset.dependencies (asset w)
   /\ filter isAddDependency (calls w') = filter isAddDependency (calls w))
  /\ (Asset.astDirty (asset w) = true ->
      forall cfg pl t,
        config = Some cfg ->
        pluginList (hydrated cfg) (Asset.filePath (asset w)) autoinstall = inr pl ->
        Asset.ast (asset w) = Some t ->
        let w' := fst (transform config autoinstall w) in
        codeInSync (asset w) = None
        /\ Asset.dependencies (asset w') =
           (Asset.dependencies (asset w)
            ++ flat_map depsOfDecl (Postcss.declsOf (program t)))%list
        /\ filter isAddDependency (calls w') =
           (filter isAddDependency (calls w)
            ++ map CallAddDependency
                 (flat_map depsOfDecl (Postcss.declsOf (program t))))%list).
Proof.
  split.
  - intros Hdirty Htest w'. subst w'.
    rewrite transform_dependencies, transform_addDependency_calls.
    assert (Hreg : registered config autoinstall (asset w) = []).
    { unfold registered. destruct config as [cfg|]; [|reflexivity].
      destruct (pluginList _ _ _) as [e|pl]; [reflexivity|].
      destruct (Asset.ast (asset w)) as [t|]; [|reflexivity].
      unfold extracted, codeInSync. rewrite Hdirty. simpl. now rewrite Htest. }
    rewrite Hreg. simpl. now rewrite !app_nil_r.
  - intros Hdirty cfg pl t -> Hpl Hast w'. subst w'.
    rewrite transform_dependencies, transform_addDependency_calls.
    unfold registered, extracted, codeInSync.
    rewrite Hpl, Hast, Hdirty. simpl. auto.
Qed.

(* ------------------------------------------------------------------- *)
(** *** Plugin failure, the committed AST and the companion asset *)
(* ------------------------------------------------------------------- *)

(** C9 (amended).  When the plugin run throws, transform ends with that
    same error and returns no array of assets, so no companion asset;
    setAST was not called; no included file was registered; the
    plugins were run once.  The step is not undone, though: the AST
    object of the asset keeps its type and version and holds the tree
    as the plugins, which work on it in place, left it, the dirty flag
    being as it was; the dependencies the walk registered before the
    plugin run stay registered; and the token map last handed to
    getJSON during the run stays in the metadata slot. *)
Theorem plugin_failure_propagates cfg autoinstall (w : World) pl t e :
  pluginList (hydrated cfg) (Asset.filePath (asset w)) autoinstall = inr pl ->
  Asset.ast (asset w) = Some t ->
  outcome (postcssProcess pl (program t) (hydrated cfg)) = inl e ->
  let run := postcssProcess pl (program t) (hydrated cfg) in
  let w' := fst (transform (Some cfg) autoinstall w) in
  snd (transform (Some cfg) autoinstall w) = inl e
  /\ filter isSetAST (calls w') = filter isSetAST (calls w)
  /\ filter isAddIncludedFile (calls w') = filter isAddIncludedFile (calls w)
  /\ Asset.includedFiles (asset w') = Asset.includedFiles (asset w)
  /\ filter isProcess (calls w') =
     (filter isProcess (calls w) ++ [CallProcess (program t)])%list
  /\ Asset.ast (asset w') =
     Some {| type := type t; version := version t; program := programAfter run |}
  /\ Asset.astDirty (asset w') = Asset.astDirty (asset w)
  /\ Asset.dependencies (asset w') =
     (Asset.dependencies (asset w) ++ extracted (asset w) t)%list
  /\ Asset.cssModules (asset w') =
     storedTokens (collected run) (Asset.cssModules (asset w)).
Proof.
  intros Hpl Hast Hout run w'. subst run w'.
  destruct (transform_plugins_throw cfg autoinstall w Hpl Hast Hout)
    as (Hres & Hast' & Hinc & Hdeps & Hcalls).
  destruct (transform_plugins_throw_state cfg autoinstall w Hpl Hast Hout)
    as (Hdirty & Hcss).
  rewrite Hcalls, !filter_app, !filter_required by reflexivity.
  rewrite (filter_map_none isSetAST CallAddDependency) by reflexivity.
  rewrite (filter_map_none isAddIncludedFile CallAddDependency) by reflexivity.
  rewrite (filter_map_none isProcess CallAddDependency) by reflexivity.
  cbn [filter isSetAST isAddIncludedFile isProcess app]. rewrite !app_nil_r.
  repeat split; assumption.
Qed.

(** C10.  An AST returned by parse under an active config, and every
    AST transform hands to setAST, has type postcss and version 7.0.0,
    and canReuseAST accepts it.  parse returns such an AST whenever the
    parser returns a tree, and a completed transform leaves the AST it
    committed on the asset. *)
Theorem parsed_and_committed_ast_reusable :
  (forall postcssParse a cfg,
      (forall t, parse postcssParse a (Some cfg) = inr (Some t) ->
                 type t = "postcss" /\ version t = "7.0.0" /\ canReuseAST t = true)
      /\ (forall root, postcssParse (Asset.code a) (Asset.filePath a) = inr root ->
                       parse postcssParse a (Some cfg) =
                       inr (Some {| type := "postcss"; version := "7.0.0";
                                    program := root |})))
  /\ (forall config autoinstall (w : World),
        let w' := fst (transform config autoinstall w) in
        exists committedASTs,
          filter isSetAST (calls w') =
            (filter isSetAST (calls w) ++ map CallSetAST committedASTs)%list
          /\ (forall t, In t committedASTs ->
                type t = "postcss" /\ version t = "7.0.0" /\ canReuseAST t = true)
          /\ (forall rs, snd (transform config autoinstall w) = inr rs ->
                config <> None ->
                exists t, committedASTs = [t] /\ Asset.ast (asset w') = Some t)).
Proof.
  split.
  - intros postcssParse a cfg. split.
    + intros t H. unfold parse in H.
      destruct (postcssParse (Asset.code a) (Asset.filePath a)) as [e|root];
        [discriminate|].
      injection H as <-. repeat split.
    + intros root H. unfold parse. now rewrite H.
  - intros [cfg|] autoinstall w w'; subst w'.
    2:{ exists []. simpl. rewrite app_nil_r.
        split; [reflexivity|]. split; [intros t []|].
        intros rs _ H. congruence. }
    destruct (transform_cases cfg autoinstall w)
      as [(e & H & Hreg) | [(pl & t & e & Hpl & Hast & Hout)
                           | (pl & t & messages & root & Hpl & Hast & Hout)]].
    + exists []. rewrite H. cbn [fst snd map].
      rewrite app_nil_r, filter_required by reflexivity.
      split; [reflexivity|]. split; [intros t []|].
      intros rs Hrs. discriminate.
    + destruct (transform_plugins_throw cfg autoinstall w Hpl Hast Hout)
        as (Hres & _ & _ & _ & Hcalls).
      exists []. rewrite Hcalls, Hres, !filter_app, filter_required by reflexivity.
      rewrite (filter_map_none isSetAST CallAddDependency) by reflexivity.
      cbn [filter isSetAST map app]. rewrite ?app_nil_r.
      split; [reflexivity|]. split; [intros t0 []|].
      intros rs Hrs. discriminate.
    + destruct (transform_completes cfg autoinstall w Hpl Hast Hout)
        as (_ & _ & Hast' & _ & _ & _ & Hcalls).
      exists [{| type := "postcss"; version := "7.0.0"; program := root |}].
      rewrite Hcalls, Hast', !filter_app, filter_required by reflexivity.
      rewrite (filter_map_none isSetAST CallAddDependency) by reflexivity.
      rewrite (filter_map_none isSetAST CallAddIncludedFile) by reflexivity.
      cbn [filter isSetAST map app]. rewrite ?app_nil_r.
      split; [reflexivity|]. split.
      * intros t0 [<-|[]]. repeat split.
      * intros rs _ _. eauto.
Qed.

(** C3 (amended).  A transform that runs with a config and completes
    returns the companion script asset (path: the asset path followed
    by .js) exactly when a token map is stored in the metadata slot of
    the asset at that point, whether or not the map is empty; it returns
    the asset alone exactly when the slot is empty.  The map stored is
    the last one handed to getJSON during the plugin run, or else the
    one the asset had.  For the empty map and no dependency the content
    is [module.exports = {};]. *)
Theorem companion_iff_tokens_stored cfg autoinstall (w : World) rs :
  snd (transform (Some cfg) autoinstall w) = inr rs ->
  let w' := fst (transform (Some cfg) autoinstall w) in
  ((exists content,
       rs = [TheAsset; NewAsset "js" (Asset.filePath (asset w) ++ ".js") content])
   <-> Asset.cssModules (asset w') <> None)
  /\ (rs = [TheAsset] <-> Asset.cssModules (asset w') = None)
  /\ (exists pl t,
         pluginList (hydrated cfg) (Asset.filePath (asset w)) autoinstall = inr pl
         /\ Asset.ast (asset w) = Some t
         /\ Asset.cssModules (asset w') =
            storedTokens (collected (postcssProcess pl (program t) (hydrated cfg)))
                         (Asset.cssModules (asset w)))
  /\ companionCode [] [] = "module.exports = {};".
Proof.
  intros Hrs w'. subst w'.
  destruct (transform_cases cfg autoinstall w)
    as [(e & H & Hreg) | [(pl & t & e & Hpl & Hast & Hout)
                         | (pl & t & messages & root & Hpl & Hast & Hout)]].
  - rewrite H in Hrs. discriminate.
  - destruct (transform_plugins_throw cfg autoinstall w Hpl Hast Hout) as (Hres & _).
    rewrite Hres in Hrs. discriminate.
  - destruct (transform_completes cfg autoinstall w Hpl Hast Hout)
      as (Hres & Hfp & _ & _ & _ & Hcss & _).
    assert (Ers : rs = results (fst (transform (Some cfg) autoinstall w)))
      by congruence.
    subst rs. clear Hrs Hres.
    unfold results. rewrite Hfp.
    split; [|split; [|split]].
    + destruct (Asset.cssModules (asset (fst (transform (Some cfg) autoinstall w))));
        split; try congruence; eauto.
      intros [content H]. discriminate.
    + destruct (Asset.cssModules (asset (fst (transform (Some cfg) autoinstall w))));
        split; congruence.
    + exists pl, t. auto.
    + reflexivity.
Qed.

(* ------------------------------------------------------------------- *)
(** *** The companion script *)
(* ------------------------------------------------------------------- *)

Lemma get_snoc (key : string) (o : ExportTokens) (kv : string * string) :
  JsExpr.get key (o ++ [kv])%list =
  if String.eqb (fst kv) key then Some (snd kv) else JsExpr.get key o.
Proof. unfold JsExpr.get. now rewrite fold_left_app. Qed.

Lemma hasKey_snoc (key : string) (o : ExportTokens) (kv : string * string) :
  JsExpr.hasKey key (o ++ [kv])%list = JsExpr.hasKey key o || String.eqb (fst kv) key.
Proof. unfold JsExpr.hasKey. rewrite existsb_app. simpl. now rewrite orb_false_r. Qed.

(** Reading a property after a write. *)
Lemma get_set (key key' v : string) (o : ExportTokens) :
  JsExpr.get key (JsExpr.set o key' v) =
  if String.eqb key' key then Some v else JsExpr.get key o.
Proof.
  unfold JsExpr.set.
  destruct (JsExpr.hasKey key' o) eqn:Hhas; [|apply get_snoc].
  revert Hhas. induction o as [|kv o IH] using rev_ind; intro Hhas; [discriminate|].
  rewrite map_app, hasKey_snoc in *. simpl map. rewrite !get_snoc.
  destruct (String.eqb (fst kv) key') eqn:Ekv.
  - apply String.eqb_eq in Ekv. simpl fst; simpl snd. rewrite Ekv.
    destruct (String.eqb key' key) eqn:Ek; [reflexivity|].
    destruct (JsExpr.hasKey key' o) eqn:Ho.
    + rewrite IH by reflexivity. reflexivity.
    + clear IH Hhas. induction o as [|kv' o IH] using rev_ind; [reflexivity|].
      rewrite hasKey_snoc in Ho. apply orb_false_iff in Ho as [Ho Hkv'].
      rewrite map_app. simpl map. rewrite Hkv', !get_snoc. now rewrite IH.
  - rewrite orb_false_r in Hhas. rewrite (IH Hhas).
    destruct (String.eqb key' key) eqn:Ek; [|reflexivity].
    apply String.eqb_eq in Ek. subst key'. now rewrite Ekv.
Qed.

(** Reading a property after one source was merged in. *)
Lemma get_assign_one (key : string) (src acc : ExportTokens) :
  JsExpr.get key (fold_left (fun acc kv => JsExpr.set acc (fst kv) (snd kv)) src acc) =
  match JsExpr.get key src with
  | Some v => Some v
  | None => JsExpr.get key acc
  end.
Proof.
  induction src as [|kv src IH] using rev_ind; [reflexivity|].
  rewrite fold_left_app. simpl. rewrite get_set, get_snoc, IH.
  now destruct (String.eqb (fst kv) key).
Qed.

Lemma get_assign (key : string) (sources : list ExportTokens) :
  forall target,
  JsExpr.get key (JsExpr.assign target sources) =
  match JsExpr.merged key sources with
  | Some v => Some v
  | None => JsExpr.get key target
  end.
Proof.
  induction sources as [|src rest IH]; intro target; [reflexivity|].
  unfold JsExpr.assign in *. simpl. rewrite IH, get_assign_one.
  now destruct (JsExpr.merged key rest).
Qed.

Lemma merged_snoc (key : string) (sources : list ExportTokens) (last : ExportTokens) :
  JsExpr.merged key (sources ++ [last])%list =
  match JsExpr.get key last with
  | Some v => Some v
  | None => JsExpr.merged key sources
  end.
Proof.
  induction sources as [|src rest IH]; simpl.
  - now destruct (JsExpr.get key last).
  - rewrite IH. now destruct (JsExpr.get key last).
Qed.

Lemma join_cons (sep x : string) (xs : list string) :
  xs <> [] -> JsString.join sep (x :: xs) = x ++ sep ++ JsString.join sep xs.
Proof. destruct xs; [congruence | reflexivity]. Qed.

Lemma join_snoc (sep x : string) (xs : list string) :
  xs <> [] -> JsString.join sep (xs ++ [x])%list = JsString.join sep xs ++ sep ++ x.
Proof.
  induction xs as [|y ys IH]; [congruence|]. intros _.
  destruct ys as [|y' ys'].
  - reflexivity.
  - change ((y :: y' :: ys') ++ [x])%list with (y :: ((y' :: ys') ++ [x]))%list.
    rewrite join_cons by (simpl; discriminate).
    rewrite IH by discriminate.
    change (JsString.join sep (y :: y' :: ys'))
      with (y ++ sep ++ JsString.join sep (y' :: ys')).
    now rewrite !append_assoc.
Qed.

(** The expression the companion script exports when there are
    dependencies. *)
Lemma companionCode_render (tokens : ExportTokens) (d : Dependency)
      (ds : list Dependency) :
  companionCode tokens (d :: ds) =
  JSON.nl ++ "          module.exports = " ++
  JsExpr.render
    (JsExpr.ObjectAssign (JsExpr.ObjectLiteral [])
       (map (fun dep => JsExpr.Require (moduleSpecifier dep)) (d :: ds)
        ++ [JsExpr.ObjectLiteral tokens])%list) ++
  ";" ++ JSON.nl ++ "        ".
Proof.
  unfold companionCode. cbn [JsExpr.render].
  rewrite map_app, map_map. cbn [map JsExpr.render].
  set (code := JSON.stringifyObject2 tokens).
  set (R := ("require(" ++ JSON.stringifyString (moduleSpecifier d) ++ ")")
            :: map (fun dep => "require(" ++ JSON.stringifyString (moduleSpecifier dep) ++ ")")
                   ds).
  change (JSON.stringifyObject2 []) with "{}".
  rewrite (@join_cons ", " "{}" (R ++ [code])%list) by (subst R; simpl; discriminate).
  rewrite (@join_snoc ", " code R) by (subst R; discriminate).
  repeat (rewrite ?append_assoc; simpl append).
  reflexivity.
Qed.

(** C2.  With no dependency other than URL ones the companion content
    is [module.exports = ] followed by the token map as
    JSON.stringify(map, null, 2) prints it and a semicolon; for the map
    of a to _a_1 that is the three lines shown.  With dependencies it
    assigns to module.exports the call Object.assign({}, require(d1),
    ..., require(dn), map), the requires in the order of the
    dependencies and the local map last; in the object this call
    evaluates to, a key of the local map has the local value, and any
    other key has the value of the last dependency that exports it.  A
    completed transform with a stored token map returns the asset and
    the companion with this content, computed from the dependencies
    that are not URLs. *)
Theorem companion_content :
  (forall tokens, companionCode tokens [] =
                  "module.exports = " ++ JSON.stringifyObject2 tokens ++ ";")
  /\ companionCode [("a", "_a_1")] [] =
     "module.exports = {" ++ JSON.nl ++
     "  " ++ JSON.dqs ++ "a" ++ JSON.dqs ++ ": " ++ JSON.dqs ++ "_a_1" ++ JSON.dqs ++
     JSON.nl ++ "};"
  /\ (forall tokens d ds,
        companionCode tokens (d :: ds) =
        JSON.nl ++ "          module.exports = " ++
        JsExpr.render
          (JsExpr.ObjectAssign (JsExpr.ObjectLiteral [])
             (map (fun dep => JsExpr.Require (moduleSpecifier dep)) (d :: ds)
              ++ [JsExpr.ObjectLiteral tokens])%list) ++
        ";" ++ JSON.nl ++ "        ")
  /\ (forall (exportsOf : string -> ExportTokens) tokens (deps : list Dependency) key,
        JsExpr.get key
          (JsExpr.eval exportsOf
             (JsExpr.ObjectAssign (JsExpr.ObjectLiteral [])
                (map (fun dep => JsExpr.Require (moduleSpecifier dep)) deps
                 ++ [JsExpr.ObjectLiteral tokens])%list)) =
        match JsExpr.get key tokens with
        | Some v => Some v
        | None => JsExpr.merged key (map (fun dep => exportsOf (moduleSpecifier dep)) deps)
        end)
  /\ (forall cfg autoinstall (w : World) rs tokens,
        snd (transform (Some cfg) autoinstall w) = inr rs ->
        let w' := fst (transform (Some cfg) autoinstall w) in
        Asset.cssModules (asset w') = Some tokens ->
        rs = [TheAsset;
              NewAsset "js" (Asset.filePath (asset w) ++ ".js")
                (companionCode tokens
                   (filter (fun dep => negb (isURL dep))
                           (Asset.dependencies (asset w'))))]).
Proof.
  split; [reflexivity|]. split; [reflexivity|].
  split; [apply companionCode_render|]. split.
  - intros exportsOf tokens deps key.
    cbn [JsExpr.eval]. rewrite map_app, map_map. cbn [map JsExpr.eval].
    rewrite get_assign, merged_snoc.
    destruct (JsExpr.get key tokens); [reflexivity|].
    now destruct (JsExpr.merged key _).
  - intros cfg autoinstall w rs tokens Hrs w' Hcss. subst w'.
    destruct (transform_cases cfg autoinstall w)
      as [(e & H & Hreg) | [(pl & t & e & Hpl & Hast & Hout)
                           | (pl & t & messages & root & Hpl & Hast & Hout)]].
    + rewrite H in Hrs. discriminate.
    + destruct (transform_plugins_throw cfg autoinstall w Hpl Hast Hout) as (Hres & _).
      rewrite Hres in Hrs. discriminate.
    + destruct (transform_completes cfg autoinstall w Hpl Hast Hout)
        as (Hres & Hfp & _).
      assert (Ers : rs = results (fst (transform (Some cfg) autoinstall w)))
        by congruence.
      subst rs. unfold results. now rewrite Hcss, Hfp.
Qed.

(** C6.  generateScopedName returns an underscore, the class name, an
    underscore and the first five characters of md5FromString applied
    to the file name followed by the css; it is a function of its three
    arguments alone, so equal arguments give equal names. *)
Theorem generateScopedName_spec (name filename css : string) :
  let hash := md5FromString (filename ++ css) in
  generateScopedName name filename css = "_" ++ name ++ "_" ++ JsString.take 5 hash
  /\ (exists rest, hash = JsString.take 5 hash ++ rest)
  /\ String.length (JsString.take 5 hash) = Nat.min 5 (String.length hash)
  /\ String.length (generateScopedName name filename css) =
     2 + String.length name + Nat.min 5 (String.length hash)
  /\ (forall name' filename' css',
        name' = name -> filename' = filename -> css' = css ->
        generateScopedName name' filename' css' = generateScopedName name filename css).
Proof.
  intro hash.
  assert (Htake : forall n s, exists rest, s = JsString.take n s ++ rest).
  { induction n as [|n IH]; intro s.
    - now exists s.
    - destruct s as [|c s]; [now exists EmptyString|].
      destruct (IH s) as [rest E]. exists rest. simpl. now rewrite <- E. }
  assert (Hlen : forall n s, String.length (JsString.take n s) = Nat.min n (String.length s)).
  { induction n as [|n IH]; intro s; [reflexivity|].
    destruct s as [|c s]; [reflexivity|]. simpl. now rewrite IH. }
  split; [reflexivity|]. split; [apply Htake|]. split; [apply Hlen|]. split.
  - unfold generateScopedName. fold hash.
    change ("_" ++ name ++ "_" ++ JsString.take 5 hash)
      with (String "_" (name ++ String "_" (JsString.take 5 hash))).
    cbn [String.length]. rewrite length_append. cbn [String.length].
    rewrite Hlen. lia.
  - now intros name' filename' css' -> -> ->.
Qed.

(* ------------------------------------------------------------------- *)
(** *** The loader's string operations *)
(* ------------------------------------------------------------------- *)

(** Where QUOTES_RE matches: a quote at index 0, or a quote that is the
    last code unit. *)
Lemma quotes_match (i : nat) (s : string) :
  rmatch QUOTES_RE {| idx := i; rest := s; caps := [] |} Some =
  match s with
  | String c s' =>
      if quote c then
        if Nat.eqb i 0 then Some {| idx := S i; rest := s'; caps := [] |}
        else match s' with
             | EmptyString => Some {| idx := S i; rest := s'; caps := [] |}
             | String _ _ => None
             end
      else None
  | EmptyString => None
  end.
Proof.
  unfold QUOTES_RE. cbv beta iota delta [rmatch orElse rest idx caps step].
  destruct s as [|c s']; [now destruct (Nat.eqb i 0)|].
  destruct (Nat.eqb i 0), (quote c); try reflexivity; now destruct s'.
Qed.

Lemma deleteAllFrom_quotes (s : string) :
  forall fuel i, 0 < i -> String.length s < fuel ->
  deleteAllFrom fuel QUOTES_RE i s = Described.dropTrailingQuote s.
Proof.
  induction s as [|c s IH]; intros fuel i Hi Hf;
    (destruct fuel as [|fuel]; [simpl in Hf; lia|]).
  - cbn [deleteAllFrom]. now rewrite quotes_match.
  - cbn [deleteAllFrom]. rewrite quotes_match.
    replace (Nat.eqb i 0) with false by (symmetry; apply Nat.eqb_neq; lia).
    simpl in Hf.
    destruct (quote c) eqn:Hc.
    + destruct s as [|c' s'].
      * cbn [idx rest].
        replace (Nat.eqb (S i) i) with false by (symmetry; apply Nat.eqb_neq; lia).
        simpl. rewrite Hc. now destruct fuel.
      * rewrite IH by lia. reflexivity.
    + rewrite IH by lia. destruct s; simpl; now rewrite ?Hc.
Qed.

(** The replace of [fetch] strips the surrounding quote characters. *)
Lemma deleteAll_quotes (s : string) :
  deleteAll QUOTES_RE s = Described.stripQuotes s.
Proof.
  unfold deleteAll, Described.stripQuotes.
  destruct s as [|c s]; [reflexivity|].
  cbn [deleteAllFrom]. rewrite quotes_match. cbn [Nat.eqb idx rest].
  unfold Described.dropLeadingQuote.
  destruct (quote c) eqn:Hc; cbn [idx rest Nat.eqb].
  - rewrite deleteAllFrom_quotes by (simpl; lia). reflexivity.
  - rewrite deleteAllFrom_quotes by (simpl; lia).
    destruct s; simpl; now rewrite ?Hc.
Qed.

Lemma dropTrailingQuote_snoc (s : string) (q : ascii) :
  quote q = true ->
  Described.dropTrailingQuote (s ++ String q EmptyString) = s.
Proof.
  intro Hq. induction s as [|c s IH]; simpl; [now rewrite Hq|].
  rewrite IH. destruct (s ++ String q EmptyString) eqn:E; [|reflexivity].
  destruct s; discriminate.
Qed.

Lemma stripQuotes_quoted (s : string) (q1 q2 : ascii) :
  quote q1 = true -> quote q2 = true ->
  Described.stripQuotes (String q1 (s ++ String q2 EmptyString)) = s.
Proof.
  intros H1 H2. unfold Described.stripQuotes, Described.dropLeadingQuote.
  rewrite H1. now apply dropTrailingQuote_snoc.
Qed.

Lemma stripRootMarker_marked (root p : string) :
  Described.stripRootMarker root (root ++ p) = p.
Proof.
  unfold Described.stripRootMarker. now rewrite startsWith_append, drop_append.
Qed.

Lemma stripRootMarker_unmarked (root p : string) :
  JsString.startsWith p root = false -> Described.stripRootMarker root p = p.
Proof. unfold Described.stripRootMarker. now intros ->. Qed.

(** One call of fetch, in the words of the specification. *)
Lemma fetch_unfold (depth : nat) (composesPath : string) (relativeTo : FilePath) :
  ParcelFileSystemLoader_fetch (S depth) composesPath relativeTo =
  match resolve relativeTo (Described.stripQuotes composesPath) with
  | inl e => Some (inl e)
  | inr resolved =>
      match readFile resolved with
      | inl e => Some (inl e)
      | inr source =>
          match core_load source
                  (Described.stripRootMarker path_root
                     (path_resolve (path_dirname relativeTo) resolved))
                  (ParcelFileSystemLoader_fetch depth) with
          | Some (inr r) => Some (inr (exportTokens r))
          | Some (inl e) => Some (inl e)
          | None => None
          end
      end
  end.
Proof.
  cbn [ParcelFileSystemLoader_fetch]. rewrite deleteAll_quotes. reflexivity.
Qed.

(** A fetch that ended within a bound ends the same way within a larger
    one, when the tokenizer's result does not change if its resolver
    answers more calls. *)
Lemma fetch_deeper :
  (forall f g : string -> FilePath -> Fetched,
      (forall a b r, f a b = Some r -> g a b = Some r) ->
      forall s p r, core_load s p f = Some r -> core_load s p g = Some r) ->
  forall depth composesPath relativeTo r,
    ParcelFileSystemLoader_fetch depth composesPath relativeTo = Some r ->
    ParcelFileSystemLoader_fetch (S depth) composesPath relativeTo = Some r.
Proof.
  intro Hmono. induction depth as [|depth IH]; intros composesPath relativeTo r H;
    [discriminate|].
  rewrite fetch_unfold in *.
  destruct (resolve relativeTo (Described.stripQuotes composesPath)) as [e|resolved];
    [exact H|].
  destruct (readFile resolved) as [e|source]; [exact H|].
  destruct (core_load source _ (ParcelFileSystemLoader_fetch depth))
    as [x|] eqn:Hload; [|discriminate].
  now rewrite (Hmono _ _ IH _ _ _ Hload).
Qed.

(* ------------------------------------------------------------------- *)
(** *** The matcher and what a pattern can match *)
(* ------------------------------------------------------------------- *)

(** A match consumes a prefix of the input. *)
Lemma Matches_suffix (r : regex) (x y : mstate) :
  Matches r x y ->
  exists u, rest x = u ++ rest y /\ idx y = idx x + String.length u.
Proof.
  induction 1 as [x|p x c s' E Hp|r1 r2 x y z _ IH1 _ IH2|r1 r2 x y _ IH
                 |r1 r2 x y _ IH|r x|r x y z _ IH1 _ _ IH2|i r x y _ IH|x _|x _].
  - exists EmptyString. simpl. split; [reflexivity | lia].
  - exists (String c EmptyString). simpl. split; [exact E | lia].
  - destruct IH1 as (u1 & E1 & I1), IH2 as (u2 & E2 & I2).
    exists (u1 ++ u2). rewrite append_assoc, <- E2, length_append. split; [exact E1 | lia].
  - exact IH.
  - exact IH.
  - exists EmptyString. simpl. split; [reflexivity | lia].
  - destruct IH1 as (u1 & E1 & I1), IH2 as (u2 & E2 & I2).
    exists (u1 ++ u2). rewrite append_assoc, <- E2, length_append. split; [exact E1 | lia].
  - exact IH.
  - exists EmptyString. simpl. split; [reflexivity | lia].
  - exists EmptyString. simpl. split; [reflexivity | lia].
Qed.

(** Whatever the matcher finds is a match of the pattern. *)
Lemma rmatch_sound (r : regex) :
  forall (x : mstate) (k : cont) (z : mstate),
    rmatch r x k = Some z -> exists y, Matches r x y /\ k y = Some z.
Proof.
  induction r as [|p|r1 IH1 r2 IH2|r1 IH1 r2 IH2|r1 IH1|i r1 IH1| |];
    intros x k z H.
  - exists x. split; [constructor | exact H].
  - simpl in H. destruct (rest x) as [|c s'] eqn:E; [discriminate|].
    destruct (p c) eqn:Hp; [|discriminate].
    exists (step x s'). split; [now apply MChr with (c := c) | exact H].
  - simpl in H. apply IH1 in H as (y1 & M1 & H). apply IH2 in H as (y2 & M2 & H).
    exists y2. split; [now apply MSeq with (y := y1) | exact H].
  - simpl in H. apply orElse_some in H as [H | [_ H]].
    + apply IH1 in H as (y & M & H). exists y. split; [now apply MAltL | exact H].
    + apply IH2 in H as (y & M & H). exists y. split; [now apply MAltR | exact H].
  - change (starLoop (rmatch r1) k (S (String.length (rest x))) x = Some z) in H.
    revert H. generalize (S (String.length (rest x))) as fuel.
    intro fuel; revert x; induction fuel as [|fuel IHf]; intros x H; [discriminate|].
    simpl in H. apply orElse_some in H as [H | [_ H]].
    + apply IH1 in H as (y1 & M1 & H).
      destruct (Nat.eqb (idx y1) (idx x)) eqn:En; [discriminate|].
      apply Nat.eqb_neq in En.
      apply IHf in H as (y2 & M2 & H).
      exists y2. split; [now apply MStarRound with (y := y1) | exact H].
    + exists x. split; [constructor | exact H].
  - simpl in H. apply IH1 in H as (y & M & H).
    exists (capture i x y). split; [now constructor | exact H].
  - simpl in H. destruct (Nat.eqb (idx x) 0) eqn:E; [|discriminate].
    apply Nat.eqb_eq in E. exists x. split; [now constructor | exact H].
  - simpl in H. destruct (rest x) eqn:E; [|discriminate].
    exists x. split; [now constructor | exact H].
Qed.

Lemma orElse_left {A} (a b : option A) : a <> None -> orElse a b <> None.
Proof. destruct a; simpl; congruence. Qed.

Lemma orElse_right {A} (a b : option A) : b <> None -> orElse a b <> None.
Proof. destruct a; simpl; congruence. Qed.

(** The rounds of a star, given that one round of the body is found
    whenever there is one. *)
Lemma starLoop_complete (r1 : regex) :
  (forall x y, Matches r1 x y ->
               forall k : cont, k y <> None -> rmatch r1 x k <> None) ->
  forall x y, Matches (Star r1) x y ->
  forall (k : cont) fuel, k y <> None -> String.length (rest x) < fuel ->
    starLoop (rmatch r1) k fuel x <> None.
Proof.
  intros Hr1 x y M. remember (Star r1) as r eqn:Er.
  induction M as [x|p x c s' E Hp|r1' r2 x y z _ _ _ _|r1' r2 x y _ _
                 |r1' r2 x y _ _|r x|r x y z M1 _ Hne M2 IH2|i r x y _ _|x _|x _];
    try discriminate; intros k fuel Hk Hf.
  - destruct fuel as [|fuel]; [lia|]. simpl. now apply orElse_right.
  - assert (r = r1) by congruence. subst r.
    destruct fuel as [|fuel]; [lia|]. simpl. apply orElse_left.
    apply (Hr1 x y M1).
    assert (Hn : Nat.eqb (idx y) (idx x) = false) by now apply Nat.eqb_neq.
    rewrite Hn.
    apply (IH2 Er k fuel Hk).
    apply Matches_suffix in M1 as (u & E & I).
    rewrite E, length_append in Hf.
    assert (String.length u <> 0) by lia.
    lia.
Qed.

(** Every match of the pattern after which the continuation succeeds
    makes the matcher succeed (with that match or with one it tries
    earlier). *)
Lemma rmatch_complete (r : regex) :
  forall x y, Matches r x y ->
  forall k : cont, k y <> None -> rmatch r x k <> None.
Proof.
  induction r as [|p|r1 IH1 r2 IH2|r1 IH1 r2 IH2|r1 IH1|i r1 IH1| |];
    intros x y M k Hk.
  - inversion M; subst. exact Hk.
  - inversion M; subst. simpl.
    match goal with E : rest _ = String _ _, Hp : p _ = true |- _ => now rewrite E, Hp end.
  - inversion M; subst. simpl.
    eapply IH1; [eassumption|]. eapply IH2; eassumption.
  - inversion M; subst; simpl.
    + apply orElse_left. eapply IH1; eassumption.
    + apply orElse_right. eapply IH2; eassumption.
  - change (starLoop (rmatch r1) k (S (String.length (rest x))) x <> None).
    apply (starLoop_complete IH1 M); [exact Hk | lia].
  - inversion M; subst. simpl. eapply IH1; eassumption.
  - inversion M; subst. simpl.
    match goal with E : idx _ = 0 |- _ => now rewrite E end.
  - inversion M; subst. simpl.
    match goal with E : rest _ = EmptyString |- _ => now rewrite E end.
Qed.

(** [test] is true exactly when the pattern has a match somewhere in
    the input. *)
Lemma test_iff_Matches (r : regex) (s : string) :
  test r s = true <->
  exists a b y, s = a ++ b /\
    Matches r {| idx := String.length a; rest := b; caps := [] |} y.
Proof.
  unfold test. split.
  - destruct (search r 0 s) as [z|] eqn:H; [|discriminate]. intros _.
    apply search_found in H as (a & b & E & H).
    apply rmatch_sound in H as (y & M & _).
    exists a, b, y. now split.
  - intros (a & b & y & E & M). subst s.
    assert (H : forall a i,
              Matches r {| idx := i + String.length a; rest := b; caps := [] |} y ->
              search r i (a ++ b) <> None).
    { clear. induction a as [|c a IH]; intros i M.
      - simpl in M. rewrite Nat.add_0_r in M. simpl append.
        destruct b; simpl; apply orElse_left;
          apply (rmatch_complete M); discriminate.
      - simpl. apply orElse_right. apply IH.
        simpl in M. now rewrite <- Nat.add_succ_comm in M. }
    specialize (H a 0 M). destruct (search r 0 (a ++ b)); congruence.
Qed.

(* ------------------------------------------------------------------- *)
(** *** What the pieces of the patterns match *)
(* ------------------------------------------------------------------- *)

Lemma all_append (p : ascii -> bool) (a b : string) :
  JsString.all p (a ++ b) = JsString.all p a && JsString.all p b.
Proof.
  induction a as [|x a IH]; simpl; [reflexivity|].
  rewrite IH. now rewrite andb_assoc.
Qed.

Lemma mstate_eta (x : mstate) :
  x = {| idx := idx x + 0; rest := rest x; caps := caps x |}.
Proof. destruct x; simpl. now rewrite Nat.add_0_r. Qed.

Lemma Matches_Chr_inv (p : ascii -> bool) (x y : mstate) :
  Matches (Chr p) x y ->
  exists c t, rest x = String c t /\ p c = true /\ y = step x t.
Proof. intro M; inversion M; subst; eauto. Qed.

Lemma Matches_Seq_inv (r1 r2 : regex) (x z : mstate) :
  Matches (Seq r1 r2) x z -> exists y, Matches r1 x y /\ Matches r2 y z.
Proof. intro M; inversion M; subst; eauto. Qed.

Lemma Matches_Grp_inv (i : nat) (r : regex) (x z : mstate) :
  Matches (Grp i r) x z -> exists y, Matches r x y /\ z = capture i x y.
Proof. intro M; inversion M; subst; eauto. Qed.

Lemma Matches_Lit_inv (s : string) :
  forall x y, Matches (Lit s) x y ->
  exists t, rest x = s ++ t /\
            y = {| idx := idx x + String.length s; rest := t; caps := caps x |}.
Proof.
  induction s as [|c s IH]; intros x y M; simpl in M.
  - inversion M; subst. exists (rest y). split; [reflexivity | apply mstate_eta].
  - apply Matches_Seq_inv in M as (y1 & M1 & M2).
    apply Matches_Chr_inv in M1 as (c' & t & E & Hc & ->).
    apply Ascii.eqb_eq in Hc; subst c'.
    apply IH in M2 as (t' & E' & ->). simpl in E'. subst t.
    exists t'. split; [exact E|]. simpl. f_equal. lia.
Qed.

Lemma Matches_Lit_intro (s : string) :
  forall x t, rest x = s ++ t ->
  Matches (Lit s) x {| idx := idx x + String.length s; rest := t; caps := caps x |}.
Proof.
  induction s as [|c s IH]; intros x t E; simpl in *.
  - subst t. rewrite <- mstate_eta. constructor.
  - apply MSeq with (y := step x (s ++ t)).
    + apply MChr with (c := c); [exact E | apply Ascii.eqb_refl].
    + specialize (IH (step x (s ++ t)) t eq_refl). simpl in IH.
      now rewrite <- Nat.add_succ_comm.
Qed.

Lemma Matches_StarChr_inv (p : ascii -> bool) (x y : mstate) :
  Matches (Star (Chr p)) x y ->
  exists u t, rest x = u ++ t /\ JsString.all p u = true /\
              y = {| idx := idx x + String.length u; rest := t; caps := caps x |}.
Proof.
  intro M. remember (Star (Chr p)) as r eqn:Er.
  induction M as [x|p' x c s' E Hp|r1' r2 x y z _ _ _ _|r1' r2 x y _ _
                 |r1' r2 x y _ _|r x|r x y z M1 _ Hne M2 IH2|i r x y _ _|x _|x _];
    try discriminate.
  - exists EmptyString, (rest x). repeat split. apply mstate_eta.
  - assert (r = Chr p) by congruence. subst r.
    apply Matches_Chr_inv in M1 as (c & t & E & Hc & ->).
    destruct (IH2 Er) as (u & t' & E' & Hu & ->). simpl in E'. subst t.
    exists (String c u), t'. simpl. rewrite Hc, Hu.
    repeat split; [exact E|]. f_equal. lia.
Qed.

Lemma Matches_StarChr_intro (p : ascii -> bool) (u : string) :
  forall x t, rest x = u ++ t -> JsString.all p u = true ->
  Matches (Star (Chr p)) x
          {| idx := idx x + String.length u; rest := t; caps := caps x |}.
Proof.
  induction u as [|c u IH]; intros x t E Hu; simpl in *.
  - subst t. rewrite <- mstate_eta. constructor.
  - apply andb_true_iff in Hu as [Hc Hu].
    apply MStarRound with (y := step x (u ++ t)).
    + now apply MChr with (c := c).
    + simpl. lia.
    + specialize (IH (step x (u ++ t)) t eq_refl Hu). simpl in IH.
      now rewrite <- Nat.add_succ_comm.
Qed.

Lemma Matches_PlusChr_inv (p : ascii -> bool) (x y : mstate) :
  Matches (Plus (Chr p)) x y ->
  exists u t, u <> EmptyString /\ rest x = u ++ t /\ JsString.all p u = true /\
              y = {| idx := idx x + String.length u; rest := t; caps := caps x |}.
Proof.
  intro M. apply Matches_Seq_inv in M as (y1 & M1 & M2).
  apply Matches_Chr_inv in M1 as (c & t & E & Hc & ->).
  apply Matches_StarChr_inv in M2 as (u & t' & E' & Hu & ->). simpl in E'. subst t.
  exists (String c u), t'. simpl. rewrite Hc, Hu.
  repeat split; [discriminate | exact E |]. f_equal. lia.
Qed.

Lemma Matches_PlusChr_intro (p : ascii -> bool) (u : string) (x : mstate) (t : string) :
  u <> EmptyString -> rest x = u ++ t -> JsString.all p u = true ->
  Matches (Plus (Chr p)) x
          {| idx := idx x + String.length u; rest := t; caps := caps x |}.
Proof.
  destruct u as [|c u]; [congruence|]. intros _ E Hu. simpl in *.
  apply andb_true_iff in Hu as [Hc Hu].
  apply MSeq with (y := step x (u ++ t)).
  - now apply MChr with (c := c).
  - pose proof (@Matches_StarChr_intro p u (step x (u ++ t)) t eq_refl Hu) as H.
    simpl in H. now rewrite <- Nat.add_succ_comm.
Qed.

Lemma quote_either (c : ascii) :
  Ascii.eqb dq c || Ascii.eqb "'" c = quote c.
Proof. unfold quote. now rewrite (Ascii.eqb_sym c dq), (Ascii.eqb_sym c "'"). Qed.

Lemma Matches_quote_inv (x y : mstate) :
  Matches (Alt (Chr (Ascii.eqb dq)) (Chr (Ascii.eqb "'"))) x y ->
  exists c t, rest x = String c t /\ quote c = true /\ y = step x t.
Proof.
  intro M. inversion M as [| | |r1 r2 x' y' M1|r1 r2 x' y' M1| | | | |]; subst;
    apply Matches_Chr_inv in M1 as (c & t & E & Hc & ->);
    exists c, t; rewrite <- quote_either, Hc; repeat split; auto.
  apply orb_true_r.
Qed.

Lemma Matches_quote_intro (x : mstate) (c : ascii) (t : string) :
  rest x = String c t -> quote c = true ->
  Matches (Alt (Chr (Ascii.eqb dq)) (Chr (Ascii.eqb "'"))) x (step x t).
Proof.
  intros E Hq. rewrite <- quote_either in Hq.
  destruct (Ascii.eqb dq c) eqn:H1.
  - apply MAltL. now apply MChr with (c := c).
  - simpl in Hq. apply MAltR. now apply MChr with (c := c).
Qed.

(** The optional end of both patterns: blanks and a semicolon. *)
Lemma Matches_tail_inv (x y : mstate) :
  Matches (Seq (Star (Chr space)) (Opt (Chr (Ascii.eqb ";")))) x y ->
  caps y = caps x.
Proof.
  intro M. apply Matches_Seq_inv in M as (y1 & M1 & M2).
  apply Matches_StarChr_inv in M1 as (u & t & _ & _ & ->).
  inversion M2 as [| | |r1 r2 x' y' M3|r1 r2 x' y' M3| | | | |]; subst.
  - apply Matches_Chr_inv in M3 as (c & t' & _ & _ & ->). reflexivity.
  - inversion M3; subst. reflexivity.
Qed.

Lemma Matches_tail_intro (x : mstate) :
  Matches (Seq (Star (Chr space)) (Opt (Chr (Ascii.eqb ";")))) x x.
Proof. apply MSeq with (y := x); [constructor | apply MAltR; constructor]. Qed.

(* ------------------------------------------------------------------- *)
(** *** The texts COMPOSES_RE and FROM_IMPORT_RE match *)
(* ------------------------------------------------------------------- *)

(** The texts after [composes:] (for COMPOSES_RE) or anywhere (for
    FROM_IMPORT_RE) that make a match: a non-empty run without line
    break, from, blanks, a quote character, a run without line break,
    a quote character. *)
Lemma composes_re_inv (x y : mstate) :
  Matches COMPOSES_RE x y ->
  exists mid ws q1 p q2 tail,
    rest x = "composes:" ++ mid ++ "from" ++ ws ++ String q1 (p ++ String q2 tail)
    /\ mid <> EmptyString
    /\ JsString.all dot mid = true
    /\ JsString.all space ws = true
    /\ quote q1 = true
    /\ JsString.all dot p = true
    /\ quote q2 = true.
Proof.
  unfold COMPOSES_RE. intro M.
  apply Matches_Seq_inv in M as (y1 & M1 & M).
  apply Matches_Lit_inv in M1 as (t1 & E1 & ->).
  apply Matches_Seq_inv in M as (y2 & M2 & M).
  apply Matches_PlusChr_inv in M2 as (mid & t2 & Hmid & E2 & Amid & ->).
  apply Matches_Seq_inv in M as (y3 & M3 & M).
  apply Matches_Lit_inv in M3 as (t3 & E3 & ->).
  apply Matches_Seq_inv in M as (y4 & M4 & M).
  apply Matches_StarChr_inv in M4 as (ws & t4 & E4 & Aws & ->).
  apply Matches_Seq_inv in M as (y5 & M5 & M).
  apply Matches_Grp_inv in M5 as (y5' & M5 & ->).
  apply Matches_quote_inv in M5 as (q1 & t5 & E5 & Hq1 & ->).
  apply Matches_Seq_inv in M as (y6 & M6 & M).
  apply Matches_StarChr_inv in M6 as (p & t6 & E6 & Ap & ->).
  apply Matches_Seq_inv in M as (y7 & M7 & _).
  apply Matches_Grp_inv in M7 as (y7' & M7 & ->).
  apply Matches_quote_inv in M7 as (q2 & t7 & E7 & Hq2 & ->).
  simpl in E2, E3, E4, E5, E6, E7.
  exists mid, ws, q1, p, q2, t7.
  rewrite E1, E2, E3, E4, E5, E6, E7. repeat split; assumption.
Qed.

Lemma composes_re_intro (x : mstate) (mid ws p tail : string) (q1 q2 : ascii) :
  rest x = "composes:" ++ mid ++ "from" ++ ws ++ String q1 (p ++ String q2 tail) ->
  mid <> EmptyString ->
  JsString.all dot mid = true ->
  JsString.all space ws = true ->
  quote q1 = true ->
  JsString.all dot p = true ->
  quote q2 = true ->
  exists y, Matches COMPOSES_RE x y.
Proof.
  intros E Hmid Amid Aws Hq1 Ap Hq2. unfold COMPOSES_RE.
  eexists.
  eapply MSeq; [apply (Matches_Lit_intro "composes:" x _ E)|].
  eapply MSeq;
    [eapply (@Matches_PlusChr_intro dot mid); [exact Hmid | reflexivity | exact Amid]|].
  eapply MSeq; [eapply (Matches_Lit_intro "from"); reflexivity|].
  eapply MSeq;
    [eapply (@Matches_StarChr_intro space ws); [reflexivity | exact Aws]|].
  eapply MSeq;
    [apply MGrp; eapply (@Matches_quote_intro _ q1); [reflexivity | exact Hq1]|].
  eapply MSeq;
    [eapply (@Matches_StarChr_intro dot p); [reflexivity | exact Ap]|].
  eapply MSeq;
    [apply MGrp; eapply (@Matches_quote_intro _ q2); [reflexivity | exact Hq2]|].
  apply Matches_tail_intro.
Qed.

Lemma from_import_re_inv (x y : mstate) :
  Matches FROM_IMPORT_RE x y ->
  exists mid ws q1 p q2 tail,
    rest x = mid ++ "from" ++ ws ++ String q1 (p ++ String q2 tail)
    /\ mid <> EmptyString
    /\ JsString.all dot mid = true
    /\ JsString.all space ws = true
    /\ quote q1 = true
    /\ JsString.all dot p = true
    /\ quote q2 = true
    /\ caps y = (1, p) :: caps x.
Proof.
  unfold FROM_IMPORT_RE, FROM_CLAUSE, QUOTE_ALT. intro M.
  apply Matches_Seq_inv in M as (y2 & M2 & M).
  apply Matches_PlusChr_inv in M2 as (mid & t2 & Hmid & E2 & Amid & ->).
  apply Matches_Seq_inv in M as (y3 & M3 & M).
  apply Matches_Lit_inv in M3 as (t3 & E3 & ->).
  apply Matches_Seq_inv in M as (y4 & M4 & M).
  apply Matches_StarChr_inv in M4 as (ws & t4 & E4 & Aws & ->).
  apply Matches_Seq_inv in M as (y5 & M5 & M).
  apply Matches_quote_inv in M5 as (q1 & t5 & E5 & Hq1 & ->).
  apply Matches_Seq_inv in M as (y6 & M6 & M).
  apply Matches_Grp_inv in M6 as (y6' & M6 & ->).
  apply Matches_StarChr_inv in M6 as (p & t6 & E6 & Ap & ->).
  apply Matches_Seq_inv in M as (y7 & M7 & M).
  apply Matches_quote_inv in M7 as (q2 & t7 & E7 & Hq2 & ->).
  apply Matches_tail_inv in M.
  simpl in E2, E3, E4, E5, E6, E7, M.
  exists mid, ws, q1, p, q2, t7.
  rewrite E2, E3, E4, E5, E6, E7. repeat split; try assumption.
  rewrite M. f_equal. f_equal.
  replace (_ - _) with (String.length p) by lia.
  rewrite E6. apply take_append.
Qed.

Lemma from_import_re_intro (x : mstate) (mid ws p tail : string) (q1 q2 : ascii) :
  rest x = mid ++ "from" ++ ws ++ String q1 (p ++ String q2 tail) ->
  mid <> EmptyString ->
  JsString.all dot mid = true ->
  JsString.all space ws = true ->
  quote q1 = true ->
  JsString.all dot p = true ->
  quote q2 = true ->
  exists y, Matches FROM_IMPORT_RE x y.
Proof.
  intros E Hmid Amid Aws Hq1 Ap Hq2. unfold FROM_IMPORT_RE, FROM_CLAUSE, QUOTE_ALT.
  eexists.
  eapply MSeq;
    [eapply (@Matches_PlusChr_intro dot mid); [exact Hmid | exact E | exact Amid]|].
  eapply MSeq; [eapply (Matches_Lit_intro "from"); reflexivity|].
  eapply MSeq;
    [eapply (@Matches_StarChr_intro space ws); [reflexivity | exact Aws]|].
  eapply MSeq;
    [eapply (@Matches_quote_intro _ q1); [reflexivity | exact Hq1]|].
  eapply MSeq;
    [apply MGrp; eapply (@Matches_StarChr_intro dot p); [reflexivity | exact Ap]|].
  eapply MSeq;
    [eapply (@Matches_quote_intro _ q2); [reflexivity | exact Hq2]|].
  apply Matches_tail_intro.
Qed.

(** COMPOSES_RE finds a match only in a text of the shape below. *)
Lemma composes_test_shape (code : string) :
  test COMPOSES_RE code = true ->
  exists pre mid ws q1 p q2 tail,
    code = pre ++ "composes:" ++ mid ++ "from" ++ ws
               ++ String q1 (p ++ String q2 tail)
    /\ mid <> EmptyString
    /\ JsString.all dot mid = true
    /\ JsString.all space ws = true
    /\ quote q1 = true
    /\ JsString.all dot p = true
    /\ quote q2 = true.
Proof.
  intro H. apply test_iff_Matches in H as (a & b & y & E & M).
  apply composes_re_inv in M
    as (mid & ws & q1 & p & q2 & tail & Eb & Hmid & Amid & Aws & Hq1 & Ap & Hq2).
  simpl in Eb. exists a, mid, ws, q1, p, q2, tail.
  rewrite E, Eb. repeat split; assumption.
Qed.

(** COMPOSES_RE finds a match in every text of that shape. *)
Lemma composes_test_of_shape (pre mid ws p tail : string) (q1 q2 : ascii) :
  mid <> EmptyString ->
  JsString.all dot mid = true ->
  JsString.all space ws = true ->
  quote q1 = true ->
  JsString.all dot p = true ->
  quote q2 = true ->
  test COMPOSES_RE
       (pre ++ "composes:" ++ mid ++ "from" ++ ws ++ String q1 (p ++ String q2 tail))
  = true.
Proof.
  intros Hmid Amid Aws Hq1 Ap Hq2. apply test_iff_Matches.
  destruct (@composes_re_intro
              {| idx := String.length pre;
                 rest := "composes:" ++ mid ++ "from" ++ ws
                         ++ String q1 (p ++ String q2 tail);
                 caps := [] |} mid ws p tail q1 q2 eq_refl Hmid Amid Aws Hq1 Ap Hq2)
    as (y & M).
  exists pre, ("composes:" ++ mid ++ "from" ++ ws ++ String q1 (p ++ String q2 tail)), y.
  now split.
Qed.

(** The import path FROM_IMPORT_RE captures is a text between two
    quote characters after from. *)
Lemma from_import_exec_shape (value p : string) :
  execGroup FROM_IMPORT_RE 1 value = Some p ->
  exists pre mid ws q1 q2 tail,
    value = pre ++ mid ++ "from" ++ ws ++ String q1 (p ++ String q2 tail)
    /\ mid <> EmptyString
    /\ JsString.all dot mid = true
    /\ JsString.all space ws = true
    /\ quote q1 = true
    /\ JsString.all dot p = true
    /\ quote q2 = true.
Proof.
  unfold execGroup. destruct (search FROM_IMPORT_RE 0 value) as [z|] eqn:H;
    [|discriminate].
  intro Hcap. apply search_found in H as (a & b & E & H).
  apply rmatch_sound in H as (y & M & Hy). injection Hy as <-.
  apply from_import_re_inv in M
    as (mid & ws & q1 & p' & q2 & tail & Eb & Hmid & Amid & Aws & Hq1 & Ap & Hq2 & Hc).
  rewrite Hc in Hcap. simpl in Hcap, Eb. injection Hcap as <-.
  exists a, mid, ws, q1, q2, tail. rewrite E, Eb. repeat split; assumption.
Qed.

(** FROM_IMPORT_RE captures an import path in every value of that
    shape. *)
Lemma from_import_exec_of_shape (pre mid ws p tail : string) (q1 q2 : ascii) :
  mid <> EmptyString ->
  JsString.all dot mid = true ->
  JsString.all space ws = true ->
  quote q1 = true ->
  JsString.all dot p = true ->
  quote q2 = true ->
  exists p',
    execGroup FROM_IMPORT_RE 1
      (pre ++ mid ++ "from" ++ ws ++ String q1 (p ++ String q2 tail)) = Some p'.
Proof.
  intros Hmid Amid Aws Hq1 Ap Hq2.
  set (value := pre ++ mid ++ "from" ++ ws ++ String q1 (p ++ String q2 tail)).
  assert (Ht : test FROM_IMPORT_RE value = true).
  { apply test_iff_Matches.
    destruct (@from_import_re_intro
                {| idx := String.length pre;
                   rest := mid ++ "from" ++ ws ++ String q1 (p ++ String q2 tail);
                   caps := [] |} mid ws p tail q1 q2 eq_refl Hmid Amid Aws Hq1 Ap Hq2)
      as (y & M).
    exists pre, (mid ++ "from" ++ ws ++ String q1 (p ++ String q2 tail)), y.
    now split. }
  unfold test in Ht. unfold execGroup.
  destruct (search FROM_IMPORT_RE 0 value) as [z|] eqn:H; [|discriminate].
  apply search_found in H as (a & b & E & H).
  apply rmatch_sound in H as (y & M & Hy). injection Hy as <-.
  apply from_import_re_inv in M
    as (_ & _ & _ & p' & _ & _ & _ & _ & _ & _ & _ & _ & _ & Hc).
  rewrite Hc. simpl. now exists p'.
Qed.

(** What a text matched by COMPOSES_RE contains. *)
Lemma composes_test_needs (code : string) :
  test COMPOSES_RE code = true ->
  JsString.includes code "composes:" = true
  /\ JsString.includes code "from" = true
  /\ 2 <= JsString.count quote code.
Proof.
  intro H. apply composes_test_shape in H
    as (pre & mid & ws & q1 & p & q2 & tail & -> & _ & _ & _ & Hq1 & _ & Hq2).
  split; [apply includes_append|]. split.
  - rewrite <- (append_assoc "composes:" mid), <- (append_assoc pre).
    apply includes_append.
  - rewrite !count_append. simpl JsString.count. rewrite Hq1.
    rewrite count_append. simpl JsString.count. rewrite Hq2. lia.
Qed.

(** X1.  The guard of the walk, [COMPOSES_RE.test(code)], is true
    exactly for a code that contains the text composes: followed by at
    least one character and no line break up to a from, then any white
    space (line breaks included), a quote character (single or
    double), any text without a line break, and a quote character again
    (single or double, not necessarily the same one). *)
Theorem composes_re_matches_exactly (code : string) :
  test COMPOSES_RE code = true <->
  exists pre mid ws q1 p q2 tail,
    code = pre ++ "composes:" ++ mid ++ "from" ++ ws
               ++ String q1 (p ++ String q2 tail)
    /\ mid <> EmptyString
    /\ JsString.all dot mid = true
    /\ JsString.all space ws = true
    /\ quote q1 = true
    /\ JsString.all dot p = true
    /\ quote q2 = true.
Proof.
  split.
  - apply composes_test_shape.
  - intros (pre & mid & ws & q1 & p & q2 & tail & -> & Hmid & Amid & Aws & Hq1 & Ap & Hq2).
    now apply composes_test_of_shape.
Qed.

(** X2.  [FROM_IMPORT_RE.exec(value)] yields an import path exactly
    for a value that contains at least one character other than a line
    break directly before a from, then any white space, a quote
    character, any text without a line break and a quote character;
    and the import path it yields is always such a text between two
    quote characters after from, without a line break in it. *)
Theorem from_import_re_matches_exactly (value : string) :
  (forall p, execGroup FROM_IMPORT_RE 1 value = Some p ->
     exists pre mid ws q1 q2 tail,
       value = pre ++ mid ++ "from" ++ ws ++ String q1 (p ++ String q2 tail)
       /\ mid <> EmptyString
       /\ JsString.all dot mid = true
       /\ JsString.all space ws = true
       /\ quote q1 = true
       /\ JsString.all dot p = true
       /\ quote q2 = true)
  /\ ((exists pre mid ws q1 p q2 tail,
         value = pre ++ mid ++ "from" ++ ws ++ String q1 (p ++ String q2 tail)
         /\ mid <> EmptyString
         /\ JsString.all dot mid = true
         /\ JsString.all space ws = true
         /\ quote q1 = true
         /\ JsString.all dot p = true
         /\ quote q2 = true)
      -> exists p, execGroup FROM_IMPORT_RE 1 value = Some p).
Proof.
  split.
  - intros p H. now apply from_import_exec_shape.
  - intros (pre & mid & ws & q1 & p & q2 & tail & -> & Hmid & Amid & Aws & Hq1 & Ap & Hq2).
    now apply from_import_exec_of_shape.
Qed.


(** X4.  A code that lacks the text composes: or the text from, or
    has fewer than two quote characters, is never scanned while the
    AST is in sync with it: transform registers no dependency and
    makes no addDependency call, whatever the config and the tree. *)
Theorem no_composes_text_no_dependency config autoinstall (w : World) :
  Asset.astDirty (asset w) = false ->
  JsString.includes (Asset.code (asset w)) "composes:" = false
  \/ JsString.includes (Asset.code (asset w)) "from" = false
  \/ JsString.count quote (Asset.code (asset w)) < 2 ->
  let w' := fst (transform config autoinstall w) in
  Asset.dependencies (asset w') = Asset.dependencies (asset w)
  /\ filter isAddDependency (calls w') = filter isAddDependency (calls w).
Proof.
  intros Hclean Hlack w'. subst w'.
  assert (Hreg : registered config autoinstall (asset w) = []).
  { unfold registered. destruct config as [cfg|]; [|reflexivity].
    destruct (pluginList _ _ _) as [e|pl]; [reflexivity|].
    destruct (Asset.ast (asset w)) as [t|]; [|reflexivity].
    unfold extracted, codeInSync. rewrite Hclean. simpl.
    destruct (test COMPOSES_RE (Asset.code (asset w))) eqn:Ht; [|reflexivity].
    apply composes_test_needs in Ht as (H1 & H2 & H3).
    destruct Hlack as [H | [H | H]]; [congruence | congruence | lia]. }
  rewrite transform_dependencies, transform_addDependency_calls, Hreg.
  simpl. now rewrite !app_nil_r.
Qed.

(* ------------------------------------------------------------------- *)
(** *** More on the runs of transform *)
(* ------------------------------------------------------------------- *)

Lemma storeAll_code (cs : list (string * ExportTokens)) (w : World) :
  Asset.code (asset (storeAll cs w)) = Asset.code (asset w).
Proof.
  revert w; induction cs as [|c cs IH]; intro w; [reflexivity|].
  unfold storeAll in *. simpl. now rewrite IH.
Qed.

Lemma storedTokens_kept (cs : list (string * ExportTokens))
      (before : option ExportTokens) :
  before <> None -> storedTokens cs before <> None.
Proof.
  revert before; induction cs as [|c cs IH]; intros before H; [exact H|].
  unfold storedTokens in *. simpl. apply IH. discriminate.
Qed.

Lemma storedTokens_last (cs : list (string * ExportTokens)) (filename : string)
      (json : ExportTokens) (before : option ExportTokens) :
  storedTokens (cs ++ [(filename, json)]) before = Some json.
Proof. unfold storedTokens. now rewrite fold_left_app. Qed.

Lemma required_calls (hyd : Hydrated Plugin CallerModules) (w : World) :
  calls (required hyd w) =
  (calls w ++ match modules hyd with
              | Some _ => [CallRequire "postcss-modules"]
              | None => []
              end)%list.
Proof. unfold required. destruct (modules hyd); simpl; now rewrite ?app_nil_r. Qed.

Lemma extracted_not_url (a : Asset.t) (t : AST) (d : Dependency) :
  In d (extracted a t) -> isURL d = false.
Proof.
  unfold extracted. destruct (scanNeeded _); [|intros []].
  intro H. apply in_flat_map in H as (decl & _ & H).
  unfold depsOfDecl in H.
  destruct (execGroup FROM_IMPORT_RE 1 (Postcss.value decl)); [|destruct H].
  destruct (String.eqb (Postcss.prop decl) "composes"); [|destruct H].
  apply in_map_iff in H as (n & <- & _). reflexivity.
Qed.

Lemma filter_all {A} (p : A -> bool) (xs : list A) :
  (forall x, In x xs -> p x = true) -> filter p xs = xs.
Proof.
  induction xs as [|x xs IH]; intro H; simpl; [reflexivity|].
  rewrite (H x (or_introl eq_refl)), IH; [reflexivity|].
  intros y Hy. apply H. now right.
Qed.

Lemma transform_keeps_code config autoinstall (w : World) :
  Asset.code (asset (fst (transform config autoinstall w))) = Asset.code (asset w).
Proof.
  destruct config as [cfg|]; [|reflexivity].
  rewrite transform_run. cbv zeta.
  destruct (pluginList (hydrated cfg) (Asset.filePath (asset w)) autoinstall) as [e|pl];
    [simpl; now rewrite required_asset|].
  destruct (Asset.ast (asset w)) as [t|]; [|simpl; now rewrite required_asset].
  destruct (outcome _) as [e|[messages root]]; simpl; unfold processed;
    rewrite storeAll_code; simpl; now rewrite required_asset.
Qed.

(** X5.  Whatever transform adds to the dependencies of the asset
    comes from a declaration of the tree whose property is exactly
    composes, and its moduleSpecifier is a text that stands between
    two quote characters after from in the value of that declaration,
    without a line break; it is not a URL dependency.  Declarations of
    any other property add nothing. *)
Theorem registered_import_is_quoted_text config autoinstall (w : World)
        (d : Dependency) :
  In d (Asset.dependencies (asset (fst (transform config autoinstall w)))) ->
  In d (Asset.dependencies (asset w))
  \/ exists t decl pre mid ws q1 q2 tail,
       Asset.ast (asset w) = Some t
       /\ In decl (Postcss.declsOf (program t))
       /\ Postcss.prop decl = "composes"
       /\ Postcss.value decl =
          pre ++ mid ++ "from" ++ ws
              ++ String q1 (moduleSpecifier d ++ String q2 tail)
       /\ mid <> EmptyString
       /\ JsString.all space ws = true
       /\ quote q1 = true
       /\ quote q2 = true
       /\ JsString.all dot (moduleSpecifier d) = true
       /\ isURL d = false.
Proof.
  rewrite transform_dependencies. intro H.
  apply in_app_or in H as [H|H]; [now left|right].
  apply registered_origin in H as (t & decl & p & Hast & Hdecl & Hprop & Hexec & ->).
  apply from_import_exec_shape in Hexec
    as (pre & mid & ws & q1 & q2 & tail & E & Hmid & _ & Aws & Hq1 & Ap & Hq2).
  exists t, decl, pre, mid, ws, q1, q2, tail. simpl.
  repeat split; assumption.
Qed.

(** X6.  transform asks the package manager for postcss-modules
    exactly when [config.hydrated.modules] is set, once, and before
    anything else it does: without a config, or with modules unset,
    the package manager is never called. *)
Theorem postcss_modules_required_first config autoinstall (w : World) :
  exists others,
    calls (fst (transform config autoinstall w)) =
      (calls w
       ++ match config with
          | Some cfg =>
              match modules (hydrated cfg) with
              | Some _ => [CallRequire "postcss-modules"]
              | None => []
              end
          | None => []
          end
       ++ others)%list
    /\ filter isRequire others = [].
Proof.
  destruct config as [cfg|];
    [|exists []; simpl; now rewrite app_nil_r].
  destruct (transform_cases cfg autoinstall w)
    as [(e & H & Hreg) | [(pl & t & e & Hpl & Hast & Hout)
                         | (pl & t & messages & root & Hpl & Hast & Hout)]].
  - exists []. rewrite H. simpl. now rewrite required_calls, app_nil_r.
  - destruct (transform_plugins_throw cfg autoinstall w Hpl Hast Hout)
      as (_ & _ & _ & _ & Hcalls).
    rewrite Hcalls, required_calls, <- app_assoc.
    eexists. split; [reflexivity|].
    rewrite filter_app, (filter_map_none isRequire CallAddDependency) by reflexivity.
    reflexivity.
  - destruct (transform_completes cfg autoinstall w Hpl Hast Hout)
      as (_ & _ & _ & _ & _ & _ & Hcalls).
    rewrite Hcalls, required_calls, <- app_assoc.
    eexists. split; [reflexivity|].
    rewrite !filter_app, (filter_map_none isRequire CallAddDependency) by reflexivity.
    rewrite (filter_map_none isRequire CallAddIncludedFile) by reflexivity.
    reflexivity.
Qed.

(** X7.  When modules are enabled and the package manager cannot
    provide postcss-modules, transform ends with the error of the
    package manager, unchanged, whether or not the asset has an AST;
    the asset is left as it was and nothing but the require call
    happened: no dependency registered, the plugins not run. *)
Theorem require_failure_propagates cfg autoinstall (w : World) cm e :
  modules (hydrated cfg) = Some cm ->
  requirePostcssModules (Asset.filePath (asset w)) autoinstall = inl e ->
  transform (Some cfg) autoinstall w =
  ({| asset := asset w;
      calls := (calls w ++ [CallRequire "postcss-modules"])%list |}, inl e).
Proof.
  intros Hm Hreq. rewrite transform_run. cbv zeta.
  unfold pluginList, required. now rewrite Hm, Hreq.
Qed.

(** X8.  When the asset has no AST, transform with a config throws
    the error of nullthrows once the plugin list is ready; the asset
    is left as it was, no dependency is registered and the plugins are
    not run. *)
Theorem missing_ast_throws cfg autoinstall (w : World) pl :
  pluginList (hydrated cfg) (Asset.filePath (asset w)) autoinstall = inr pl ->
  Asset.ast (asset w) = None ->
  let w' := fst (transform (Some cfg) autoinstall w) in
  snd (transform (Some cfg) autoinstall w) = inl NullthrowsError
  /\ asset w' = asset w
  /\ filter isAddDependency (calls w') = filter isAddDependency (calls w)
  /\ filter isProcess (calls w') = filter isProcess (calls w).
Proof.
  intros Hpl Hast w'. subst w'. rewrite transform_run. cbv zeta.
  rewrite Hpl, Hast. simpl fst; simpl snd.
  rewrite required_asset, !filter_required by reflexivity.
  repeat split.
Qed.

(** X9.  A completed transform registers as included files exactly
    the [file] of every message of type dependency the plugin run
    produced, in the order of the messages and after the files the
    asset already had; messages of any other type register nothing. *)
Theorem included_files_from_dependency_messages
        cfg autoinstall (w : World) pl t messages root :
  pluginList (hydrated cfg) (Asset.filePath (asset w)) autoinstall = inr pl ->
  Asset.ast (asset w) = Some t ->
  outcome (postcssProcess pl (program t) (hydrated cfg)) = inr (messages, root) ->
  let w' := fst (transform (Some cfg) autoinstall w) in
  let files :=
    map Postcss.file
        (filter (fun msg => String.eqb (Postcss.type msg) "dependency") messages) in
  Asset.includedFiles (asset w') = (Asset.includedFiles (asset w) ++ files)%list
  /\ filter isAddIncludedFile (calls w') =
     (filter isAddIncludedFile (calls w) ++ map CallAddIncludedFile files)%list.
Proof.
  intros Hpl Hast Hout w' files. subst w' files.
  destruct (transform_completes cfg autoinstall w Hpl Hast Hout)
    as (_ & _ & _ & Hinc & _ & _ & Hcalls).
  split; [exact Hinc|].
  rewrite Hcalls, !filter_app, filter_required by reflexivity.
  rewrite (filter_map_none isAddIncludedFile CallAddDependency) by reflexivity.
  rewrite (filter_map_all isAddIncludedFile CallAddIncludedFile) by reflexivity.
  reflexivity.
Qed.

(** X10.  What no run of transform does, however it ends: it never
    changes the file path or the code of the asset, never removes or
    reorders a dependency or an included file it found (it only
    appends, and what it appends to the dependencies is never a URL
    dependency), and never clears a token map stored in the metadata
    slot. *)
Theorem transform_only_appends config autoinstall (w : World) :
  let w' := fst (transform config autoinstall w) in
  Asset.filePath (asset w') = Asset.filePath (asset w)
  /\ Asset.code (asset w') = Asset.code (asset w)
  /\ (exists ds,
         Asset.dependencies (asset w') = (Asset.dependencies (asset w) ++ ds)%list
         /\ forall d, In d ds -> isURL d = false)
  /\ (exists fs,
         Asset.includedFiles (asset w') = (Asset.includedFiles (asset w) ++ fs)%list)
  /\ (Asset.cssModules (asset w) <> None -> Asset.cssModules (asset w') <> None).
Proof.
  intro w'. subst w'.
  split; [|split; [apply transform_keeps_code|split; [|split]]].
  - destruct config as [cfg|]; [|reflexivity].
    destruct (transform_cases cfg autoinstall w)
      as [(e & H & Hreg) | [(pl & t & e & Hpl & Hast & Hout)
                           | (pl & t & messages & root & Hpl & Hast & Hout)]].
    + rewrite H. simpl. now rewrite required_asset.
    + rewrite transform_run. cbv zeta. rewrite Hpl, Hast, Hout. simpl fst.
      rewrite (proj1 (processed_fields _ _ _)). simpl. now rewrite required_asset.
    + apply (transform_completes cfg autoinstall w Hpl Hast Hout).
  - exists (registered config autoinstall (asset w)).
    split; [apply transform_dependencies|].
    intros d H.
    apply registered_origin in H as (t & decl & p & _ & _ & _ & _ & ->). reflexivity.
  - destruct config as [cfg|]; [|exists []; simpl; now rewrite app_nil_r].
    destruct (transform_cases cfg autoinstall w)
      as [(e & H & Hreg) | [(pl & t & e & Hpl & Hast & Hout)
                           | (pl & t & messages & root & Hpl & Hast & Hout)]].
    + exists []. rewrite H. simpl. now rewrite required_asset, app_nil_r.
    + exists [].
      destruct (transform_plugins_throw cfg autoinstall w Hpl Hast Hout)
        as (_ & _ & Hinc & _).
      now rewrite Hinc, app_nil_r.
    + exists (filesOf messages).
      apply (transform_completes cfg autoinstall w Hpl Hast Hout).
  - intro Hsome. destruct config as [cfg|]; [|exact Hsome].
    rewrite transform_run. cbv zeta.
    destruct (pluginList (hydrated cfg) (Asset.filePath (asset w)) autoinstall)
      as [e|pl]; [simpl; now rewrite required_asset|].
    destruct (Asset.ast (asset w)) as [t|]; [|simpl; now rewrite required_asset].
    destruct (outcome _) as [e|[messages root]] eqn:Hout; simpl fst.
    + rewrite (proj1 (proj2 (proj2 (proj2 (proj2 (processed_fields _ _ _)))))).
      apply storedTokens_kept. simpl. now rewrite required_asset.
    + rewrite (proj1 (proj2 (proj2 (proj2 (proj2 (committed_fields _ _ _)))))).
      rewrite (proj1 (proj2 (proj2 (proj2 (proj2 (processed_fields _ _ _)))))).
      apply storedTokens_kept. simpl. now rewrite required_asset.
Qed.

(** X11.  A plugin failure undoes nothing: when the plugin run throws,
    the dependencies the walk registered before it stay on the asset,
    registered before the plugins were called, and the token map the
    plugins last handed to getJSON before throwing stays in the
    metadata slot. *)
Theorem plugin_failure_keeps_earlier_effects cfg autoinstall (w : World) pl t e :
  pluginList (hydrated cfg) (Asset.filePath (asset w)) autoinstall = inr pl ->
  Asset.ast (asset w) = Some t ->
  outcome (postcssProcess pl (program t) (hydrated cfg)) = inl e ->
  let w' := fst (transform (Some cfg) autoinstall w) in
  let found :=
    if scanNeeded (if Asset.astDirty (asset w) then None
                   else Some (Asset.code (asset w)))
    then flat_map depsOfDecl (Postcss.declsOf (program t))
    else [] in
  Asset.dependencies (asset w') = (Asset.dependencies (asset w) ++ found)%list
  /\ (exists before,
         calls w' =
         (before ++ map CallAddDependency found ++ [CallProcess (program t)])%list)
  /\ (forall cs filename json,
         collected (postcssProcess pl (program t) (hydrated cfg))
         = (cs ++ [(filename, json)])%list ->
         Asset.cssModules (asset w') = Some json)
  /\ (collected (postcssProcess pl (program t) (hydrated cfg)) = [] ->
      Asset.cssModules (asset w') = Asset.cssModules (asset w)).
Proof.
  intros Hpl Hast Hout w' found. subst w'.
  destruct (transform_plugins_throw cfg autoinstall w Hpl Hast Hout)
    as (_ & _ & _ & Hdeps & Hcalls).
  change found with (extracted (asset w) t).
  split; [exact Hdeps|]. split; [eauto|].
  assert (Hcss : Asset.cssModules (asset (fst (transform (Some cfg) autoinstall w))) =
                 storedTokens (collected (postcssProcess pl (program t) (hydrated cfg)))
                              (Asset.cssModules (asset w))).
  { rewrite transform_run. cbv zeta. rewrite Hpl, Hast, Hout. simpl fst.
    rewrite (proj1 (proj2 (proj2 (proj2 (proj2 (processed_fields _ _ _)))))).
    simpl. now rewrite required_asset. }
  split.
  - intros cs filename json Hc. rewrite Hcss, Hc. apply storedTokens_last.
  - intro Hc. now rewrite Hcss, Hc.
Qed.

(** X12.  The effects of a completed transform, in their order: the
    require of postcss-modules (when modules are enabled), then one
    addDependency per dependency the walk finds, then one run of the
    plugins on the program the AST had on entry, then one setAST with
    the new root, then one addIncludedFile per dependency message; and
    nothing else. *)
Theorem completed_transform_effects_in_order
        cfg autoinstall (w : World) pl t messages root :
  pluginList (hydrated cfg) (Asset.filePath (asset w)) autoinstall = inr pl ->
  Asset.ast (asset w) = Some t ->
  outcome (postcssProcess pl (program t) (hydrated cfg)) = inr (messages, root) ->
  calls (fst (transform (Some cfg) autoinstall w)) =
  (calls w
   ++ match modules (hydrated cfg) with
      | Some _ => [CallRequire "postcss-modules"]
      | None => []
      end
   ++ map CallAddDependency
        (if scanNeeded (if Asset.astDirty (asset w) then None
                        else Some (Asset.code (asset w)))
         then flat_map depsOfDecl (Postcss.declsOf (program t))
         else [])
   ++ [CallProcess (program t)]
   ++ [CallSetAST {| type := "postcss"; version := "7.0.0"; program := root |}]
   ++ map CallAddIncludedFile
        (map Postcss.file
           (filter (fun msg => String.eqb (Postcss.type msg) "dependency")
                   messages)))%list.
Proof.
  intros Hpl Hast Hout.
  destruct (transform_completes cfg autoinstall w Hpl Hast Hout)
    as (_ & _ & _ & _ & _ & _ & Hcalls).
  rewrite Hcalls, required_calls, <- app_assoc. reflexivity.
Qed.

(** X13.  The companion script of a completed transform requires,
    in this order, the dependencies the asset already had that are not
    URLs and then the dependencies the walk registered in the same
    run, in the order of their registration: the asset's list of
    dependencies is read after the walk has appended to it, and what
    the walk registers is never filtered out. *)
Theorem companion_requires_registered_imports
        cfg autoinstall (w : World) pl t messages root tokens :
  pluginList (hydrated cfg) (Asset.filePath (asset w)) autoinstall = inr pl ->
  Asset.ast (asset w) = Some t ->
  outcome (postcssProcess pl (program t) (hydrated cfg)) = inr (messages, root) ->
  Asset.cssModules (asset (fst (transform (Some cfg) autoinstall w))) = Some tokens ->
  snd (transform (Some cfg) autoinstall w) =
  inr [TheAsset;
       NewAsset "js" (Asset.filePath (asset w) ++ ".js")
         (companionCode tokens
            (filter (fun dep => negb (isURL dep)) (Asset.dependencies (asset w))
             ++ (if scanNeeded (if Asset.astDirty (asset w) then None
                                else Some (Asset.code (asset w)))
                 then flat_map depsOfDecl (Postcss.declsOf (program t))
                 else []))%list)].
Proof.
  intros Hpl Hast Hout Hcss.
  destruct (transform_completes cfg autoinstall w Hpl Hast Hout)
    as (Hres & Hfp & _ & _ & Hdeps & _ & _).
  rewrite Hres. unfold results. rewrite Hcss, Hfp, Hdeps, filter_app.
  rewrite (@filter_all _ _ (extracted (asset w) t)); [reflexivity|].
  intros d Hd. now rewrite (extracted_not_url _ _ _ Hd).
Qed.

(* ------------------------------------------------------------------- *)
(** *** generate, the quotes of a specifier, scoped names *)
(* ------------------------------------------------------------------- *)

Lemma fold_left_append (xs : list string) (acc : string) :
  fold_left (fun code c => code ++ c) xs acc
  = acc ++ fold_right append EmptyString xs.
Proof.
  revert acc; induction xs as [|x xs IH]; intro acc; simpl.
  - induction acc as [|c acc IHa]; simpl; [reflexivity | now rewrite <- IHa].
  - now rewrite IH, append_assoc.
Qed.

(** X14.  generate returns as content the strings the stringifier
    emits, concatenated in the order of emission; hence, whenever the
    stringifier writes back the text the parser read, generate applied
    to the AST that parse returned gives back the code of the asset,
    whatever the type and version fields say. *)
Theorem generate_after_parse
        (postcssParse : string -> FilePath -> Error + Postcss.Root)
        (postcssStringify : Postcss.Root -> list string)
        (a : Asset.t) (config : option (Config Plugin CallerModules)) (ast : AST) :
  (forall code from root,
      postcssParse code from = inr root ->
      fold_right append EmptyString (postcssStringify root) = code) ->
  parse postcssParse a config = inr (Some ast) ->
  Generated.content (generate postcssStringify ast)
  = fold_right append EmptyString (postcssStringify (program ast))
  /\ Generated.content (generate postcssStringify ast) = Asset.code a.
Proof.
  intros Hround Hparse.
  assert (Hgen : Generated.content (generate postcssStringify ast)
                 = fold_right append EmptyString (postcssStringify (program ast))).
  { unfold generate. cbn [Generated.content]. now rewrite fold_left_append. }
  split; [exact Hgen|]. rewrite Hgen.
  unfold parse in Hparse. destruct config as [cfg|]; [|discriminate].
  destruct (postcssParse (Asset.code a) (Asset.filePath a)) as [e|root] eqn:Hp;
    [discriminate|].
  assert (ast = {| type := "postcss"; version := "7.0.0"; program := root |})
    by congruence.
  subst ast. cbn [program]. now apply (Hround _ _ _ Hp).
Qed.

Lemma dropTrailingQuote_split (s : string) :
  exists b, s = Described.dropTrailingQuote s ++ b
            /\ String.length b <= 1
            /\ JsString.all quote b = true.
Proof.
  induction s as [|c s IH].
  - exists EmptyString. repeat split. simpl. lia.
  - destruct s as [|c' s'].
    + simpl. destruct (quote c) eqn:Hc.
      * exists (String c EmptyString). simpl. rewrite Hc. repeat split. lia.
      * exists EmptyString. repeat split. simpl. lia.
    + destruct IH as (b & E & Hl & Hq).
      exists b. split; [|now split].
      change (Described.dropTrailingQuote (String c (String c' s')))
        with (String c (Described.dropTrailingQuote (String c' s'))).
      change (String c (Described.dropTrailingQuote (String c' s')) ++ b)
        with (String c (Described.dropTrailingQuote (String c' s') ++ b)).
      now rewrite <- E.
Qed.

Lemma all_count_zero (p : ascii -> bool) (s : string) :
  JsString.all p s = true -> JsString.count p s = 0 -> s = EmptyString.
Proof.
  destruct s as [|c s]; [reflexivity|]. simpl.
  intro H. apply andb_true_iff in H as [Hc _]. rewrite Hc. discriminate.
Qed.

Lemma append_empty (s : string) : s ++ EmptyString = s.
Proof. induction s as [|c s IH]; simpl; [reflexivity | now rewrite IH]. Qed.

Lemma dropTrailingQuote_keep (s : string) (c : ascii) :
  quote c = false ->
  Described.dropTrailingQuote (s ++ String c EmptyString) = s ++ String c EmptyString.
Proof.
  intro Hc. induction s as [|x s IH]; simpl; [now rewrite Hc|].
  rewrite IH. destruct (s ++ String c EmptyString) eqn:E; [|reflexivity].
  destruct s; discriminate.
Qed.

Lemma stripQuotes_split (s : string) :
  exists a b,
    s = a ++ Described.stripQuotes s ++ b
    /\ String.length a <= 1 /\ String.length b <= 1
    /\ JsString.all quote a = true /\ JsString.all quote b = true.
Proof.
  unfold Described.stripQuotes.
  destruct s as [|c s].
  - exists EmptyString, EmptyString. simpl. repeat split; lia.
  - unfold Described.dropLeadingQuote. destruct (quote c) eqn:Hc.
    + destruct (dropTrailingQuote_split s) as (b & E & Hl & Hq).
      exists (String c EmptyString), b. simpl. rewrite Hc, <- E.
      repeat split; [lia | exact Hl | exact Hq].
    + destruct (dropTrailingQuote_split (String c s)) as (b & E & Hl & Hq).
      exists EmptyString, b. simpl append.
      repeat split; [exact E | simpl; lia | exact Hl | exact Hq].
Qed.

(** X15.  The replace of fetch removes at most one quote character
    (single or double) at the start of the specifier and at most one at
    its end, and nothing else: quote characters inside stay, a second
    quote character at either end stays, a specifier without quote
    characters is left as it is, a specifier that is one quote
    character becomes empty, and a quote character at one end only is
    removed as well. *)
Theorem quote_stripping_removes_only_end_quotes :
  (forall composesPath, exists a b,
      composesPath = a ++ deleteAll QUOTES_RE composesPath ++ b
      /\ String.length a <= 1 /\ String.length b <= 1
      /\ JsString.all quote a = true /\ JsString.all quote b = true)
  /\ (forall composesPath,
        JsString.count quote composesPath = 0 ->
        deleteAll QUOTES_RE composesPath = composesPath)
  /\ (forall q, quote q = true ->
        deleteAll QUOTES_RE (String q EmptyString) = EmptyString)
  /\ (forall q c m, quote q = true -> quote c = false ->
        deleteAll QUOTES_RE (String q (m ++ String c EmptyString))
        = m ++ String c EmptyString)
  /\ (forall q c m, quote q = true -> quote c = false ->
        deleteAll QUOTES_RE (String c (m ++ String q EmptyString)) = String c m).
Proof.
  split; [|split; [|split; [|split]]].
  - intro s. rewrite deleteAll_quotes. apply stripQuotes_split.
  - intros s Hs. rewrite deleteAll_quotes.
    destruct (stripQuotes_split s) as (a & b & E & _ & _ & Ha & Hb).
    assert (Hc : JsString.count quote a = 0 /\ JsString.count quote b = 0).
    { rewrite E, !count_append in Hs. lia. }
    destruct Hc as [Hca Hcb].
    apply (all_count_zero _ _ Ha) in Hca. apply (all_count_zero _ _ Hb) in Hcb.
    subst a b. simpl in E. now rewrite append_empty in E.
  - intros q Hq. rewrite deleteAll_quotes. unfold Described.stripQuotes. simpl.
    now rewrite Hq.
  - intros q c m Hq Hc. rewrite deleteAll_quotes.
    unfold Described.stripQuotes, Described.dropLeadingQuote. rewrite Hq.
    now apply dropTrailingQuote_keep.
  - intros q c m Hq Hc. rewrite deleteAll_quotes.
    unfold Described.stripQuotes, Described.dropLeadingQuote. rewrite Hc.
    change (String c (m ++ String q EmptyString))
      with (String c m ++ String q EmptyString).
    now apply dropTrailingQuote_snoc.
Qed.

Lemma append_inj_length (a b c d : string) :
  a ++ b = c ++ d -> String.length b = String.length d -> a = c /\ b = d.
Proof.
  revert c; induction a as [|x a IH]; intros c E Hl.
  - destruct c as [|y c]; [now split|].
    simpl in E. subst b. simpl in Hl. rewrite length_append in Hl. lia.
  - destruct c as [|y c].
    + simpl in E. subst d. simpl in Hl. rewrite length_append in Hl. lia.
    + simpl in E. injection E as -> E. destruct (IH c E Hl) as [-> ->]. now split.
Qed.

Lemma length_take (n : nat) (s : string) :
  String.length (JsString.take n s) = Nat.min n (String.length s).
Proof.
  revert s; induction n as [|n IH]; intro s; [reflexivity|].
  destruct s as [|c s]; simpl; [reflexivity | now rewrite IH].
Qed.

(** X16.  Scoped names collide only when they must: if the hashes of
    two (filename, css) pairs have the same length, as the digests of
    one hash function do, two scoped names are equal only when the
    class names are equal and the first five characters of the hashes
    are equal.  In particular, different class names of the same file
    never get the same scoped name. *)
Theorem scoped_names_collide_only_on_equal_names
        (name1 filename1 css1 name2 filename2 css2 : string) :
  String.length (md5FromString (filename1 ++ css1))
  = String.length (md5FromString (filename2 ++ css2)) ->
  generateScopedName name1 filename1 css1 = generateScopedName name2 filename2 css2 ->
  name1 = name2
  /\ JsString.take 5 (md5FromString (filename1 ++ css1))
     = JsString.take 5 (md5FromString (filename2 ++ css2)).
Proof.
  unfold generateScopedName. intros Hlen E.
  remember (JsString.take 5 (md5FromString (filename1 ++ css1))) as h1 eqn:Eh1.
  remember (JsString.take 5 (md5FromString (filename2 ++ css2))) as h2 eqn:Eh2.
  assert (Hl : String.length h1 = String.length h2)
    by (subst h1 h2; now rewrite !length_take, Hlen).
  simpl in E. injection E as E.
  apply append_inj_length in E as [E1 E2]; [|simpl; now rewrite Hl].
  split; [exact E1 | congruence].
Qed.

(* ------------------------------------------------------------------- *)
(** *** canReuseAST on release versions *)
(* ------------------------------------------------------------------- *)

Lemma digit_cases (c : ascii) :
  Semver.digit c = true ->
  Ascii.eqb "." c = false /\ Ascii.eqb "-" c = false /\ Ascii.eqb "+" c = false
  /\ Ascii.eqb "v" c = false /\ space c = false.
Proof.
  destruct c as [[] [] [] [] [] [] [] []]; intro H; vm_compute in H;
    try discriminate H; vm_compute; repeat split.
Qed.

Lemma digit_value (c : ascii) :
  Semver.digit c = true -> (N_of_ascii c - 48 <= 9)%N.
Proof.
  destruct c as [[] [] [] [] [] [] [] []]; intro H; vm_compute in H;
    try discriminate H; vm_compute; discriminate.
Qed.

Lemma nonZeroDigit_value (c : ascii) :
  Semver.nonZeroDigit c = true ->
  Semver.digit c = true /\ (1 <= N_of_ascii c - 48)%N.
Proof.
  destruct c as [[] [] [] [] [] [] [] []]; intro H; vm_compute in H;
    try discriminate H; vm_compute; (split; [reflexivity | discriminate]).
Qed.

Lemma numeric_digits (s : string) :
  Semver.isNumericIdentifier s = true ->
  s <> EmptyString /\ JsString.all Semver.digit s = true.
Proof.
  destruct s as [|c t]; [discriminate|]. simpl. intro H. split; [discriminate|].
  apply orb_true_iff in H as [H|H]; apply andb_true_iff in H as [H1 H2].
  - apply Ascii.eqb_eq in H1; subst c. destruct t; [reflexivity | discriminate].
  - now rewrite (proj1 (nonZeroDigit_value _ H1)), H2.
Qed.

Lemma Matches_numeric_inv (x y : mstate) :
  Matches Semver.NUMERICIDENTIFIER x y ->
  exists u t, Semver.isNumericIdentifier u = true
              /\ rest x = u ++ t
              /\ y = {| idx := idx x + String.length u; rest := t; caps := caps x |}.
Proof.
  unfold Semver.NUMERICIDENTIFIER. intro M.
  inversion M as [| | |r1 r2 x' y' M1|r1 r2 x' y' M1| | | | |]; subst.
  - apply (Matches_Lit_inv "0") in M1 as (t & E & ->). exists "0", t. simpl.
    repeat split. exact E.
  - apply Matches_Seq_inv in M1 as (y1 & M1 & M2).
    apply Matches_Chr_inv in M1 as (c & t & E & Hc & ->).
    apply Matches_StarChr_inv in M2 as (u & t' & E' & Hu & ->). simpl in E'. subst t.
    exists (String c u), t'. simpl. rewrite Hc, Hu, orb_true_r.
    repeat split; [exact E|]. f_equal. lia.
Qed.

Lemma Matches_numeric_intro (u : string) (x : mstate) (t : string) :
  Semver.isNumericIdentifier u = true -> rest x = u ++ t ->
  Matches Semver.NUMERICIDENTIFIER x
          {| idx := idx x + String.length u; rest := t; caps := caps x |}.
Proof.
  destruct u as [|c u]; [discriminate|]. simpl. intros H E.
  apply orb_true_iff in H as [H|H]; apply andb_true_iff in H as [H1 H2].
  - apply Ascii.eqb_eq in H1; subst c. destruct u; [|discriminate].
    apply MAltL. apply (Matches_Lit_intro "0" x t E).
  - apply MAltR. apply MSeq with (y := step x (u ++ t)).
    + now apply MChr with (c := c).
    + pose proof (@Matches_StarChr_intro Semver.digit u (step x (u ++ t)) t eq_refl H2)
        as H.
      simpl in H. now rewrite <- Nat.add_succ_comm.
Qed.

(** What may follow the patch number. *)
Lemma Matches_version_end_inv (x y : mstate) :
  Matches (Seq (Opt Semver.PRERELEASE) (Seq (Opt Semver.BUILD) Eol)) x y ->
  (rest x = EmptyString /\ y = x)
  \/ (exists t, rest x = String "-" t)
  \/ (exists t, rest x = String "+" t).
Proof.
  intro M. apply Matches_Seq_inv in M as (y1 & M1 & M).
  inversion M1 as [| | |r1 r2 x' y' M2|r1 r2 x' y' M2| | | | |]; subst.
  - right; left. unfold Semver.PRERELEASE in M2.
    apply Matches_Seq_inv in M2 as (y2 & M2 & _).
    apply (Matches_Lit_inv "-") in M2 as (t & E & _). now exists t.
  - inversion M2; subst.
    apply Matches_Seq_inv in M as (y2 & M3 & M).
    inversion M3 as [| | |r1 r2 x' y' M4|r1 r2 x' y' M4| | | | |]; subst.
    + right; right. unfold Semver.BUILD in M4.
      apply Matches_Seq_inv in M4 as (y3 & M4 & _).
      apply (Matches_Lit_inv "+") in M4 as (t & E & _). now exists t.
    + inversion M4; subst. inversion M; subst. now left.
Qed.

Lemma digits_dot_unique (a : string) :
  forall u r t,
    JsString.all Semver.digit a = true -> JsString.all Semver.digit u = true ->
    a ++ String "." r = u ++ String "." t -> a = u /\ r = t.
Proof.
  induction a as [|c a IH]; intros u r t Ha Hu E; destruct u as [|d u]; simpl in *.
  - injection E as E. now split.
  - injection E as E _. apply andb_true_iff in Hu as [Hd _].
    apply digit_cases in Hd as (Hd & _). rewrite E, Ascii.eqb_refl in Hd. discriminate.
  - injection E as E _. apply andb_true_iff in Ha as [Hc _].
    apply digit_cases in Hc as (Hc & _). rewrite <- E, Ascii.eqb_refl in Hc. discriminate.
  - injection E as -> E.
    apply andb_true_iff in Ha as [_ Ha]. apply andb_true_iff in Hu as [_ Hu].
    destruct (IH u r t Ha Hu E) as [-> ->]. now split.
Qed.

Lemma digits_end_unique (a : string) :
  forall u t,
    JsString.all Semver.digit a = true ->
    a = u ++ t ->
    t = EmptyString \/ (exists t', t = String "-" t') \/ (exists t', t = String "+" t') ->
    t = EmptyString /\ a = u.
Proof.
  intros u t Ha E Ht. destruct Ht as [-> | [(t' & ->) | (t' & ->)]].
  - split; [reflexivity|]. now rewrite append_empty in E.
  - exfalso. rewrite E, all_append in Ha. apply andb_true_iff in Ha as [_ Ha].
    vm_compute in Ha. discriminate.
  - exfalso. rewrite E, all_append in Ha. apply andb_true_iff in Ha as [_ Ha].
    vm_compute in Ha. discriminate.
Qed.

Lemma take_all (s : string) : JsString.take (String.length s) s = s.
Proof. induction s as [|c s IH]; simpl; [reflexivity | now rewrite IH]. Qed.

(** The grammar on a text of three numeric identifiers: the match at
    index 0 captures the three of them and no prerelease. *)
Lemma full_match_caps (ma mi pa : string) (z : mstate) :
  Semver.isNumericIdentifier ma = true ->
  Semver.isNumericIdentifier mi = true ->
  Semver.isNumericIdentifier pa = true ->
  Matches Semver.FULL
          {| idx := 0; rest := ma ++ "." ++ mi ++ "." ++ pa; caps := [] |} z ->
  caps z = [(3, pa); (2, mi); (1, ma)].
Proof.
  intros Hma Hmi Hpa M.
  destruct (numeric_digits _ Hma) as [Nma Dma].
  destruct (numeric_digits _ Hmi) as [Nmi Dmi].
  destruct (numeric_digits _ Hpa) as [Npa Dpa].
  unfold Semver.FULL in M.
  apply Matches_Seq_inv in M as (y0 & M0 & M). inversion M0; subst. clear M0.
  apply Matches_Seq_inv in M as (y1 & M1 & M).
  assert (y1 = {| idx := 0; rest := ma ++ "." ++ mi ++ "." ++ pa; caps := [] |}).
  { inversion M1 as [| | |r1 r2 x' y' M2|r1 r2 x' y' M2| | | | |]; subst.
    - exfalso. apply (Matches_Lit_inv "v") in M2 as (t & E & _). simpl in E.
      destruct ma as [|c ma]; [congruence|]. simpl in E, Dma.
      injection E as E _. apply andb_true_iff in Dma as [Hc _].
      apply digit_cases in Hc as (_ & _ & _ & Hc & _).
      rewrite E, Ascii.eqb_refl in Hc. discriminate.
    - now inversion M2. }
  subst y1. clear M1.
  apply Matches_Seq_inv in M as (y2 & M2 & M).
  apply Matches_Grp_inv in M2 as (y2' & M2 & ->).
  apply Matches_numeric_inv in M2 as (u1 & t1 & Hu1 & E1 & ->).
  apply Matches_Seq_inv in M as (y3 & M3 & M).
  apply (Matches_Lit_inv ".") in M3 as (t3 & E3 & ->).
  cbn [rest idx caps capture] in *.
  subst t1. simpl in E1.
  destruct (numeric_digits _ Hu1) as [_ Du1].
  apply digits_dot_unique in E1 as [<- <-]; [|assumption|assumption].
  apply Matches_Seq_inv in M as (y4 & M4 & M).
  apply Matches_Grp_inv in M4 as (y4' & M4 & ->).
  apply Matches_numeric_inv in M4 as (u2 & t2 & Hu2 & E2 & ->).
  apply Matches_Seq_inv in M as (y5 & M5 & M).
  apply (Matches_Lit_inv ".") in M5 as (t5 & E5 & ->).
  cbn [rest idx caps capture] in *.
  subst t2. simpl in E2.
  destruct (numeric_digits _ Hu2) as [_ Du2].
  apply digits_dot_unique in E2 as [<- <-]; [|assumption|assumption].
  apply Matches_Seq_inv in M as (y6 & M6 & M).
  apply Matches_Grp_inv in M6 as (y6' & M6 & ->).
  apply Matches_numeric_inv in M6 as (u3 & t6 & Hu3 & E6 & ->).
  cbn [rest idx caps capture] in *.
  assert (Hend : t6 = EmptyString /\ pa = u3).
  { apply digits_end_unique; [assumption | exact E6 |].
    apply Matches_version_end_inv in M. cbn [rest] in M.
    destruct M as [[M _] | [M | M]]; auto. }
  destruct Hend as [-> <-].
  apply Matches_version_end_inv in M. cbn [rest] in M.
  destruct M as [[_ ->] | [(t & M) | (t & M)]]; try discriminate.
  unfold capture. cbn [caps idx rest].
  repeat match goal with
  | |- context [JsString.take ?n pa] =>
      progress replace n with (String.length pa) by (simpl; lia)
  | |- context [JsString.take ?n (mi ++ ?t)] =>
      progress replace n with (String.length mi) by (simpl; lia)
  | |- context [JsString.take ?n (ma ++ ?t)] =>
      progress replace n with (String.length ma) by (simpl; lia)
  end.
  now rewrite !take_append, take_all.
Qed.

Lemma full_match_exists (ma mi pa : string) :
  Semver.isNumericIdentifier ma = true ->
  Semver.isNumericIdentifier mi = true ->
  Semver.isNumericIdentifier pa = true ->
  exists z,
    Matches Semver.FULL
            {| idx := 0; rest := ma ++ "." ++ mi ++ "." ++ pa; caps := [] |} z.
Proof.
  intros Hma Hmi Hpa. unfold Semver.FULL. eexists.
  eapply MSeq; [now apply MBol|].
  eapply MSeq; [apply MAltR; apply MEps|].
  eapply MSeq;
    [apply MGrp; eapply (@Matches_numeric_intro ma); [exact Hma | reflexivity]|].
  eapply MSeq; [eapply (Matches_Lit_intro "."); reflexivity|].
  eapply MSeq;
    [apply MGrp; eapply (@Matches_numeric_intro mi); [exact Hmi | reflexivity]|].
  eapply MSeq; [eapply (Matches_Lit_intro "."); reflexivity|].
  eapply MSeq;
    [apply MGrp; eapply (@Matches_numeric_intro pa);
     [exact Hpa | cbn [rest capture]; symmetry; apply append_empty]|].
  eapply MSeq; [apply MAltR; apply MEps|].
  eapply MSeq; [apply MAltR; apply MEps|].
  now apply MEol.
Qed.

(** The leftmost match of the grammar in such a text. *)
Lemma full_search (ma mi pa : string) :
  Semver.isNumericIdentifier ma = true ->
  Semver.isNumericIdentifier mi = true ->
  Semver.isNumericIdentifier pa = true ->
  exists z,
    search Semver.FULL 0 (ma ++ "." ++ mi ++ "." ++ pa) = Some z
    /\ caps z = [(3, pa); (2, mi); (1, ma)].
Proof.
  intros Hma Hmi Hpa.
  destruct (@full_match_exists ma mi pa Hma Hmi Hpa) as (y & M).
  destruct (rmatch Semver.FULL
              {| idx := 0; rest := ma ++ "." ++ mi ++ "." ++ pa; caps := [] |} Some)
    as [z|] eqn:H.
  - exists z. split; [now apply search_here|].
    apply rmatch_sound in H as (y' & M' & Hy). injection Hy as <-.
    now apply full_match_caps.
  - exfalso. apply (@rmatch_complete _ _ _ M Some); [discriminate | exact H].
Qed.

Lemma decimal_bound (s : string) :
  forall acc,
    JsString.all Semver.digit s = true ->
    (Semver.decimal acc s < (acc + 1) * 10 ^ N.of_nat (String.length s))%N.
Proof.
  induction s as [|c s IH]; intros acc H.
  - simpl. lia.
  - simpl in H. apply andb_true_iff in H as [Hc Hs].
    cbn [Semver.decimal String.length]. rewrite Nat2N.inj_succ, N.pow_succ_r'.
    specialize (IH (10 * acc + (N_of_ascii c - 48))%N Hs).
    pose proof (digit_value _ Hc) as Hd.
    revert IH Hd. generalize (N_of_ascii c - 48)%N as d.
    intros d IH Hd.
    generalize dependent (Semver.decimal (10 * acc + d) s).
    generalize (10 ^ N.of_nat (String.length s))%N as P.
    intros P X IH.
    apply N.lt_le_trans with (1 := IH).
    rewrite N.mul_assoc. apply N.mul_le_mono_r. lia.
Qed.

Lemma decimal_lower (s : string) :
  forall acc, (acc <= Semver.decimal acc s)%N.
Proof.
  induction s as [|c s IH]; intro acc; cbn [Semver.decimal]; [lia|].
  specialize (IH (10 * acc + (N_of_ascii c - 48))%N). lia.
Qed.

Lemma decimal_safe (s : string) :
  JsString.all Semver.digit s = true ->
  String.length s <= 15 ->
  N.ltb Semver.MAX_SAFE_INTEGER (Semver.decimal 0 s) = false.
Proof.
  intros Hs Hl. apply N.ltb_ge.
  pose proof (decimal_bound s 0%N Hs) as Hb.
  assert (10 ^ N.of_nat (String.length s) <= 10 ^ 15)%N
    by (apply N.pow_le_mono_r; [discriminate | lia]).
  assert (10 ^ 15 <= Semver.MAX_SAFE_INTEGER)%N by (vm_compute; discriminate).
  lia.
Qed.

Lemma decimal_is_7 (s : string) :
  Semver.isNumericIdentifier s = true ->
  N.eqb (Semver.decimal 0 s) 7 = String.eqb s "7".
Proof.
  destruct s as [|c t]; [discriminate|].
  destruct t as [|c' t'].
  - destruct c as [[] [] [] [] [] [] [] []]; intro H; vm_compute in H;
      try discriminate H; vm_compute; reflexivity.
  - intro H. simpl in H. rewrite andb_false_r in H. simpl in H.
    apply andb_true_iff in H as [Hc _].
    apply nonZeroDigit_value in Hc as [_ Hc].
    cbn [String.eqb]. destruct (Ascii.eqb c "7").
    all: 
apply N.eqb_neq; cbn [Semver.decimal];
      pose proof (decimal_lower t' (10 * (10 * 0 + (N_of_ascii c - 48))
                                    + (N_of_ascii c' - 48))%N);
      lia.
Qed.

Lemma trimEnd_id (s : string) (c : ascii) :
  space c = false ->
  Semver.trimEnd (s ++ String c EmptyString) = s ++ String c EmptyString.
Proof.
  intro Hc. induction s as [|x s IH]; simpl; [now rewrite Hc|].
  rewrite IH. destruct (s ++ String c EmptyString) eqn:E; [|reflexivity].
  destruct s; discriminate.
Qed.

Lemma string_snoc (s : string) :
  s <> EmptyString -> exists s' c, s = s' ++ String c EmptyString.
Proof.
  induction s as [|x s IH]; [congruence|]. intros _.
  destruct s as [|y s].
  - now exists EmptyString, x.
  - destruct IH as (s' & c & E); [discriminate|].
    exists (String x s'), c. simpl. now rewrite <- E.
Qed.

Lemma trim_version (ma mi pa : string) :
  Semver.isNumericIdentifier ma = true ->
  Semver.isNumericIdentifier pa = true ->
  Semver.trim (ma ++ "." ++ mi ++ "." ++ pa) = ma ++ "." ++ mi ++ "." ++ pa.
Proof.
  intros Hma Hpa.
  destruct (numeric_digits _ Hma) as [Nma Dma].
  destruct (numeric_digits _ Hpa) as [Npa Dpa].
  unfold Semver.trim.
  assert (Hstart : Semver.trimStart (ma ++ "." ++ mi ++ "." ++ pa)
                   = ma ++ "." ++ mi ++ "." ++ pa).
  { destruct ma as [|c ma]; [congruence|]. simpl in Dma |- *.
    apply andb_true_iff in Dma as [Hc _].
    apply digit_cases in Hc as (_ & _ & _ & _ & Hc). now rewrite Hc. }
  rewrite Hstart.
  destruct (@string_snoc pa Npa) as (pa' & c & ->).
  rewrite all_append in Dpa. apply andb_true_iff in Dpa as [_ Dc].
  simpl in Dc. rewrite andb_true_r in Dc.
  apply digit_cases in Dc as (_ & _ & _ & _ & Hc).
  replace (ma ++ "." ++ mi ++ "." ++ pa' ++ String c EmptyString)
    with ((ma ++ "." ++ mi ++ "." ++ pa') ++ String c EmptyString)
    by (rewrite !append_assoc; simpl; now rewrite ?append_assoc).
  now apply trimEnd_id.
Qed.

(** X17.  canReuseAST on the versions of releases: for a version
    made of three numeric identifiers (0, or digits without a leading
    0; up to fifteen digits each) separated by dots, canReuseAST holds
    exactly when the type is postcss and the major number is 7,
    whatever the minor and patch numbers are. *)
Theorem canReuseAST_release_versions (ast : AST) (ma mi pa : string) :
  version ast = ma ++ "." ++ mi ++ "." ++ pa ->
  Semver.isNumericIdentifier ma = true ->
  Semver.isNumericIdentifier mi = true ->
  Semver.isNumericIdentifier pa = true ->
  String.length ma <= 15 -> String.length mi <= 15 -> String.length pa <= 15 ->
  canReuseAST ast = String.eqb (type ast) "postcss" && String.eqb ma "7".
Proof.
  intros Ev Hma Hmi Hpa Lma Lmi Lpa.
  unfold canReuseAST. f_equal.
  unfold Semver.satisfiesCaretMajor, Semver.parse. rewrite Ev.
  assert (Hlen : Nat.ltb 256 (String.length (ma ++ "." ++ mi ++ "." ++ pa)) = false).
  { apply Nat.ltb_ge. rewrite !length_append. cbn [String.length]. lia. }
  rewrite Hlen, (@trim_version ma mi pa Hma Hpa).
  destruct (@full_search ma mi pa Hma Hmi Hpa) as (z & -> & ->).
  cbn [lookupCap Nat.eqb].
  rewrite (@decimal_safe ma (proj2 (numeric_digits _ Hma)) Lma).
  rewrite (@decimal_safe mi (proj2 (numeric_digits _ Hmi)) Lmi).
  rewrite (@decimal_safe pa (proj2 (numeric_digits _ Hpa)) Lpa).
  cbn [orb Semver.prerelease Semver.major].
  now apply decimal_is_7.
Qed.

End Transformer.

(* ===================================================================== *)
(** ** The loader *)
(* ===================================================================== *)

(** Two path implementations whose results differ by the leading root
    marker give the same fetch. *)
Lemma fetch_root_marker
      (path_resolve path_resolve' : string -> string -> string)
      (path_dirname : string -> string) (path_root : string)
      (resolve : FilePath -> string -> Error + FilePath)
      (readFile : FilePath -> Error + string)
      (core_load : string -> string -> (string -> FilePath -> Fetched) ->
                   option (Error + LoadResult)) :
  (forall a b, path_resolve a b = path_root ++ path_resolve' a b) ->
  (forall a b, JsString.startsWith (path_resolve' a b) path_root = false) ->
  forall depth,
    ParcelFileSystemLoader_fetch path_resolve path_dirname path_root
      resolve readFile core_load depth =
    ParcelFileSystemLoader_fetch path_resolve' path_dirname path_root
      resolve readFile core_load depth.
Proof.
  intros Hmarked Hunmarked.
  induction depth as [|depth IH]; [reflexivity|].
  apply functional_extensionality; intro composesPath.
  apply functional_extensionality; intro relativeTo.
  rewrite !fetch_unfold, IH.
  destruct (resolve relativeTo (Described.stripQuotes composesPath)) as [e|resolved];
    [reflexivity|].
  rewrite Hmarked, stripRootMarker_marked.
  now rewrite (stripRootMarker_unmarked _ _ (Hunmarked _ _)).
Qed.

(** C7.  One call of fetch resolves the specifier with its surrounding
    quote characters stripped, reads the resolved file and returns the
    exportTokens of core.load run on its text, with the derived path
    stripped of a leading root marker and with fetch itself as the nested
    resolver; the errors of the resolver, the file system and the
    tokenizer come back as they are.  A quoted specifier is fetched as the
    bare one.  Whether or not the derived path carries the root marker,
    the result is the same.  A fetch that ended within a nesting bound
    ends the same way within any larger one, provided the tokenizer is
    monotone in its resolver.  finalSource is the empty string. *)
Theorem loader_fetch_contract
        (path_resolve : string -> string -> string)
        (path_dirname : string -> string) (path_root : string)
        (resolve : FilePath -> string -> Error + FilePath)
        (readFile : FilePath -> Error + string)
        (core_load : string -> string -> (string -> FilePath -> Fetched) ->
                     option (Error + LoadResult)) :
  let loader := createLoader path_resolve path_dirname path_root
                             resolve readFile core_load in
  (forall depth composesPath relativeTo,
      fetch loader (S depth) composesPath relativeTo =
      match resolve relativeTo (Described.stripQuotes composesPath) with
      | inl e => Some (inl e)
      | inr resolved =>
          match readFile resolved with
          | inl e => Some (inl e)
          | inr source =>
              match core_load source
                      (Described.stripRootMarker path_root
                         (path_resolve (path_dirname relativeTo) resolved))
                      (fetch loader depth) with
              | Some (inr r) => Some (inr (exportTokens r))
              | Some (inl e) => Some (inl e)
              | None => None
              end
          end
      end)
  /\ (forall depth s q1 q2 relativeTo,
        quote q1 = true -> quote q2 = true ->
        Described.stripQuotes (String q1 (s ++ String q2 EmptyString)) = s
        /\ (Described.stripQuotes s = s ->
            fetch loader depth (String q1 (s ++ String q2 EmptyString)) relativeTo =
            fetch loader depth s relativeTo))
  /\ (forall p, Described.stripRootMarker path_root (path_root ++ p) = p)
  /\ (forall path_resolve',
        (forall a b, path_resolve a b = path_root ++ path_resolve' a b) ->
        (forall a b, JsString.startsWith (path_resolve' a b) path_root = false) ->
        forall depth composesPath relativeTo,
          fetch loader depth composesPath relativeTo =
          fetch (createLoader path_resolve' path_dirname path_root
                              resolve readFile core_load)
                depth composesPath relativeTo)
  /\ ((forall f g : string -> FilePath -> Fetched,
          (forall a b r, f a b = Some r -> g a b = Some r) ->
          forall s p r, core_load s p f = Some r -> core_load s p g = Some r) ->
      forall depth composesPath relativeTo r,
        fetch loader depth composesPath relativeTo = Some r ->
        fetch loader (S depth) composesPath relativeTo = Some r)
  /\ finalSource loader = EmptyString.
Proof.
  intro loader. subst loader. cbn [fetch finalSource createLoader].
  split; [apply fetch_unfold|]. split; [|split; [|split; [|split]]].
  - intros depth s q1 q2 relativeTo H1 H2.
    split; [now apply stripQuotes_quoted|].
    intro Hs. destruct depth as [|depth]; [reflexivity|].
    rewrite !fetch_unfold. now rewrite stripQuotes_quoted, Hs.
  - apply stripRootMarker_marked.
  - intros path_resolve' Hmarked Hunmarked depth composesPath relativeTo.
    now rewrite (fetch_root_marker path_resolve path_resolve' path_dirname path_root
                   resolve readFile core_load Hmarked Hunmarked depth).
  - apply fetch_deeper.
  - reflexivity.
Qed.

(** The tokenizer of the examples is monotone in its resolver. *)
Lemma core_load_monotone_example :
  forall f g : string -> FilePath -> Fetched,
    (forall a b r, f a b = Some r -> g a b = Some r) ->
    forall s p r, Examples.core_load s p f = Some r -> Examples.core_load s p g = Some r.
Proof.
  intros f g Hfg s p r. unfold Examples.core_load.
  destruct s as [|c spec]; [exact (fun H => H)|].
  destruct (f spec ("/" ++ p)) as [x|] eqn:Hf.
  - rewrite (Hfg _ _ _ Hf). exact (fun H => H).
  - destruct c as [[] [] [] [] [] [] [] []]; try exact (fun H => H); discriminate.
Qed.

(* ===================================================================== *)
(** ** The properties on concrete runs *)
(* ===================================================================== *)

(** C1, as the claim states it, fails on a file whose declaration has a
    line break after the colon: the AST is in sync with the code, the
    declaration has the property composes, FROM_IMPORT_RE captures the
    path and the value has one string token, but COMPOSES_RE does not
    match the code and transform registers nothing. *)
Lemma fast_path_misses_composes :
  Postcss.declsOf Examples.treeFoo = [Examples.composesFoo]
  /\ Postcss.prop Examples.composesFoo = "composes"
  /\ execGroup FROM_IMPORT_RE 1 (Postcss.value Examples.composesFoo) = Some "./b.css"
  /\ ValueParser.countStrings
       (Examples.valueParser (Postcss.value Examples.composesFoo)) = 1
  /\ test COMPOSES_RE Examples.declOnTwoLines = false
  /\ Asset.dependencies
       (asset (fst (transform Examples.md5FromString Examples.valueParser
       Examples.path_resolve Examples.path_dirname Examples.path_root
       Examples.resolve Examples.readFile Examples.core_load
       Examples.requirePostcssModules (Examples.processWith [])
       (Some Examples.withoutModules) false
       (Examples.worldOf (Examples.assetOf Examples.declOnTwoLines false Examples.treeFoo None))))) = [].
Proof. vm_compute. repeat split. Qed.

Lemma scanned_composes_example :
  map moduleSpecifier
      (Asset.dependencies
         (asset (fst (transform Examples.md5FromString Examples.valueParser
       Examples.path_resolve Examples.path_dirname Examples.path_root
       Examples.resolve Examples.readFile Examples.core_load
       Examples.requirePostcssModules (Examples.processWith [])
       (Some Examples.withoutModules) false
       (Examples.worldOf (Examples.assetOf Examples.declOnOneLine false Examples.treeFoo None)))))) = ["./b.css"]
  /\ List.length (depsOfDecl Examples.valueParser Examples.composesFoo) = 1
  /\ execGroup FROM_IMPORT_RE 1
       ("foo " ++ "from" ++ " " ++ String "'" ("./b.css" ++ String "'" EmptyString))
     = Some "./b.css".
Proof.
  pose proof (@composes_dependencies_when_scanned Examples.md5FromString Examples.valueParser
       Examples.path_resolve Examples.path_dirname Examples.path_root
       Examples.resolve Examples.readFile Examples.core_load
       string unit Examples.requirePostcssModules (Examples.processWith [])
       Examples.withoutModules false
       (Examples.worldOf (Examples.assetOf Examples.declOnOneLine false Examples.treeFoo None))
       ["autoprefixer"] {| type := "postcss"; version := "7.0.0"; program := Examples.treeFoo |} eq_refl eq_refl eq_refl)
    as (Hdeps & _ & Hdecl & Hshape).
  split; [rewrite Hdeps; reflexivity|]. split.
  - destruct (Hdecl Examples.composesFoo eq_refl) as (Hmatched & _ & _).
    destruct (Hmatched "./b.css" eq_refl) as (Hlen & _ & _).
    rewrite Hlen. reflexivity.
  - apply Hshape; try reflexivity. discriminate.
Defined.

(** C5 on a concrete run: for the asset /proj/src/a.css, the location of
    the dependency registered for [composes: foo from './b.css'] names
    the import path as its file, not the file being transformed. *)
Theorem composes_location_names_import_path :
  Asset.filePath
    (asset (fst (transform Examples.md5FromString Examples.valueParser
       Examples.path_resolve Examples.path_dirname Examples.path_root
       Examples.resolve Examples.readFile Examples.core_load
       Examples.requirePostcssModules (Examples.processWith [])
       (Some Examples.withoutModules) false
       (Examples.worldOf (Examples.assetOf Examples.declOnOneLine false Examples.treeFoo None))))) = "/proj/src/a.css"
  /\ map (fun d => option_map filePath (loc d))
         (Asset.dependencies
            (asset (fst (transform Examples.md5FromString Examples.valueParser
       Examples.path_resolve Examples.path_dirname Examples.path_root
       Examples.resolve Examples.readFile Examples.core_load
       Examples.requirePostcssModules (Examples.processWith [])
       (Some Examples.withoutModules) false
       (Examples.worldOf (Examples.assetOf Examples.declOnOneLine false Examples.treeFoo None)))))) = [Some "./b.css"].
Proof. vm_compute. split; reflexivity. Qed.

(** The location of the dependency registered for [composes: foo from
    './b.css'], a declaration that begins at line 2, column 3. *)
Lemma dependency_location_example :
  exists l,
    loc (composesDependency Examples.composesFoo "./b.css") = Some l
    /\ start l = {| Postcss.line := 2; Postcss.column := 3 |}
    /\ Postcss.line (end_ l) = 2
    /\ Postcss.column (end_ l) = 10
    /\ start l <> Postcss.valueStart Examples.composesFoo.
Proof.
  destruct (proj2 (@composes_dependency_location Examples.md5FromString Examples.valueParser
       Examples.path_resolve Examples.path_dirname Examples.path_root
       Examples.resolve Examples.readFile Examples.core_load
       string unit Examples.requirePostcssModules (Examples.processWith [])
       (Some Examples.withoutModules) false
       (Examples.worldOf (Examples.assetOf Examples.declOnOneLine false Examples.treeFoo None)))
       (composesDependency Examples.composesFoo "./b.css") (or_introl eq_refl))
    as (t & decl & importPath & l & Hast & Hin & _ & Hexec & _ & Hloc & Hstart & Hline
        & Hcol & _ & _ & Hne).
  change (Some {| type := "postcss"; version := "7.0.0"; program := Examples.treeFoo |}
          = Some t) in Hast.
  injection Hast as <-.
  change (In decl [Examples.composesFoo]) in Hin.
  destruct Hin as [<- | []].
  vm_compute in Hexec. injection Hexec as <-.
  exists l. split; [exact Hloc|]. split; [exact Hstart|].
  split; [exact Hline|]. split; [exact Hcol | exact Hne].
Defined.

(** The location does not start where the value starts.  In
    /proj/src/a.css the declaration [composes: foo from './b.css']
    begins at line 2, column 3, and its value at line 2, column 13; the
    dependency transform registers has the location from line 2, column
    3 to line 2, column 10. *)
Lemma location_starts_at_declaration_not_at_value :
  map (fun d => option_map start (loc d))
      (Asset.dependencies (asset (fst (transform Examples.md5FromString Examples.valueParser
       Examples.path_resolve Examples.path_dirname Examples.path_root
       Examples.resolve Examples.readFile Examples.core_load
       Examples.requirePostcssModules (Examples.processWith [])
       (Some Examples.withoutModules) false
       (Examples.worldOf (Examples.assetOf Examples.declOnOneLine false Examples.treeFoo None))))))
  = [Some {| Postcss.line := 2; Postcss.column := 3 |}]
  /\ map (fun d => option_map end_ (loc d))
         (Asset.dependencies (asset (fst (transform Examples.md5FromString Examples.valueParser
       Examples.path_resolve Examples.path_dirname Examples.path_root
       Examples.resolve Examples.readFile Examples.core_load
       Examples.requirePostcssModules (Examples.processWith [])
       (Some Examples.withoutModules) false
       (Examples.worldOf (Examples.assetOf Examples.declOnOneLine false Examples.treeFoo None))))))
     = [Some {| Postcss.line := 2; Postcss.column := 10 |}]
  /\ Postcss.valueStart Examples.composesFoo
     = {| Postcss.line := 2; Postcss.column := 13 |}.
Proof. vm_compute. repeat split. Qed.

Lemma fast_path_example :
  Asset.dependencies
    (asset (fst (transform Examples.md5FromString Examples.valueParser
       Examples.path_resolve Examples.path_dirname Examples.path_root
       Examples.resolve Examples.readFile Examples.core_load
       Examples.requirePostcssModules (Examples.processWith [])
       (Some Examples.withoutModules) false
       (Examples.worldOf (Examples.assetOf Examples.declOnTwoLines false Examples.treeFoo None))))) = []
  /\ map moduleSpecifier
       (Asset.dependencies
          (asset (fst (transform Examples.md5FromString Examples.valueParser
       Examples.path_resolve Examples.path_dirname Examples.path_root
       Examples.resolve Examples.readFile Examples.core_load
       Examples.requirePostcssModules (Examples.processWith [])
       (Some Examples.withoutModules) false
       (Examples.worldOf (Examples.assetOf Examples.declOnTwoLines true Examples.treeFoo None)))))) = ["./b.css"].
Proof.
  split.
  - destruct (proj1 (@fast_path_skips_scan Examples.md5FromString Examples.valueParser
       Examples.path_resolve Examples.path_dirname Examples.path_root
       Examples.resolve Examples.readFile Examples.core_load
       string unit Examples.requirePostcssModules (Examples.processWith [])
       (Some Examples.withoutModules) false
       (Examples.worldOf (Examples.assetOf Examples.declOnTwoLines false Examples.treeFoo None))
       )
                eq_refl eq_refl) as (Hdeps & _).
    exact Hdeps.
  - destruct (proj2 (@fast_path_skips_scan Examples.md5FromString Examples.valueParser
       Examples.path_resolve Examples.path_dirname Examples.path_root
       Examples.resolve Examples.readFile Examples.core_load
       string unit Examples.requirePostcssModules (Examples.processWith [])
       (Some Examples.withoutModules) false
       (Examples.worldOf (Examples.assetOf Examples.declOnTwoLines true Examples.treeFoo None))
       )
                eq_refl Examples.withoutModules ["autoprefixer"] {| type := "postcss"; version := "7.0.0"; program := Examples.treeFoo |} eq_refl eq_refl eq_refl)
      as (_ & Hdeps & _).
    rewrite Hdeps. reflexivity.
Defined.

Lemma failing_plugins_example :
  snd (transform Examples.md5FromString Examples.valueParser
       Examples.path_resolve Examples.path_dirname Examples.path_root
       Examples.resolve Examples.readFile Examples.core_load
       Examples.requirePostcssModules Examples.processStoringThenFailing
       (Some Examples.withModules) false
       (Examples.worldOf (Examples.assetOf Examples.declOnOneLine false Examples.treeFoo None))) = inl (Thrown "CssSyntaxError")
  /\ filter isSetAST (calls (fst (transform Examples.md5FromString Examples.valueParser
       Examples.path_resolve Examples.path_dirname Examples.path_root
       Examples.resolve Examples.readFile Examples.core_load
       Examples.requirePostcssModules Examples.processStoringThenFailing
       (Some Examples.withModules) false
       (Examples.worldOf (Examples.assetOf Examples.declOnOneLine false Examples.treeFoo None))))) = []
  /\ Asset.includedFiles (asset (fst (transform Examples.md5FromString Examples.valueParser
       Examples.path_resolve Examples.path_dirname Examples.path_root
       Examples.resolve Examples.readFile Examples.core_load
       Examples.requirePostcssModules Examples.processStoringThenFailing
       (Some Examples.withModules) false
       (Examples.worldOf (Examples.assetOf Examples.declOnOneLine false Examples.treeFoo None))))) = []
  /\ List.length
       (filter isProcess (calls (fst (transform Examples.md5FromString Examples.valueParser
       Examples.path_resolve Examples.path_dirname Examples.path_root
       Examples.resolve Examples.readFile Examples.core_load
       Examples.requirePostcssModules Examples.processStoringThenFailing
       (Some Examples.withModules) false
       (Examples.worldOf (Examples.assetOf Examples.declOnOneLine false Examples.treeFoo None)))))) = 1
  /\ Asset.ast (asset (fst (transform Examples.md5FromString Examples.valueParser
       Examples.path_resolve Examples.path_dirname Examples.path_root
       Examples.resolve Examples.readFile Examples.core_load
       Examples.requirePostcssModules Examples.processStoringThenFailing
       (Some Examples.withModules) false
       (Examples.worldOf (Examples.assetOf Examples.declOnOneLine false Examples.treeFoo None))))) =
     Some {| type := "postcss"; version := "7.0.0";
             program := [Postcss.Rule "._a_1" [Postcss.Decl Examples.composesFoo]] |}
  /\ Asset.dependencies (asset (fst (transform Examples.md5FromString Examples.valueParser
       Examples.path_resolve Examples.path_dirname Examples.path_root
       Examples.resolve Examples.readFile Examples.core_load
       Examples.requirePostcssModules Examples.processStoringThenFailing
       (Some Examples.withModules) false
       (Examples.worldOf (Examples.assetOf Examples.declOnOneLine false Examples.treeFoo None))))) =
     [composesDependency Examples.composesFoo "./b.css"]
  /\ Asset.cssModules (asset (fst (transform Examples.md5FromString Examples.valueParser
       Examples.path_resolve Examples.path_dirname Examples.path_root
       Examples.resolve Examples.readFile Examples.core_load
       Examples.requirePostcssModules Examples.processStoringThenFailing
       (Some Examples.withModules) false
       (Examples.worldOf (Examples.assetOf Examples.declOnOneLine false Examples.treeFoo None))))) = Some [("a", "_a_1")].
Proof.
  destruct (@plugin_failure_propagates Examples.md5FromString Examples.valueParser
       Examples.path_resolve Examples.path_dirname Examples.path_root
       Examples.resolve Examples.readFile Examples.core_load
       string unit Examples.requirePostcssModules Examples.processStoringThenFailing
       Examples.withModules false
       (Examples.worldOf (Examples.assetOf Examples.declOnOneLine false Examples.treeFoo None))
       ["autoprefixer"; "postcss-modules"]
       {| type := "postcss"; version := "7.0.0"; program := Examples.treeFoo |}
       (Thrown "CssSyntaxError") eq_refl eq_refl eq_refl)
    as (Hres & Hset & _ & Hinc & Hproc & Hast & _ & Hdeps & Hcss).
  split; [exact Hres|]. split; [exact Hset|]. split; [exact Hinc|].
  split; [rewrite Hproc; reflexivity|].
  split; [exact Hast|]. split; [exact Hdeps | exact Hcss].
Defined.

(** The step is not atomic: after a plugin run that throws, the asset
    is not what it was.  On /proj/src/a.css with [composes: foo from
    './b.css'] and plugins that rename the selector, hand a token map to
    getJSON and then throw, transform ends with the error, and the asset
    has one more dependency, a token map in its metadata slot and a tree
    with the renamed selector. *)
Lemma plugin_failure_is_not_atomic :
  snd (transform Examples.md5FromString Examples.valueParser
       Examples.path_resolve Examples.path_dirname Examples.path_root
       Examples.resolve Examples.readFile Examples.core_load
       Examples.requirePostcssModules Examples.processStoringThenFailing
       (Some Examples.withModules) false
       (Examples.worldOf (Examples.assetOf Examples.declOnOneLine false Examples.treeFoo None))) = inl (Thrown "CssSyntaxError")
  /\ Asset.dependencies (Examples.assetOf Examples.declOnOneLine false Examples.treeFoo None) = []
  /\ Asset.dependencies (asset (fst (transform Examples.md5FromString Examples.valueParser
       Examples.path_resolve Examples.path_dirname Examples.path_root
       Examples.resolve Examples.readFile Examples.core_load
       Examples.requirePostcssModules Examples.processStoringThenFailing
       (Some Examples.withModules) false
       (Examples.worldOf (Examples.assetOf Examples.declOnOneLine false Examples.treeFoo None))))) =
     [composesDependency Examples.composesFoo "./b.css"]
  /\ Asset.cssModules (Examples.assetOf Examples.declOnOneLine false Examples.treeFoo None) = None
  /\ Asset.cssModules (asset (fst (transform Examples.md5FromString Examples.valueParser
       Examples.path_resolve Examples.path_dirname Examples.path_root
       Examples.resolve Examples.readFile Examples.core_load
       Examples.requirePostcssModules Examples.processStoringThenFailing
       (Some Examples.withModules) false
       (Examples.worldOf (Examples.assetOf Examples.declOnOneLine false Examples.treeFoo None))))) = Some [("a", "_a_1")]
  /\ option_map program
       (Asset.ast (Examples.assetOf Examples.declOnOneLine false Examples.treeFoo None))
     = Some [Postcss.Rule ".a" [Postcss.Decl Examples.composesFoo]]
  /\ option_map program (Asset.ast (asset (fst (transform Examples.md5FromString Examples.valueParser
       Examples.path_resolve Examples.path_dirname Examples.path_root
       Examples.resolve Examples.readFile Examples.core_load
       Examples.requirePostcssModules Examples.processStoringThenFailing
       (Some Examples.withModules) false
       (Examples.worldOf (Examples.assetOf Examples.declOnOneLine false Examples.treeFoo None))))))
     = Some [Postcss.Rule "._a_1" [Postcss.Decl Examples.composesFoo]]
  /\ asset (fst (transform Examples.md5FromString Examples.valueParser
       Examples.path_resolve Examples.path_dirname Examples.path_root
       Examples.resolve Examples.readFile Examples.core_load
       Examples.requirePostcssModules Examples.processStoringThenFailing
       (Some Examples.withModules) false
       (Examples.worldOf (Examples.assetOf Examples.declOnOneLine false Examples.treeFoo None))))
     <> Examples.assetOf Examples.declOnOneLine false Examples.treeFoo None.
Proof.
  vm_compute. repeat split. discriminate.
Qed.

Lemma reusable_ast_example :
  canReuseAST {| type := "postcss"; version := "7.0.0"; program := Examples.treeFoo |} = true
  /\ Asset.ast (asset (fst (transform Examples.md5FromString Examples.valueParser
       Examples.path_resolve Examples.path_dirname Examples.path_root
       Examples.resolve Examples.readFile Examples.core_load
       Examples.requirePostcssModules (Examples.processWith [])
       (Some Examples.withoutModules) false
       (Examples.worldOf (Examples.assetOf Examples.declOnOneLine false Examples.treeFoo None)))))
     = Some {| type := "postcss"; version := "7.0.0"; program := Examples.treeFoo |}.
Proof.
  destruct (@parsed_and_committed_ast_reusable Examples.md5FromString Examples.valueParser
       Examples.path_resolve Examples.path_dirname Examples.path_root
       Examples.resolve Examples.readFile Examples.core_load
              string unit Examples.requirePostcssModules (Examples.processWith []))
    as (Hparse & Hcommit).
  split.
  - destruct (Hparse (fun _ _ => inr Examples.treeFoo)
                     (Examples.assetOf Examples.declOnOneLine false Examples.treeFoo None) Examples.withoutModules)
      as (Hreuse & _).
    exact (proj2 (proj2 (Hreuse {| type := "postcss"; version := "7.0.0"; program := Examples.treeFoo |} eq_refl))).
  - destruct (Hcommit (Some Examples.withoutModules) false
                (Examples.worldOf (Examples.assetOf Examples.declOnOneLine false Examples.treeFoo None)))
      as (asts & _ & _ & Hdone).
    destruct (Hdone [TheAsset] eq_refl) as (t & _ & Hast); [discriminate|].
    rewrite Hast. vm_compute in Hast. now injection Hast as <-.
Defined.

(** C3, as the claim states it, fails when the token map is empty: the
    plugin hands the empty map to getJSON, the slot of the asset then
    holds an empty mapping, and transform returns the companion asset as
    well. *)
Lemma companion_for_empty_token_map :
  Asset.cssModules
    (asset (fst (transform Examples.md5FromString Examples.valueParser
       Examples.path_resolve Examples.path_dirname Examples.path_root
       Examples.resolve Examples.readFile Examples.core_load
       Examples.requirePostcssModules (Examples.processWith [])
       (Some Examples.withModules) false
       (Examples.worldOf (Examples.assetOf Examples.plainCode false Examples.plainTree None))))) = Some []
  /\ snd (transform Examples.md5FromString Examples.valueParser
       Examples.path_resolve Examples.path_dirname Examples.path_root
       Examples.resolve Examples.readFile Examples.core_load
       Examples.requirePostcssModules (Examples.processWith [])
       (Some Examples.withModules) false
       (Examples.worldOf (Examples.assetOf Examples.plainCode false Examples.plainTree None)))
     = inr [TheAsset; NewAsset "js" "/proj/src/a.css.js" "module.exports = {};"].
Proof. vm_compute. split; reflexivity. Qed.

Lemma companion_presence_example :
  (exists content,
      [TheAsset; NewAsset "js" "/proj/src/a.css.js" "module.exports = {};"]
      = [TheAsset; NewAsset "js" ("/proj/src/a.css" ++ ".js") content])
  /\ Asset.cssModules
       (asset (fst (transform Examples.md5FromString Examples.valueParser
       Examples.path_resolve Examples.path_dirname Examples.path_root
       Examples.resolve Examples.readFile Examples.core_load
       Examples.requirePostcssModules (Examples.processWith [])
       (Some Examples.withModules) false
       (Examples.worldOf (Examples.assetOf Examples.plainCode false Examples.plainTree None))))) <> None.
Proof.
  destruct (@companion_iff_tokens_stored Examples.md5FromString Examples.valueParser
       Examples.path_resolve Examples.path_dirname Examples.path_root
       Examples.resolve Examples.readFile Examples.core_load
       string unit Examples.requirePostcssModules (Examples.processWith [])
       Examples.withModules false
       (Examples.worldOf (Examples.assetOf Examples.plainCode false Examples.plainTree None))
       [TheAsset; NewAsset "js" "/proj/src/a.css.js" "module.exports = {};"] eq_refl)
    as ((Hto & Hfrom) & _).
  assert (Hex : exists content,
             [TheAsset; NewAsset "js" "/proj/src/a.css.js" "module.exports = {};"]
             = [TheAsset; NewAsset "js" ("/proj/src/a.css" ++ ".js") content])
    by (eexists; reflexivity).
  split; [exact Hex | exact (Hto Hex)].
Defined.

Lemma companion_script_example :
  snd (transform Examples.md5FromString Examples.valueParser
       Examples.path_resolve Examples.path_dirname Examples.path_root
       Examples.resolve Examples.readFile Examples.core_load
       Examples.requirePostcssModules (Examples.processWith [("a", "_a_1")])
       (Some Examples.withModules) false
       (Examples.worldOf (Examples.assetOf Examples.declOnOneLine false Examples.treeFoo None)))
  = inr [TheAsset;
         NewAsset "js" "/proj/src/a.css.js"
           (companionCode [("a", "_a_1")]
              [composesDependency Examples.composesFoo "./b.css"])]
  /\ JsExpr.get "a"
       (JsExpr.eval (fun _ => [("a", "_a_9"); ("b", "_b_9")])
          (JsExpr.ObjectAssign (JsExpr.ObjectLiteral [])
             [JsExpr.Require "./b.css"; JsExpr.ObjectLiteral [("a", "_a_1")]]))
     = Some "_a_1".
Proof.
  destruct (@companion_content Examples.md5FromString Examples.valueParser
       Examples.path_resolve Examples.path_dirname Examples.path_root
       Examples.resolve Examples.readFile Examples.core_load
              string unit Examples.requirePostcssModules
              (Examples.processWith [("a", "_a_1")]))
    as (_ & _ & _ & Heval & Hrun).
  assert (Hrs : snd (transform Examples.md5FromString Examples.valueParser
       Examples.path_resolve Examples.path_dirname Examples.path_root
       Examples.resolve Examples.readFile Examples.core_load
       Examples.requirePostcssModules (Examples.processWith [("a", "_a_1")])
       (Some Examples.withModules) false
       (Examples.worldOf (Examples.assetOf Examples.declOnOneLine false Examples.treeFoo None)))
                = inr [TheAsset;
                       NewAsset "js" "/proj/src/a.css.js"
                         (companionCode [("a", "_a_1")]
                            [composesDependency Examples.composesFoo "./b.css"])])
    by (vm_compute; reflexivity).
  assert (Hcss : Asset.cssModules (asset (fst (transform Examples.md5FromString Examples.valueParser
       Examples.path_resolve Examples.path_dirname Examples.path_root
       Examples.resolve Examples.readFile Examples.core_load
       Examples.requirePostcssModules (Examples.processWith [("a", "_a_1")])
       (Some Examples.withModules) false
       (Examples.worldOf (Examples.assetOf Examples.declOnOneLine false Examples.treeFoo None))))) = Some [("a", "_a_1")])
    by (vm_compute; reflexivity).
  pose proof (Hrun Examples.withModules false _ _ _ Hrs Hcss) as Hcompanion.
  split; [exact Hrs|].
  exact (Heval (fun _ => [("a", "_a_9"); ("b", "_b_9")]) [("a", "_a_1")]
               [composesDependency Examples.composesFoo "./b.css"] "a").
Defined.

Lemma scoped_name_example :
  generateScopedName Examples.md5FromString "foo" "/a.css" ".foo{}" = "_foo_/a.cs".
Proof.
  rewrite (proj1 (@generateScopedName_spec Examples.md5FromString "foo" "/a.css" ".foo{}")).
  reflexivity.
Defined.

Lemma loader_example :
  ParcelFileSystemLoader_fetch Examples.path_resolve Examples.path_dirname Examples.path_root
       Examples.resolve Examples.readFile Examples.core_load
    3 (String "'" ("./b.css" ++ String "'" EmptyString)) "/proj/src/a.css"
  = Some (inr [("proj/src/b.css", "composed"); ("proj/src/c.css", "leaf")])
  /\ ParcelFileSystemLoader_fetch Examples.rootedResolve Examples.path_dirname
       Examples.path_root Examples.resolve Examples.readFile Examples.core_load
       3 "./b.css" "/proj/src/a.css"
     = ParcelFileSystemLoader_fetch Examples.unrootedResolve Examples.path_dirname
         Examples.path_root Examples.resolve Examples.readFile Examples.core_load
         3 "./b.css" "/proj/src/a.css"
  /\ ParcelFileSystemLoader_fetch Examples.path_resolve Examples.path_dirname
       Examples.path_root Examples.resolve Examples.readFile Examples.core_load
       4 "./b.css" "/proj/src/a.css"
     = Some (inr [("proj/src/b.css", "composed"); ("proj/src/c.css", "leaf")]).
Proof.
  split; [|split].
  - destruct (@loader_fetch_contract Examples.path_resolve Examples.path_dirname Examples.path_root
       Examples.resolve Examples.readFile Examples.core_load)
      as (_ & Hquoted & _).
    destruct (Hquoted 3 "./b.css" "'"%char "'"%char "/proj/src/a.css" eq_refl eq_refl)
      as (_ & Hbare).
    change (ParcelFileSystemLoader_fetch Examples.path_resolve Examples.path_dirname Examples.path_root
       Examples.resolve Examples.readFile Examples.core_load)
      with (fetch (createLoader Examples.path_resolve Examples.path_dirname Examples.path_root
       Examples.resolve Examples.readFile Examples.core_load)).
    rewrite (Hbare eq_refl). reflexivity.
  - destruct (@loader_fetch_contract Examples.rootedResolve Examples.path_dirname
                Examples.path_root Examples.resolve Examples.readFile Examples.core_load)
      as (_ & _ & _ & Hroot & _).
    exact (Hroot Examples.unrootedResolve (fun _ _ => eq_refl) (fun _ _ => eq_refl)
                 3 "./b.css" "/proj/src/a.css").
  - destruct (@loader_fetch_contract Examples.path_resolve Examples.path_dirname
                Examples.path_root Examples.resolve Examples.readFile Examples.core_load)
      as (_ & _ & _ & _ & Hdeeper & _).
    exact (Hdeeper core_load_monotone_example 3 "./b.css" "/proj/src/a.css" _ eq_refl).
Defined.

(* ===================================================================== *)
(** ** The further properties on concrete runs *)
(* ===================================================================== *)


(** A blank before the colon: the code lacks the text composes: and the
    declaration of the tree is not scanned. *)
Lemma blank_before_colon_example :
  Asset.dependencies
    (asset (fst (transform Examples.md5FromString Examples.valueParser
       Examples.path_resolve Examples.path_dirname Examples.path_root
       Examples.resolve Examples.readFile Examples.core_load
       Examples.requirePostcssModules (Examples.processWith [])
       (Some Examples.withModules) false
       (Examples.worldOf (Examples.assetOf ".a { composes : foo from './b.css' }" false Examples.treeFoo None))))) = []
  /\ filter isAddDependency
       (calls (fst (transform Examples.md5FromString Examples.valueParser
       Examples.path_resolve Examples.path_dirname Examples.path_root
       Examples.resolve Examples.readFile Examples.core_load
       Examples.requirePostcssModules (Examples.processWith [])
       (Some Examples.withModules) false
       (Examples.worldOf (Examples.assetOf ".a { composes : foo from './b.css' }" false Examples.treeFoo None))))) = [].
Proof.
  exact (@no_composes_text_no_dependency Examples.md5FromString Examples.valueParser
       Examples.path_resolve Examples.path_dirname Examples.path_root
       Examples.resolve Examples.readFile Examples.core_load
       string unit Examples.requirePostcssModules (Examples.processWith [])
       (Some Examples.withModules) false
       (Examples.worldOf (Examples.assetOf ".a { composes : foo from './b.css' }" false Examples.treeFoo None))
       eq_refl (or_introl eq_refl)).
Defined.

(** The dependency registered for [composes: foo from './b.css']. *)
Lemma quoted_import_example :
  In (composesDependency Examples.composesFoo "./b.css") []
  \/ exists t decl pre mid ws q1 q2 tail,
       Some {| type := "postcss"; version := "7.0.0"; program := Examples.treeFoo |} = Some t
       /\ In decl (Postcss.declsOf (program t))
       /\ Postcss.prop decl = "composes"
       /\ Postcss.value decl =
          pre ++ mid ++ "from" ++ ws ++ String q1 ("./b.css" ++ String q2 tail)
       /\ mid <> EmptyString
       /\ JsString.all space ws = true
       /\ quote q1 = true
       /\ quote q2 = true
       /\ JsString.all dot "./b.css" = true
       /\ false = false.
Proof.
  exact (@registered_import_is_quoted_text Examples.md5FromString Examples.valueParser
       Examples.path_resolve Examples.path_dirname Examples.path_root
       Examples.resolve Examples.readFile Examples.core_load
       string unit Examples.requirePostcssModules (Examples.processWith [])
       (Some Examples.withoutModules) false
       (Examples.worldOf (Examples.assetOf Examples.declOnOneLine true Examples.treeFoo None))
       (composesDependency Examples.composesFoo "./b.css") (or_introl eq_refl)).
Defined.

(** postcss-modules cannot be provided. *)
Lemma failing_require_example :
  transform Examples.md5FromString Examples.valueParser
       Examples.path_resolve Examples.path_dirname Examples.path_root
       Examples.resolve Examples.readFile Examples.core_load
       Examples.requireFailing (Examples.processWith [])
       (Some Examples.withModules) false
       (Examples.worldOf (Examples.assetOf Examples.declOnOneLine false Examples.treeFoo None))
  = ({| asset := Examples.assetOf Examples.declOnOneLine false Examples.treeFoo None;
        calls := [CallRequire "postcss-modules"] |},
     inl (Thrown "Cannot find module postcss-modules")).
Proof.
  exact (@require_failure_propagates Examples.md5FromString Examples.valueParser
       Examples.path_resolve Examples.path_dirname Examples.path_root
       Examples.resolve Examples.readFile Examples.core_load
       string unit Examples.requireFailing (Examples.processWith [])
       Examples.withModules false
       (Examples.worldOf (Examples.assetOf Examples.declOnOneLine false Examples.treeFoo None))
       tt (Thrown "Cannot find module postcss-modules") eq_refl eq_refl).
Defined.

(** An asset without an AST. *)
Lemma missing_ast_example :
  snd (transform Examples.md5FromString Examples.valueParser
       Examples.path_resolve Examples.path_dirname Examples.path_root
       Examples.resolve Examples.readFile Examples.core_load
       Examples.requirePostcssModules (Examples.processWith [])
       (Some Examples.withModules) false
       (Examples.worldOf (Asset.with_ast (Examples.assetOf Examples.plainCode false Examples.plainTree None) None false))) = inl NullthrowsError
  /\ asset (fst (transform Examples.md5FromString Examples.valueParser
       Examples.path_resolve Examples.path_dirname Examples.path_root
       Examples.resolve Examples.readFile Examples.core_load
       Examples.requirePostcssModules (Examples.processWith [])
       (Some Examples.withModules) false
       (Examples.worldOf (Asset.with_ast (Examples.assetOf Examples.plainCode false Examples.plainTree None) None false)))) = (Asset.with_ast (Examples.assetOf Examples.plainCode false Examples.plainTree None) None false).
Proof.
  destruct (@missing_ast_throws Examples.md5FromString Examples.valueParser
       Examples.path_resolve Examples.path_dirname Examples.path_root
       Examples.resolve Examples.readFile Examples.core_load
       string unit Examples.requirePostcssModules (Examples.processWith [])
       Examples.withModules false
       (Examples.worldOf (Asset.with_ast (Examples.assetOf Examples.plainCode false Examples.plainTree None) None false))
       ["autoprefixer"; "postcss-modules"] eq_refl eq_refl) as (Hres & Hasset & _).
  split; [exact Hres | exact Hasset].
Defined.

(** One message of type dependency and one warning. *)
Lemma included_files_example :
  Asset.includedFiles
    (asset (fst (transform Examples.md5FromString Examples.valueParser
       Examples.path_resolve Examples.path_dirname Examples.path_root
       Examples.resolve Examples.readFile Examples.core_load
       Examples.requirePostcssModules (Examples.processWith [])
       (Some Examples.withoutModules) false
       (Examples.worldOf (Examples.assetOf Examples.plainCode false Examples.plainTree None))))) = ["/proj/src/vars.css"].
Proof.
  exact (proj1 (@included_files_from_dependency_messages Examples.md5FromString Examples.valueParser
       Examples.path_resolve Examples.path_dirname Examples.path_root
       Examples.resolve Examples.readFile Examples.core_load
       string unit Examples.requirePostcssModules (Examples.processWith [])
       Examples.withoutModules false
       (Examples.worldOf (Examples.assetOf Examples.plainCode false Examples.plainTree None))
       ["autoprefixer"] {| type := "postcss"; version := "7.0.0"; program := Examples.plainTree |}
       [ {| Postcss.type := "dependency"; Postcss.plugin := "postcss-import";
            Postcss.file := "/proj/src/vars.css" |};
         {| Postcss.type := "warning"; Postcss.plugin := "postcss-import";
            Postcss.file := EmptyString |} ]
       Examples.plainTree eq_refl eq_refl eq_refl)).
Defined.

(** Plugins that store a token map and then throw. *)
Lemma failure_keeps_effects_example :
  Asset.dependencies
    (asset (fst (transform Examples.md5FromString Examples.valueParser
       Examples.path_resolve Examples.path_dirname Examples.path_root
       Examples.resolve Examples.readFile Examples.core_load
       Examples.requirePostcssModules Examples.processStoringThenFailing
       (Some Examples.withModules) false
       (Examples.worldOf (Examples.assetOf Examples.declOnOneLine false Examples.treeFoo None))))) = [(composesDependency Examples.composesFoo "./b.css")]
  /\ Asset.cssModules
       (asset (fst (transform Examples.md5FromString Examples.valueParser
       Examples.path_resolve Examples.path_dirname Examples.path_root
       Examples.resolve Examples.readFile Examples.core_load
       Examples.requirePostcssModules Examples.processStoringThenFailing
       (Some Examples.withModules) false
       (Examples.worldOf (Examples.assetOf Examples.declOnOneLine false Examples.treeFoo None))))) = Some [("a", "_a_1")].
Proof.
  destruct (@plugin_failure_keeps_earlier_effects Examples.md5FromString Examples.valueParser
       Examples.path_resolve Examples.path_dirname Examples.path_root
       Examples.resolve Examples.readFile Examples.core_load
       string unit Examples.requirePostcssModules Examples.processStoringThenFailing
       Examples.withModules false
       (Examples.worldOf (Examples.assetOf Examples.declOnOneLine false Examples.treeFoo None))
       ["autoprefixer"; "postcss-modules"] {| type := "postcss"; version := "7.0.0"; program := Examples.treeFoo |}
       (Thrown "CssSyntaxError") eq_refl eq_refl eq_refl) as (Hdeps & _ & Hlast & _).
  split; [exact Hdeps|].
  exact (Hlast [] "/proj/src/a.css" [("a", "_a_1")] eq_refl).
Defined.

(** The calls of a completed run with modules enabled. *)
Lemma effects_in_order_example :
  calls (fst (transform Examples.md5FromString Examples.valueParser
       Examples.path_resolve Examples.path_dirname Examples.path_root
       Examples.resolve Examples.readFile Examples.core_load
       Examples.requirePostcssModules (Examples.processWith [])
       (Some Examples.withModules) false
       (Examples.worldOf (Examples.assetOf Examples.declOnOneLine false Examples.treeFoo None))))
  = [CallRequire "postcss-modules";
     CallAddDependency (composesDependency Examples.composesFoo "./b.css");
     CallProcess Examples.treeFoo;
     CallSetAST {| type := "postcss"; version := "7.0.0"; program := Examples.treeFoo |};
     CallAddIncludedFile "/proj/src/vars.css"].
Proof.
  exact (@completed_transform_effects_in_order Examples.md5FromString Examples.valueParser
       Examples.path_resolve Examples.path_dirname Examples.path_root
       Examples.resolve Examples.readFile Examples.core_load
       string unit Examples.requirePostcssModules (Examples.processWith [])
       Examples.withModules false
       (Examples.worldOf (Examples.assetOf Examples.declOnOneLine false Examples.treeFoo None))
       ["autoprefixer"; "postcss-modules"] {| type := "postcss"; version := "7.0.0"; program := Examples.treeFoo |}
       [ {| Postcss.type := "dependency"; Postcss.plugin := "postcss-import";
            Postcss.file := "/proj/src/vars.css" |};
         {| Postcss.type := "warning"; Postcss.plugin := "postcss-import";
            Postcss.file := EmptyString |} ]
       Examples.treeFoo eq_refl eq_refl eq_refl).
Defined.

(** The companion script of a run that registers one dependency. *)
Lemma companion_requires_example :
  snd (transform Examples.md5FromString Examples.valueParser
       Examples.path_resolve Examples.path_dirname Examples.path_root
       Examples.resolve Examples.readFile Examples.core_load
       Examples.requirePostcssModules (Examples.processWith [("a", "_a_1")])
       (Some Examples.withModules) false
       (Examples.worldOf (Examples.assetOf Examples.declOnOneLine false Examples.treeFoo None)))
  = inr [TheAsset;
         NewAsset "js" "/proj/src/a.css.js"
           (companionCode [("a", "_a_1")] [(composesDependency Examples.composesFoo "./b.css")])].
Proof.
  exact (@companion_requires_registered_imports Examples.md5FromString Examples.valueParser
       Examples.path_resolve Examples.path_dirname Examples.path_root
       Examples.resolve Examples.readFile Examples.core_load
       string unit Examples.requirePostcssModules (Examples.processWith [("a", "_a_1")])
       Examples.withModules false
       (Examples.worldOf (Examples.assetOf Examples.declOnOneLine false Examples.treeFoo None))
       ["autoprefixer"; "postcss-modules"] {| type := "postcss"; version := "7.0.0"; program := Examples.treeFoo |}
       [ {| Postcss.type := "dependency"; Postcss.plugin := "postcss-import";
            Postcss.file := "/proj/src/vars.css" |};
         {| Postcss.type := "warning"; Postcss.plugin := "postcss-import";
            Postcss.file := EmptyString |} ]
       Examples.treeFoo [("a", "_a_1")] eq_refl eq_refl eq_refl eq_refl).
Defined.

(** COMPOSES_RE on the file with the declaration on one line. *)
Lemma composes_re_example : test COMPOSES_RE Examples.declOnOneLine = true.
Proof.
  apply (proj2 (composes_re_matches_exactly Examples.declOnOneLine)).
  exists (".a {" ++ JSON.nl ++ "  "), " foo ", " ", "'"%char, "./b.css", "'"%char,
         (";" ++ JSON.nl ++ "}").
  repeat split. discriminate.
Defined.

(** FROM_IMPORT_RE on the value [foo from './b.css']. *)
Lemma from_import_re_example :
  exists p, execGroup FROM_IMPORT_RE 1 "foo from './b.css'" = Some p.
Proof.
  apply (proj2 (from_import_re_matches_exactly "foo from './b.css'")).
  exists EmptyString, "foo ", " ", "'"%char, "./b.css", "'"%char, EmptyString.
  repeat split. discriminate.
Defined.

(** The require comes first, and only with modules enabled. *)
Lemma require_first_example :
  exists others,
    calls (fst (transform Examples.md5FromString Examples.valueParser
       Examples.path_resolve Examples.path_dirname Examples.path_root
       Examples.resolve Examples.readFile Examples.core_load
       Examples.requirePostcssModules (Examples.processWith [])
       (Some Examples.withModules) false
       (Examples.worldOf (Examples.assetOf Examples.declOnOneLine false Examples.treeFoo None))))
    = ([] ++ [CallRequire "postcss-modules"] ++ others)%list
    /\ filter isRequire others = [].
Proof.
  exact (@postcss_modules_required_first Examples.md5FromString Examples.valueParser
       Examples.path_resolve Examples.path_dirname Examples.path_root
       Examples.resolve Examples.readFile Examples.core_load
       string unit Examples.requirePostcssModules (Examples.processWith [])
       (Some Examples.withModules) false
       (Examples.worldOf (Examples.assetOf Examples.declOnOneLine false Examples.treeFoo None))).
Defined.

(** A run leaves the file path and the code as they were. *)
Lemma only_appends_example :
  Asset.filePath
    (asset (fst (transform Examples.md5FromString Examples.valueParser
       Examples.path_resolve Examples.path_dirname Examples.path_root
       Examples.resolve Examples.readFile Examples.core_load
       Examples.requirePostcssModules (Examples.processWith [])
       (Some Examples.withModules) false
       (Examples.worldOf (Examples.assetOf Examples.declOnOneLine false Examples.treeFoo None))))) = "/proj/src/a.css"
  /\ Asset.code
       (asset (fst (transform Examples.md5FromString Examples.valueParser
       Examples.path_resolve Examples.path_dirname Examples.path_root
       Examples.resolve Examples.readFile Examples.core_load
       Examples.requirePostcssModules (Examples.processWith [])
       (Some Examples.withModules) false
       (Examples.worldOf (Examples.assetOf Examples.declOnOneLine false Examples.treeFoo None))))) = Examples.declOnOneLine.
Proof.
  destruct (@transform_only_appends Examples.md5FromString Examples.valueParser
       Examples.path_resolve Examples.path_dirname Examples.path_root
       Examples.resolve Examples.readFile Examples.core_load
       string unit Examples.requirePostcssModules (Examples.processWith [])
       (Some Examples.withModules) false
       (Examples.worldOf (Examples.assetOf Examples.declOnOneLine false Examples.treeFoo None))) as (Hpath & Hcode & _).
  split; [exact Hpath | exact Hcode].
Defined.

(** A specifier that is one quote character. *)
Lemma lone_quote_example : deleteAll QUOTES_RE "'" = EmptyString.
Proof.
  exact (proj1 (proj2 (proj2 quote_stripping_removes_only_end_quotes)) "'"%char eq_refl).
Defined.

(** generate after parse, with a parser and a stringifier that keep the
    text. *)
Lemma generate_after_parse_example :
  Generated.content
    (generate Examples.postcssStringify
       {| type := "postcss"; version := "7.0.0"; program := [Postcss.Comment Examples.plainCode] |})
  = Examples.plainCode.
Proof.
  assert (Hround : forall code from root,
            Examples.postcssParse code from = inr root ->
            fold_right append EmptyString (Examples.postcssStringify root) = code).
  { intros code from root H. injection H as <-. simpl.
    induction code as [|c code IH]; simpl; [reflexivity | now rewrite IH]. }
  exact (proj2 (@generate_after_parse string unit
                  Examples.postcssParse Examples.postcssStringify
                  (Examples.assetOf Examples.plainCode false Examples.plainTree None)
                  (Some Examples.withoutModules)
                  {| type := "postcss"; version := "7.0.0"; program := [Postcss.Comment Examples.plainCode] |}
                  Hround eq_refl)).
Defined.

(** Two equal scoped names of one file. *)
Lemma scoped_names_example :
  "title" = "title"
  /\ JsString.take 5 (Examples.md5FromString ("/proj/src/a.css" ++ Examples.plainCode))
     = JsString.take 5 (Examples.md5FromString ("/proj/src/a.css" ++ Examples.plainCode)).
Proof.
  exact (@scoped_names_collide_only_on_equal_names Examples.md5FromString
           "title" "/proj/src/a.css" Examples.plainCode
           "title" "/proj/src/a.css" Examples.plainCode eq_refl eq_refl).
Defined.

(** canReuseAST on the versions 7.12.3 and 8.0.0. *)
Lemma release_versions_example :
  canReuseAST {| type := "postcss"; version := "7.12.3"; program := [] |} = true
  /\ canReuseAST {| type := "postcss"; version := "8.0.0"; program := [] |} = false.
Proof.
  split.
  - exact (@canReuseAST_release_versions
             {| type := "postcss"; version := "7.12.3"; program := [] |}
             "7" "12" "3" eq_refl eq_refl eq_refl eq_refl
             ltac:(simpl; lia) ltac:(simpl; lia) ltac:(simpl; lia)).
  - exact (@canReuseAST_release_versions
             {| type := "postcss"; version := "8.0.0"; program := [] |}
             "8" "0" "0" eq_refl eq_refl eq_refl eq_refl
             ltac:(simpl; lia) ltac:(simpl; lia) ltac:(simpl; lia)).
Defined.
